(** * go-bridge-vm: the configurable rule-based intent engine

    A shallow embedding of [internal/models/intent_config.go] and of
    [internal/services/enhanced_local_provider.go] (the version with
    [addMissingFieldsAndFollowUp] and the three-pass [extractEntities]), with
    [NormalizeText] of [internal/models/intent.go] and the [ExtractIntent] of
    the intent service that calls the provider.

    Modelling conventions.
    - A Go [string] is a sequence of bytes: Rocq's [string].  The functions of
      Go's [strings] and [unicode] packages are modelled on ASCII text; bytes
      above 127 are neither spaces nor punctuation and have no other case
      here.
    - [float64] is Rocq's primitive binary64 [float]; every [+], [*], [/] and
      comparison is the IEEE operation, rounded after each step (no fused
      multiply-add), constants are rounded to the nearest binary64.
    - [int] is [Z]; [float64(n)] rounds to the nearest binary64.
    - A Go [map] is a [gmap].  Go leaves the order of [range] over a map
      unspecified, so every function that ranges over a map takes the order
      of that traversal as an argument: a list holding the entries of the map.
    - A compiled [*regexp.Regexp] is a value of [Regexp.t]; matching is
      leftmost-first backtracking, as Go's non-POSIX matcher reports it. *)

From Stdlib Require Import Floats ZArith String Ascii List Bool Lia.
From stdpp Require Import gmap strings list fin_maps.

Set Warnings "-inexact-float".

Open Scope string_scope.

(** ** Go's [strings] and [unicode] packages, on ASCII bytes *)
Module GoStrings.

Definition code (c : ascii) : N := N_of_ascii c.

Definition between (lo hi c : ascii) : bool :=
  (code lo <=? code c)%N && (code c <=? code hi)%N.

Definition byte_in (c : ascii) (set : string) : bool :=
  existsb (Ascii.eqb c) (list_ascii_of_string set).

(** unicode.IsSpace on ASCII: tab, newline, vertical tab, form feed,
    carriage return, space. *)
Definition IsSpace (c : ascii) : bool :=
  between "009" "013" c || Ascii.eqb c " ".

Definition IsUpper (c : ascii) : bool := between "A" "Z" c.

(** unicode.IsUpper(rune(b)) for a byte [b] of a string: the conversion reads
    the byte as a code point below 256, where the upper-case letters are A to
    Z and the Latin-1 letters 192 to 222 without the multiplication sign. *)
Definition IsUpperRuneOfByte (c : ascii) : bool :=
  between "A" "Z" c || (between "192" "222" c && negb (Ascii.eqb c "215")).

Definition IsDigit (c : ascii) : bool := between "0" "9" c.

(** unicode.IsPunct on ASCII: the characters of Unicode category P.
    The symbols $ + < = > ^ ` | ~ are of category S and are not punctuation. *)
Definition IsPunct (c : ascii) : bool :=
  between "033" "035" c || between "037" "042" c || between "044" "047" c
  || between ":" ";" c || between "?" "@" c || between "[" "]" c
  || Ascii.eqb c "_" || Ascii.eqb c "{" || Ascii.eqb c "}".

Definition ToLowerByte (c : ascii) : ascii :=
  if IsUpper c then ascii_of_N (code c + 32) else c.

Definition ToUpperByte (c : ascii) : ascii :=
  if between "a" "z" c then ascii_of_N (code c - 32) else c.

(** strings.Map *)
Fixpoint Map (f : ascii -> ascii) (s : string) : string :=
  match s with
  | EmptyString => EmptyString
  | String c s' => String (f c) (Map f s')
  end.

Definition ToLower (s : string) : string := Map ToLowerByte s.

Definition starts_word (s : string) : bool :=
  match s with
  | EmptyString => false
  | String c _ => negb (IsSpace c)
  end.

(** strings.Fields: the maximal runs of non-space bytes, in order. *)
Fixpoint Fields (s : string) : list string :=
  match s with
  | EmptyString => []
  | String c s' =>
      if IsSpace c then Fields s'
      else if starts_word s' then
        match Fields s' with
        | w :: ws => String c w :: ws
        | [] => [String c EmptyString]
        end
      else String c EmptyString :: Fields s'
  end.

(** strings.Join *)
Fixpoint Join (elems : list string) (sep : string) : string :=
  match elems with
  | [] => EmptyString
  | [w] => w
  | w :: ws => w ++ sep ++ Join ws sep
  end.

(** strings.HasPrefix *)
Fixpoint HasPrefix (s pre : string) : bool :=
  match pre, s with
  | EmptyString, _ => true
  | String _ _, EmptyString => false
  | String a pre', String b s' => Ascii.eqb a b && HasPrefix s' pre'
  end.

(** strings.Contains: [substr] occurs in [s]; the empty string always does. *)
Fixpoint Contains (s substr : string) : bool :=
  HasPrefix s substr ||
  match s with
  | EmptyString => false
  | String _ s' => Contains s' substr
  end.

(** strings.ContainsAny *)
Fixpoint ContainsAny (s chars : string) : bool :=
  match s with
  | EmptyString => false
  | String c s' => byte_in c chars || ContainsAny s' chars
  end.

Fixpoint TrimLeft (s cutset : string) : string :=
  match s with
  | EmptyString => EmptyString
  | String c s' => if byte_in c cutset then TrimLeft s' cutset else s
  end.

Fixpoint TrimRight (s cutset : string) : string :=
  match s with
  | EmptyString => EmptyString
  | String c s' =>
      match TrimRight s' cutset with
      | EmptyString => if byte_in c cutset then EmptyString else String c EmptyString
      | t => String c t
      end
  end.

(** strings.Trim *)
Definition Trim (s cutset : string) : string :=
  TrimRight (TrimLeft s cutset) cutset.

(** The first [n] bytes of [s]. *)
Fixpoint take (n : nat) (s : string) : string :=
  match n, s with
  | S n', String c s' => String c (take n' s')
  | _, _ => EmptyString
  end.

(** strings.TrimSpace: the leading and the trailing spaces are cut. *)
Fixpoint TrimLeftSpace (s : string) : string :=
  match s with
  | EmptyString => EmptyString
  | String c s' => if IsSpace c then TrimLeftSpace s' else s
  end.

Fixpoint TrimRightSpace (s : string) : string :=
  match s with
  | EmptyString => EmptyString
  | String c s' =>
      match TrimRightSpace s' with
      | EmptyString => if IsSpace c then EmptyString else String c EmptyString
      | t => String c t
      end
  end.

Definition TrimSpace (s : string) : string := TrimRightSpace (TrimLeftSpace s).

End GoStrings.

(** ** Go's [regexp] package: syntax trees, a parser for the fragment the
    repository's patterns use, and leftmost-first matching *)
Module Regexp.
Import GoStrings.

(** The syntax tree of a pattern.  [Chars fold neg ranges] is one byte of a
    class: [fold] is the case-insensitive flag [(?i)], [neg] a leading [^]. *)
Inductive re : Type :=
  | Eps
  | Chars (fold neg : bool) (ranges : list (ascii * ascii))
  | Cat (r1 r2 : re)
  | Alt (r1 r2 : re)
  | Star (r : re)
  | Group (i : nat) (r : re).

Definition Plus (r : re) : re := Cat r (Star r).
Definition Opt (r : re) : re := Alt r Eps.

Fixpoint power (n : nat) (r : re) : re :=
  match n with
  | O => Eps
  | S n' => Cat r (power n' r)
  end.

Fixpoint upto (n : nat) (r : re) : re :=
  match n with
  | O => Eps
  | S n' => Opt (Cat r (upto n' r))
  end.

(** [r{lo,hi}], [r{lo,}] (no upper bound) *)
Definition Repeat (lo : nat) (hi : option nat) (r : re) : re :=
  match hi with
  | None => Cat (power lo r) (Star r)
  | Some h => Cat (power lo r) (upto (h - lo) r)
  end.

Definition in_ranges (ranges : list (ascii * ascii)) (a : ascii) : bool :=
  existsb (fun '(lo, hi) => between lo hi a) ranges.

Definition class_matches (fold neg : bool) (ranges : list (ascii * ascii))
    (a : ascii) : bool :=
  xorb neg
    (in_ranges ranges a
     || (fold && (in_ranges ranges (ToLowerByte a) || in_ranges ranges (ToUpperByte a)))).

(** Capture registers: the most recent binding of a group comes first. *)
Definition caps : Type := list (nat * string).

Fixpoint cap (i : nat) (c : caps) : string :=
  match c with
  | [] => EmptyString
  | (j, v) :: c' => if Nat.eqb i j then v else cap i c'
  end.

(** The bytes consumed between the suffixes [s] and [s1] of the input. *)
Definition consumed (s s1 : string) : string :=
  take (String.length s - String.length s1) s.

(** The result of a match: the rest of the input and the capture registers. *)
Definition result : Type := option (string * caps).

(** The loop of a starred expression whose body is matched by [body]: greedy,
    and an iteration has to consume input. *)
Fixpoint star_loop (body : string -> caps -> (string -> caps -> result) -> result)
    (k : string -> caps -> result) (fuel : nat) (s : string) (c : caps) : result :=
  match fuel with
  | O => k s c
  | S fuel' =>
      match body s c (fun s1 c1 =>
              if (String.length s1 <? String.length s)%nat
              then star_loop body k fuel' s1 c1 else None) with
      | Some m => Some m
      | None => k s c
      end
  end.

(** Backtracking matcher in continuation-passing style: [exec r s c k] matches
    [r] at the front of [s] and hands the rest of the input to [k]; the first
    alternative for which [k] succeeds wins. *)
Fixpoint exec (r : re) (s : string) (c : caps)
    (k : string -> caps -> result) : result :=
  match r with
  | Eps => k s c
  | Chars fold neg ranges =>
      match s with
      | String a s' => if class_matches fold neg ranges a then k s' c else None
      | EmptyString => None
      end
  | Cat r1 r2 => exec r1 s c (fun s1 c1 => exec r2 s1 c1 k)
  | Alt r1 r2 =>
      match exec r1 s c k with
      | Some m => Some m
      | None => exec r2 s c k
      end
  | Star r1 => star_loop (exec r1) k (String.length s) s c
  | Group i r1 => exec r1 s c (fun s1 c1 => k s1 ((i, consumed s s1) :: c1))
  end.

Definition exec_at (r : re) (s : string) : result :=
  exec r s [] (fun s1 c1 => Some (s1, c1)).

(** The leftmost match: the whole match and the capture registers. *)
Fixpoint search (r : re) (s : string) : result :=
  match exec_at r s with
  | Some (s1, c1) => Some (consumed s s1, c1)
  | None =>
      match s with
      | EmptyString => None
      | String _ s' => search r s'
      end
  end.

(** *** Parsing a pattern (regexp.Compile)

    The fragment covered: literals, [.], classes with ranges and the escapes
    [\d \s \w], the escapes [\d \s \w \D \S \W] and escaped punctuation outside
    classes, groups (capturing, [(?:...)], the flag [(?i)]), alternation, and
    the greedy quantifiers [* + ? {n} {n,} {n,m}].  Anything else (anchors,
    lazy quantifiers, named groups, ...) is not parsed and yields [None]. *)

Definition mkCat (r1 r2 : re) : re :=
  match r1, r2 with
  | Eps, _ => r2
  | _, Eps => r1
  | _, _ => Cat r1 r2
  end.

Definition digits : list (ascii * ascii) := [("0", "9")]%char.
Definition spaces : list (ascii * ascii) :=
  [("009", "010"); ("012", "013"); (" ", " ")]%char.
Definition word_bytes : list (ascii * ascii) :=
  [("0", "9"); ("A", "Z"); ("a", "z"); ("_", "_")]%char.

(** [\d], [\s], [\w] and their negations. *)
Definition escape_class (e : ascii) : option (bool * list (ascii * ascii)) :=
  if Ascii.eqb e "d" then Some (false, digits)
  else if Ascii.eqb e "s" then Some (false, spaces)
  else if Ascii.eqb e "w" then Some (false, word_bytes)
  else if Ascii.eqb e "D" then Some (true, digits)
  else if Ascii.eqb e "S" then Some (true, spaces)
  else if Ascii.eqb e "W" then Some (true, word_bytes)
  else None.

Definition is_alnum (c : ascii) : bool :=
  IsDigit c || between "A" "Z" c || between "a" "z" c.

(** A backslash before a control letter or before ASCII punctuation. *)
Definition escape_char (e : ascii) : option ascii :=
  if Ascii.eqb e "n" then Some "010"%char
  else if Ascii.eqb e "t" then Some "009"%char
  else if Ascii.eqb e "r" then Some "013"%char
  else if Ascii.eqb e "f" then Some "012"%char
  else if Ascii.eqb e "v" then Some "011"%char
  else if (code e <? 128)%N && negb (is_alnum e) then Some e
  else None.

Definition digit_val (c : ascii) : nat := N.to_nat (code c - code "0").

Fixpoint read_digits (s : string) (acc : nat) : nat * string :=
  match s with
  | String c s' => if IsDigit c then read_digits s' (10 * acc + digit_val c) else (acc, s)
  | EmptyString => (acc, s)
  end.

Definition p_nat (s : string) : option (nat * string) :=
  match s with
  | String c _ => if IsDigit c then Some (read_digits s 0) else None
  | EmptyString => None
  end.

(** The text after an opening brace: [n}], [n,}] or [n,m}]. *)
Definition p_repeat (s : string) : option (nat * option nat * string) :=
  match p_nat s with
  | None => None
  | Some (lo, s1) =>
      match s1 with
      | String "}" s2 => Some (lo, Some lo, s2)
      | String "," (String "}" s2) => Some (lo, None, s2)
      | String "," s2 =>
          match p_nat s2 with
          | Some (hi, String "}" s3) =>
              if (lo <=? hi)%nat then Some (lo, Some hi, s3) else None
          | _ => None
          end
      | _ => None
      end
  end.

(** No quantifier may follow a quantifier (lazy and nested forms). *)
Definition no_quant (s : string) : bool :=
  match s with
  | String c s' =>
      if Ascii.eqb c "*" || Ascii.eqb c "+" || Ascii.eqb c "?" then false
      else if Ascii.eqb c "{" then
        match p_repeat s' with Some _ => false | None => true end
      else true
  | EmptyString => true
  end.

Definition p_quant (r : re) (s : string) : option (re * string) :=
  let done (r' : re) (s' : string) := if no_quant s' then Some (r', s') else None in
  match s with
  | String "*" s' => done (Star r) s'
  | String "+" s' => done (Plus r) s'
  | String "?" s' => done (Opt r) s'
  | String "{" s' =>
      match p_repeat s' with
      | Some (lo, hi, s2) => done (Repeat lo hi r) s2
      | None => Some (r, s)
      end
  | _ => Some (r, s)
  end.

(** One element of a class: a set escape or a single byte. *)
Definition class_atom (s : string)
    : option ((list (ascii * ascii) + ascii) * string) :=
  match s with
  | String "\" (String e s') =>
      match escape_class e with
      | Some (false, set) => Some (inl set, s')
      | Some (true, _) => None
      | None =>
          match escape_char e with
          | Some c => Some (inr c, s')
          | None => None
          end
      end
  | String "\" EmptyString => None
  | String "[" (String ":" _) => None
  | String c s' => Some (inr c, s')
  | EmptyString => None
  end.

(** The elements of a class up to the closing bracket. *)
Fixpoint p_items (fuel : nat) (s : string) (acc : list (ascii * ascii))
    : option (list (ascii * ascii) * string) :=
  match fuel with
  | O => None
  | S f =>
      match s with
      | EmptyString => None
      | String "]" s' =>
          match acc with
          | [] => None
          | _ => Some (rev acc, s')
          end
      | _ =>
          match class_atom s with
          | None => None
          | Some (inl set, s1) => p_items f s1 (rev set ++ acc)
          | Some (inr lo, s1) =>
              match s1 with
              | String "-" (String "]" _) => p_items f s1 ((lo, lo) :: acc)
              | String "-" s2 =>
                  match class_atom s2 with
                  | Some (inr hi, s3) =>
                      if (code lo <=? code hi)%N
                      then p_items f s3 ((lo, hi) :: acc) else None
                  | _ => None
                  end
              | _ => p_items f s1 ((lo, lo) :: acc)
              end
          end
      end
  end.

(** The text after an opening bracket. *)
Definition p_class (fold : bool) (s : string) : option (re * string) :=
  let '(neg, s1) :=
    match s with
    | String "^" s' => (true, s')
    | _ => (false, s)
    end in
  match p_items (S (String.length s1)) s1 [] with
  | Some (ranges, s2) => Some (Chars fold neg ranges, s2)
  | None => None
  end.

Definition drop (n : nat) (s : string) : string :=
  substring n (String.length s - n) s.

(** Alternation, concatenation and atoms.  The state is the flag [(?i)] and
    the number of capturing groups opened so far; a flag set inside a group
    ends with the group. *)
Fixpoint p_alt (fuel : nat) (fold : bool) (n : nat) (s : string) {struct fuel}
    : option (re * bool * nat * string) :=
  match fuel with
  | O => None
  | S f =>
      match p_cat f fold n s with
      | None => None
      | Some (r1, fold1, n1, s1) =>
          match s1 with
          | String "|" s2 =>
              match p_alt f fold1 n1 s2 with
              | Some (r2, fold2, n2, s3) => Some (Alt r1 r2, fold2, n2, s3)
              | None => None
              end
          | _ => Some (r1, fold1, n1, s1)
          end
      end
  end
with p_cat (fuel : nat) (fold : bool) (n : nat) (s : string) {struct fuel}
    : option (re * bool * nat * string) :=
  match fuel with
  | O => None
  | S f =>
      match s with
      | EmptyString => Some (Eps, fold, n, s)
      | String c _ =>
          if Ascii.eqb c "|" || Ascii.eqb c ")" then Some (Eps, fold, n, s)
          else
            match p_atom f fold n s with
            | None => None
            | Some (r1, fold1, n1, s1) =>
                match p_cat f fold1 n1 s1 with
                | Some (r2, fold2, n2, s2) => Some (mkCat r1 r2, fold2, n2, s2)
                | None => None
                end
            end
      end
  end
with p_atom (fuel : nat) (fold : bool) (n : nat) (s : string) {struct fuel}
    : option (re * bool * nat * string) :=
  let quant (r : re) (n' : nat) (s' : string) :=
    match p_quant r s' with
    | Some (r', s2) => Some (r', fold, n', s2)
    | None => None
    end in
  match fuel with
  | O => None
  | S f =>
      match s with
      | EmptyString => None
      | String "(" s1 =>
          if HasPrefix s1 "?i)" then Some (Eps, true, n, drop 3 s1)
          else if HasPrefix s1 "?:" then
            match p_alt f fold n (drop 2 s1) with
            | Some (r, _, n', String ")" s2) => quant r n' s2
            | _ => None
            end
          else if HasPrefix s1 "?" then None
          else
            match p_alt f fold (S n) s1 with
            | Some (r, _, n', String ")" s2) => quant (Group (S n) r) n' s2
            | _ => None
            end
      | String "[" s1 =>
          match p_class fold s1 with
          | Some (r, s2) => quant r n s2
          | None => None
          end
      | String "\" (String e s1) =>
          match escape_class e with
          | Some (neg, set) => quant (Chars false neg set) n s1
          | None =>
              match escape_char e with
              | Some c => quant (Chars fold false [(c, c)]) n s1
              | None => None
              end
          end
      | String "." s1 => quant (Chars false true [("010", "010")]%char) n s1
      | String c s1 =>
          if byte_in c "\^$*+?)|" then None
          else quant (Chars fold false [(c, c)]) n s1
      end
  end.

(** The syntax tree of a pattern of the fragment. *)
Definition parse (pattern : string) : option re :=
  match p_alt (4 * String.length pattern + 4) false 0 pattern with
  | Some (r, _, _, EmptyString) => Some r
  | _ => None
  end.

(** Regexp.NumSubexp *)
Fixpoint NumSubexp (r : re) : nat :=
  match r with
  | Eps | Chars _ _ _ => 0
  | Cat r1 r2 | Alt r1 r2 => Nat.max (NumSubexp r1) (NumSubexp r2)
  | Star r1 => NumSubexp r1
  | Group i r1 => Nat.max i (NumSubexp r1)
  end.

Definition match_re (r : re) (s : string) : bool :=
  match search r s with
  | Some _ => true
  | None => false
  end.

Definition find_re (r : re) (s : string) : list string :=
  match search r s with
  | None => []
  | Some (whole, c) => whole :: List.map (fun i => cap i c) (seq 1 (NumSubexp r))
  end.

(** A compiled [*regexp.Regexp], as the two methods the engine calls.
    [FindStringSubmatch] is nil when there is no match, else the whole match
    followed by the text of each group, empty for a group that took no part
    in the match. *)
Record t : Type := {
  MatchString : string -> bool;
  FindStringSubmatch : string -> list string
}.

Definition of_re (r : re) : t :=
  {| MatchString := match_re r; FindStringSubmatch := find_re r |}.

(** regexp.Compile *)
Definition Compile (pattern : string) : option t :=
  match parse pattern with
  | Some r => Some (of_re r)
  | None => None
  end.

(** regexp.MustCompile panics on a pattern that does not compile; here such
    a pattern yields a matcher that never matches. *)
Definition MustCompile (pattern : string) : t :=
  match Compile pattern with
  | Some r => r
  | None => {| MatchString := fun _ => false; FindStringSubmatch := fun _ => [] |}
  end.

End Regexp.

(** ** Go's [math] package and numeric conversions *)
Module GoMath.

(** [float64(n)] for an [int]: the nearest binary64. *)
Definition float_of_Z (n : Z) : float :=
  SF2Prim (binary_normalize prec emax n 0 false).

Definition float_of_nat (n : nat) : float := float_of_Z (Z.of_nat n).

(** math.Min, with its special cases for infinities, NaN and signed zeros. *)
Definition Min (x y : float) : float :=
  if (x =? neg_infinity)%float || (y =? neg_infinity)%float then neg_infinity
  else if is_nan x || is_nan y then nan
  else if (x =? 0)%float && (x =? y)%float then (if get_sign x then x else y)
  else if (x <? y)%float then x
  else y.

End GoMath.

(** ** internal/models *)
Module IntentPattern.
Record t : Type := {
  Description : string;
  Keywords : list string;
  Phrases : list string;
  Regex : list string;
  Priority : Z;
  Variables : list string;
  Required : list string;
  Examples : list string;
  FollowUp : list string
}.
End IntentPattern.

Module EntityPattern.
Record t : Type := {
  Type_ : string;
  Description : string;
  Regex : list string;
  Keywords : list string;
  Examples : list string
}.
End EntityPattern.

Module models.

Record IntentConfig : Type := {
  Domain : string;
  Version : string;
  Intents : gmap string IntentPattern.t;
  Entities : gmap string EntityPattern.t;
  Synonyms : gmap string (list string);
  Confidence : gmap string float
}.

(** A value stored in [Intent.Vars], a [map[string]interface{}]: the engine
    stores extracted strings and the confidence score. *)
Inductive Value : Type :=
  | VString (s : string)
  | VFloat (f : float).

(** The result record.  The field [Confidence] of the Go struct is never
    written by the engine (the score travels in [Vars]) and is left out. *)
Record Intent : Type := {
  Task : string;
  Vars : gmap string Value;
  Missing : list string;
  FollowUp : list string;
  IsComplete : bool
}.

Definition GetDefaultConfig : IntentConfig :=
  {| Domain := "personal_assistant";
     Version := "1.0.0";
     Intents := list_to_map [
       ("CREATE_CONTACT",
        {| IntentPattern.Description := "Create a new contact";
           IntentPattern.Keywords := ["create"; "add"; "new"; "save"];
           IntentPattern.Phrases :=
             ["create contact"; "add contact"; "new contact"; "save contact"];
           IntentPattern.Regex := [];
           IntentPattern.Priority := 10;
           IntentPattern.Variables := ["name"; "email"; "phone"];
           IntentPattern.Required := [];
           IntentPattern.Examples :=
             ["create a new contact named bob";
              "add contact alice with email alice@example.com"];
           IntentPattern.FollowUp := [] |});
       ("FIND_CONTACT",
        {| IntentPattern.Description := "Find or search for a contact";
           IntentPattern.Keywords := ["find"; "search"; "look"; "get"];
           IntentPattern.Phrases :=
             ["find contact"; "search contact"; "look up contact"];
           IntentPattern.Regex := [];
           IntentPattern.Priority := 8;
           IntentPattern.Variables := ["name"];
           IntentPattern.Required := [];
           IntentPattern.Examples := ["find contact bob"; "search for alice"];
           IntentPattern.FollowUp := [] |})];
     Entities := list_to_map [
       ("name",
        {| EntityPattern.Type_ := "name";
           EntityPattern.Description := "Person's name";
           EntityPattern.Regex :=
             ["(?i)(?:named\s+|name\s+is\s+|call(?:ed)?\s+)([A-Z][a-z]+(?:\s+[A-Z][a-z]+)*)"];
           EntityPattern.Keywords := ["named"; "name"; "called"];
           EntityPattern.Examples := [] |});
       ("email",
        {| EntityPattern.Type_ := "email";
           EntityPattern.Description := "Email address";
           EntityPattern.Regex :=
             ["(?i)([a-zA-Z0-9._%+-]+@[a-zA-Z0-9.-]+\.[a-zA-Z]{2,})"];
           EntityPattern.Keywords := ["email"; "e-mail"; "mail"];
           EntityPattern.Examples := [] |});
       ("phone",
        {| EntityPattern.Type_ := "phone";
           EntityPattern.Description := "Phone number";
           EntityPattern.Regex :=
             ["(?i)(\+\d{1,3}[-.\s]?)?\(?\d{3}\)?[-.\s]?\d{3}[-.\s]?\d{4}"];
           EntityPattern.Keywords := ["phone"; "telephone"; "mobile"; "cell"];
           EntityPattern.Examples := [] |})];
     Synonyms := list_to_map [
       ("create", ["add"; "new"; "save"; "store"; "insert"]);
       ("find", ["search"; "look"; "locate"; "get"]);
       ("update", ["change"; "modify"; "edit"; "alter"]);
       ("delete", ["remove"; "drop"; "erase"; "clear"])];
     Confidence := list_to_map [
       ("CREATE_CONTACT", 0.7%float);
       ("FIND_CONTACT", 0.6%float);
       ("UPDATE_CONTACT", 0.6%float);
       ("DELETE_CONTACT", 0.6%float)]
  |}.

(** The body of the loop of Validate on one intent: the error it returns, if
    any. *)
Definition validateIntent (entry : string * IntentPattern.t) : option string :=
  let '(intentName, intent) := entry in
  if String.eqb (IntentPattern.Description intent) EmptyString
  then Some ("intent " ++ intentName ++ ": description is required")
  else if (List.length (IntentPattern.Keywords intent) =? 0)%nat
          && (List.length (IntentPattern.Phrases intent) =? 0)%nat
          && (List.length (IntentPattern.Regex intent) =? 0)%nat
  then Some ("intent " ++ intentName ++ ": must have at least keywords, phrases, or regex")
  else None.

Fixpoint validateIntents (order : list (string * IntentPattern.t)) : option string :=
  match order with
  | [] => None
  | entry :: rest =>
      match validateIntent entry with
      | Some err => Some err
      | None => validateIntents rest
      end
  end.

(** Validate of an IntentConfig: [None] is the nil error, [Some msg] the error
    with that message; [order] is the order in which the intents are ranged
    over. *)
Definition Validate (c : IntentConfig) (order : list (string * IntentPattern.t))
    : option string :=
  if String.eqb (Domain c) EmptyString then Some "domain is required"
  else if (size (Intents c) =? 0)%nat then Some "at least one intent must be defined"
  else validateIntents order.

(** LoadIntentConfig.  Reading the file and decoding its JSON are the
    argument [decode]: the decoded configuration of a path, [None] when either
    step fails.  [None] stands for the error return. *)
Definition LoadIntentConfig (decode : string -> option IntentConfig)
    (filepath : string) (order : list (string * IntentPattern.t))
    : option IntentConfig :=
  match decode filepath with
  | None => None
  | Some config =>
      match Validate config order with
      | Some _ => None
      | None => Some config
      end
  end.

(** NormalizeText *)
Definition NormalizeText (text : string) : string :=
  let normalized := GoStrings.ToLower (GoStrings.TrimSpace text) in
  GoStrings.Join (GoStrings.Fields normalized) " ".

End models.

(** ** internal/services: the enhanced local provider *)
Module services.
Import GoStrings GoMath models.

Record CompiledConfig : Type := {
  IntentRegexes : gmap string (list Regexp.t);
  EntityRegexes : gmap string (list Regexp.t);
  KeywordMap : gmap string (list string);
  PhraseMap : gmap string (list string);
  SynonymMap : gmap string string
}.

Record EnhancedLocalProvider : Type := {
  config : IntentConfig;
  compiled : CompiledConfig;
  configPath : string
}.

Record IntentResult : Type := {
  Intent_ : string;
  Confidence_ : float
}.

(** [m[k]] for a map of slices: nil when the key is absent. *)
Definition at_key {A : Type} (m : gmap string (list A)) (k : string) : list A :=
  default [] (m !! k).

(** *** compileConfig *)

Fixpoint compileAll (patterns : list string) : option (list Regexp.t) :=
  match patterns with
  | [] => Some []
  | pattern :: rest =>
      match Regexp.Compile pattern with
      | None => None
      | Some re =>
          match compileAll rest with
          | Some regexes => Some (re :: regexes)
          | None => None
          end
      end
  end.

Definition compileIntent (acc : option CompiledConfig)
    (entry : string * IntentPattern.t) : option CompiledConfig :=
  let '(intentName, intent) := entry in
  match acc with
  | None => None
  | Some c =>
      match compileAll (IntentPattern.Regex intent) with
      | None => None
      | Some regexes =>
          Some {| IntentRegexes := <[intentName := regexes]> (IntentRegexes c);
                  EntityRegexes := EntityRegexes c;
                  KeywordMap := <[intentName := IntentPattern.Keywords intent]> (KeywordMap c);
                  PhraseMap := <[intentName := IntentPattern.Phrases intent]> (PhraseMap c);
                  SynonymMap := SynonymMap c |}
      end
  end.

Definition compileEntity (acc : option CompiledConfig)
    (entry : string * EntityPattern.t) : option CompiledConfig :=
  let '(entityName, entity) := entry in
  match acc with
  | None => None
  | Some c =>
      match compileAll (EntityPattern.Regex entity) with
      | None => None
      | Some regexes =>
          Some {| IntentRegexes := IntentRegexes c;
                  EntityRegexes := <[entityName := regexes]> (EntityRegexes c);
                  KeywordMap := KeywordMap c;
                  PhraseMap := PhraseMap c;
                  SynonymMap := SynonymMap c |}
      end
  end.

Definition compileSynonyms (c : CompiledConfig)
    (entry : string * list string) : CompiledConfig :=
  let '(word, synonyms) := entry in
  {| IntentRegexes := IntentRegexes c;
     EntityRegexes := EntityRegexes c;
     KeywordMap := KeywordMap c;
     PhraseMap := PhraseMap c;
     SynonymMap :=
       fold_left (fun m synonym => <[synonym := word]> m) synonyms (SynonymMap c) |}.

(** [None] stands for the error return.  The three arguments after the
    configuration are the orders in which its three maps are ranged over. *)
Definition compileConfig (cfg : IntentConfig)
    (intents : list (string * IntentPattern.t))
    (entities : list (string * EntityPattern.t))
    (synonyms : list (string * list string)) : option CompiledConfig :=
  let c0 := {| IntentRegexes := ∅; EntityRegexes := ∅; KeywordMap := ∅;
               PhraseMap := ∅; SynonymMap := ∅ |} in
  match fold_left compileEntity entities (fold_left compileIntent intents (Some c0)) with
  | None => None
  | Some c => Some (fold_left compileSynonyms synonyms c)
  end.

(** NewEnhancedLocalProvider with an empty path: the built-in configuration,
    compiled; its maps are ranged over in the order of [map_to_list] (no
    synonym of the built-in table stands under two words, so the order does
    not show in the result). *)
Definition NewDefaultProvider : option EnhancedLocalProvider :=
  let cfg := GetDefaultConfig in
  match compileConfig cfg (map_to_list (Intents cfg)) (map_to_list (Entities cfg))
          (map_to_list (Synonyms cfg)) with
  | Some c => Some {| config := cfg; compiled := c; configPath := EmptyString |}
  | None => None
  end.

(** NewEnhancedLocalProvider.  With a path the configuration is loaded from
    the file and validated, without one it is the built-in configuration; then
    it is compiled.  [ov] is the order of the loop of Validate, [oi oe os]
    those of compileConfig; the lines the function prints are not modelled. *)
Definition NewEnhancedLocalProvider (decode : string -> option IntentConfig)
    (path : string)
    (ov oi : list (string * IntentPattern.t))
    (oe : list (string * EntityPattern.t))
    (os : list (string * list string)) : option EnhancedLocalProvider :=
  let loaded :=
    if negb (String.eqb path EmptyString) then LoadIntentConfig decode path ov
    else Some GetDefaultConfig in
  match loaded with
  | None => None
  | Some cfg =>
      match compileConfig cfg oi oe os with
      | None => None
      | Some c => Some {| config := cfg; compiled := c; configPath := path |}
      end
  end.

(** *** Text normalisation and tokens *)

Definition normalizeText (text : string) : string :=
  let normalized := ToLower text in
  let normalized := Join (Fields normalized) " " in
  let normalized :=
    Map (fun r =>
           if IsPunct r && negb (Ascii.eqb r "@") && negb (Ascii.eqb r ".")
              && negb (Ascii.eqb r "_") && negb (Ascii.eqb r "-")
           then " "%char else r) normalized in
  Join (Fields normalized) " ".

Definition stopWords : list string :=
  ["the"; "a"; "an"; "and"; "or"; "but";
   "in"; "on"; "at"; "to"; "for"; "of";
   "with"; "by"; "from"; "up"; "about";
   "into"; "through"; "during"; "before"; "after";
   "above"; "below"; "between"; "among";
   "is"; "are"; "was"; "were"; "be"; "been";
   "have"; "has"; "had"; "do"; "does"; "did";
   "will"; "would"; "could"; "should"; "may"; "might"].

Definition isStopWord (word : string) : bool :=
  existsb (String.eqb word) stopWords.

Definition tokenize (text : string) : list string :=
  List.filter (fun word => negb (isStopWord word)) (Fields (ToLower text)).

Definition getSynonyms (p : EnhancedLocalProvider) (word : string) : list string :=
  match Synonyms (config p) !! word with
  | Some synonyms => synonyms
  | None => []
  end.

Definition getIntentWords (intent : IntentPattern.t) : list string :=
  IntentPattern.Keywords intent
  ++ List.flat_map (fun phrase => Fields (ToLower phrase)) (IntentPattern.Phrases intent).

Definition calculateWordOverlap (textWords intentWords : list string) : float :=
  if (List.length intentWords =? 0)%nat then 0%float
  else
    let textSet (word : string) := existsb (String.eqb word) textWords in
    let overlap := List.length (List.filter textSet intentWords) in
    (float_of_nat overlap / float_of_nat (List.length intentWords))%float.

(** *** Scoring *)

(** The loop over the synonyms of a keyword: the first synonym found in the
    text adds 0.3 and ends the loop. *)
Fixpoint synonymLoop (textLower : string) (synonyms : list string)
    (st : float * nat) : float * nat :=
  match synonyms with
  | [] => st
  | synonym :: rest =>
      if Contains textLower (ToLower synonym)
      then ((fst st + 0.3)%float, S (snd st))
      else synonymLoop textLower rest st
  end.

(** The loop over the keywords, on the pair (keywordScore, matchedKeywords). *)
Fixpoint keywordLoop (p : EnhancedLocalProvider) (textLower : string)
    (keywords : list string) (st : float * nat) : float * nat :=
  match keywords with
  | [] => st
  | keyword :: rest =>
      let st' :=
        if Contains textLower (ToLower keyword)
        then ((fst st + 0.4)%float, S (snd st))
        else synonymLoop textLower (getSynonyms p keyword) st in
      keywordLoop p textLower rest st'
  end.

(** Step 3 of calculateIntentScore: the keyword score after normalisation. *)
Definition keywordSignal (p : EnhancedLocalProvider) (textLower : string)
    (keywords : list string) : float :=
  let '(keywordScore, _) := keywordLoop p textLower keywords (0%float, O) in
  if (0 <? List.length keywords)%nat
  then (keywordScore / float_of_nat (List.length keywords))%float
  else keywordScore.

(** Steps 1 to 4 of calculateIntentScore. *)
Definition signalScore (p : EnhancedLocalProvider) (text intentName : string)
    (intent : IntentPattern.t) : float :=
  let score := 0%float in
  let score :=
    if existsb (fun re => Regexp.MatchString re text)
         (at_key (IntentRegexes (compiled p)) intentName)
    then (score + 0.8)%float else score in
  let textLower := ToLower text in
  let score :=
    if existsb (fun phrase => Contains textLower (ToLower phrase))
         (at_key (PhraseMap (compiled p)) intentName)
    then (score + 0.6)%float else score in
  let keywords := at_key (KeywordMap (compiled p)) intentName in
  let score := (score + keywordSignal p textLower keywords)%float in
  let textWords := tokenize text in
  let intentWords := getIntentWords intent in
  let overlap := calculateWordOverlap textWords intentWords in
  (score + overlap * 0.2)%float.

Definition calculateIntentScore (p : EnhancedLocalProvider)
    (text intentName : string) (intent : IntentPattern.t) : float :=
  let score := signalScore p text intentName intent in
  if (20 <? String.length text)%nat then (score + 0.1)%float else score.

(** The score of an intent after the priority boost. *)
Definition boostedScore (p : EnhancedLocalProvider) (text : string)
    (entry : string * IntentPattern.t) : float :=
  let score := calculateIntentScore p text (fst entry) (snd entry) in
  let priorityBoost := (float_of_Z (IntentPattern.Priority (snd entry)) * 0.1)%float in
  (score + priorityBoost)%float.

(** One turn of the loop of classifyIntent on (bestIntent, bestScore). *)
Definition classifyStep (p : EnhancedLocalProvider) (text : string)
    (best : string * float) (entry : string * IntentPattern.t) : string * float :=
  let score := boostedScore p text entry in
  if (snd best <? score)%float then (fst entry, score) else best.

Definition bestOf (p : EnhancedLocalProvider) (text : string)
    (order : list (string * IntentPattern.t)) : string * float :=
  fold_left (classifyStep p text) order ("UNKNOWN", 0%float).

Definition thresholdOf (p : EnhancedLocalProvider) (bestIntent : string) : float :=
  let threshold := default 0%float (Confidence (config p) !! bestIntent) in
  if (threshold =? 0)%float then 0.5%float else threshold.

(** classifyIntent; [order] is the order in which the intents are ranged over. *)
Definition classifyIntent (p : EnhancedLocalProvider)
    (order : list (string * IntentPattern.t)) (text : string) : IntentResult :=
  let '(bestIntent, bestScore) := bestOf p text order in
  let threshold := thresholdOf p bestIntent in
  let '(bestIntent, bestScore) :=
    if (bestScore <? threshold)%float then ("UNKNOWN", 0%float)
    else (bestIntent, bestScore) in
  {| Intent_ := bestIntent; Confidence_ := Min bestScore 1%float |}.

(** *** Entity extraction *)

Definition trimmed (word : string) : string := Trim word ".,!?;:".

(** [unicode.IsUpper(rune(word[0]))], false on the empty word. *)
Definition first_is_upper (word : string) : bool :=
  match word with
  | String c _ => IsUpperRuneOfByte c
  | EmptyString => false
  end.

Definition one_of (word : string) (options : list string) : bool :=
  existsb (String.eqb word) options.

Definition quote : string := String "034" EmptyString.

(** The pattern of a double-quoted span: a quote, a group of one or more
    bytes other than a quote, a quote. *)
Definition quotePattern : Regexp.t :=
  Regexp.MustCompile (quote ++ "([^" ++ quote ++ "]+)" ++ quote).

(** The loop of the "name" case; [words] is the slice from index [i] on. *)
Fixpoint nameLoop (words : list string) : string :=
  match words with
  | [] => EmptyString
  | word :: rest =>
      let wordLower := ToLower word in
      if one_of wordLower ["named"; "name"; "contact"; "person"] then
        match rest with
        | next :: rest2 =>
            let nextWord := trimmed next in
            if (0 <? String.length nextWord)%nat && first_is_upper nextWord
               && negb (isStopWord (ToLower nextWord))
            then
              match rest2 with
              | nextNext :: _ =>
                  if String.eqb (ToLower nextNext) "with" then nextWord
                  else if one_of (ToLower nextNext) ["with"; "email"; "phone"]
                  then nextWord
                  else nextWord
              | [] => nextWord
              end
            else nameLoop rest
        | [] => nameLoop rest
        end
      else nameLoop rest
  end.

Fixpoint emailLoop (words : list string) : string :=
  match words with
  | [] => EmptyString
  | word :: rest =>
      if one_of (ToLower word) ["email"; "e-mail"; "mail"] then
        match rest with
        | next :: _ =>
            let nextWord := trimmed next in
            if Contains nextWord "@" && Contains nextWord "." then nextWord
            else emailLoop rest
        | [] => emailLoop rest
        end
      else emailLoop rest
  end.

Fixpoint phoneLoop (words : list string) : string :=
  match words with
  | [] => EmptyString
  | word :: rest =>
      if one_of (ToLower word) ["phone"; "mobile"; "cell"] then
        match rest with
        | next :: _ =>
            let nextWord := trimmed next in
            if ContainsAny nextWord "0123456789"
               && (Contains nextWord "-" || Contains nextWord "("
                   || (10 <=? String.length nextWord)%nat)
            then nextWord
            else phoneLoop rest
        | [] => phoneLoop rest
        end
      else phoneLoop rest
  end.

Fixpoint dateLoop (words : list string) : string :=
  match words with
  | [] => EmptyString
  | word :: rest =>
      let wordLower := ToLower (trimmed word) in
      if one_of wordLower ["today"; "tomorrow"; "yesterday"] then wordLower
      else dateLoop rest
  end.

Fixpoint timeLoop (words : list string) : string :=
  match words with
  | [] => EmptyString
  | word :: rest =>
      if String.eqb (ToLower word) "at" then
        match rest with
        | next :: _ =>
            let nextWord := trimmed next in
            if ContainsAny nextWord "0123456789"
               && (Contains nextWord ":" || Contains (ToLower nextWord) "am"
                   || Contains (ToLower nextWord) "pm")
            then nextWord
            else timeLoop rest
        | [] => timeLoop rest
        end
      else timeLoop rest
  end.

Fixpoint locationLoop (words : list string) : string :=
  match words with
  | [] => EmptyString
  | word :: rest =>
      if one_of (ToLower word) ["in"; "at"] then
        match rest with
        | next :: _ =>
            let nextWord := trimmed next in
            if (0 <? String.length nextWord)%nat && first_is_upper nextWord
               && negb (isStopWord (ToLower nextWord))
            then nextWord
            else locationLoop rest
        | [] => locationLoop rest
        end
      else locationLoop rest
  end.

(** The inner loop of the "title" case, from index [j] on: empty words are
    skipped, a stop word or an indicator ends the title. *)
Fixpoint collectTitle (words : list string) (titleWords : list string)
    : list string :=
  match words with
  | [] => titleWords
  | next :: rest =>
      let nextWord := trimmed next in
      if (String.length nextWord =? 0)%nat then collectTitle rest titleWords
      else
        let nextWordLower := ToLower nextWord in
        if isStopWord nextWordLower
           || one_of nextWordLower
                ["tomorrow"; "today"; "yesterday"; "at"; "with"; "email";
                 "phone"; "on"; "in"; "to"]
        then titleWords
        else collectTitle rest (titleWords ++ [nextWord])
  end.

Fixpoint titleLoop (words : list string) : string :=
  match words with
  | [] => EmptyString
  | word :: rest =>
      if one_of (ToLower word) ["called"; "titled"; "named"; "for"] then
        let titleWords := collectTitle rest [] in
        if (0 <? List.length titleWords)%nat then Join titleWords " "
        else titleLoop rest
      else titleLoop rest
  end.

(** The quoted span tried first by the "name" and "title" cases. *)
Definition quotedSpan (text : string) : option string :=
  let matches := Regexp.FindStringSubmatch quotePattern text in
  if (1 <? List.length matches)%nat then Some (nth 1 matches EmptyString) else None.

Definition extractEntityByKeywords (p : EnhancedLocalProvider)
    (text entityName : string) (entity : EntityPattern.t) : string :=
  let words := Fields text in
  if String.eqb entityName "name" then
    match quotedSpan text with
    | Some m => m
    | None => nameLoop words
    end
  else if String.eqb entityName "email" then emailLoop words
  else if String.eqb entityName "phone" then phoneLoop words
  else if String.eqb entityName "date" then dateLoop words
  else if String.eqb entityName "time" then timeLoop words
  else if String.eqb entityName "location" then locationLoop words
  else if String.eqb entityName "title" then
    match quotedSpan text with
    | Some m => m
    | None => titleLoop words
    end
  else EmptyString.

(** The loop over the compiled patterns of an entity: the first pattern that
    matches stores its first group and ends the loop. *)
Fixpoint regexLoop (regexes : list Regexp.t) (text entityName : string)
    (entities : gmap string string) : gmap string string :=
  match regexes with
  | [] => entities
  | re :: rest =>
      let matches := Regexp.FindStringSubmatch re text in
      if (1 <? List.length matches)%nat
      then <[entityName := nth 1 matches EmptyString]> entities
      else regexLoop rest text entityName entities
  end.

(** The body shared by the three loops of extractEntities. *)
Definition extractOne (p : EnhancedLocalProvider) (text : string)
    (entities : gmap string string) (entry : string * EntityPattern.t)
    : gmap string string :=
  let '(entityName, entity) := entry in
  let entities :=
    regexLoop (at_key (EntityRegexes (compiled p)) entityName) text entityName entities in
  if String.eqb (default EmptyString (entities !! entityName)) EmptyString then
    let value := extractEntityByKeywords p text entityName entity in
    if negb (String.eqb value EmptyString) then <[entityName := value]> entities
    else entities
  else entities.

(** extractEntities; the three orders are those of its three loops over the
    entity map. *)
Definition extractEntities (p : EnhancedLocalProvider)
    (o1 o2 o3 : list (string * EntityPattern.t)) (text : string)
    : gmap string string :=
  let entities : gmap string string := ∅ in
  let entities :=
    fold_left (fun ents entry =>
                 if String.eqb (fst entry) "name" then extractOne p text ents entry
                 else ents) o1 entities in
  let entities :=
    fold_left (fun ents entry =>
                 if String.eqb (fst entry) "title" then extractOne p text ents entry
                 else ents) o2 entities in
  fold_left (fun ents entry =>
               if String.eqb (fst entry) "name" || String.eqb (fst entry) "title"
               then ents
               else extractOne p text ents entry) o3 entities.

(** *** Completion *)

Fixpoint camelWords (i : nat) (intentName : string) : string :=
  match intentName with
  | EmptyString => EmptyString
  | String char rest =>
      let sep := if (0 <? i)%nat && IsUpper char then " " else EmptyString in
      sep ++ String (ToLowerByte char) (camelWords (S i) rest)
  end.

Definition getIntentDisplayName (intentName : string) : string :=
  if String.eqb intentName "CreateEvent" then "event"
  else if String.eqb intentName "CreateTask" then "task"
  else if String.eqb intentName "CreateContact" then "contact"
  else if String.eqb intentName "CreateNote" then "note"
  else if String.eqb intentName "Weather" then "weather"
  else if String.eqb intentName "Time" then "time"
  else if String.eqb intentName "Calculator" then "calculation"
  else camelWords 0 intentName.

(** The switch on the field of generateFollowUpQuestion. *)
Definition defaultQuestion (intentName field : string) : string :=
  let intentDisplayName := getIntentDisplayName intentName in
  if String.eqb field "title" then "What should I call this " ++ intentDisplayName ++ "?"
  else if String.eqb field "name" then "What's the name?"
  else if String.eqb field "email" then "What's the email address?"
  else if String.eqb field "phone" then "What's the phone number?"
  else if String.eqb field "date" then
    "When should this " ++ intentDisplayName ++ " be scheduled?"
  else if String.eqb field "time" then
    "What time should this " ++ intentDisplayName ++ " be?"
  else if String.eqb field "duration" then
    "How long should this " ++ intentDisplayName ++ " last?"
  else if String.eqb field "location" then
    "Where should this " ++ intentDisplayName ++ " take place?"
  else if String.eqb field "description" then
    "Can you provide more details about this " ++ intentDisplayName ++ "?"
  else if String.eqb field "priority" then
    "What priority should this " ++ intentDisplayName ++ " have?"
  else "What " ++ field ++ " should I use for this " ++ intentDisplayName ++ "?".

(** The first custom question that contains the field name, if any. *)
Fixpoint customQuestion (field : string) (customFollowUp : list string)
    : option string :=
  match customFollowUp with
  | [] => None
  | question :: rest =>
      if Contains (ToLower question) (ToLower field) then Some question
      else customQuestion field rest
  end.

Definition generateFollowUpQuestion (intentName field : string)
    (customFollowUp : list string) : string :=
  match customQuestion field customFollowUp with
  | Some question => question
  | None => defaultQuestion intentName field
  end.

(** [!exists || value == ""] on an entry of [Vars]. *)
Definition isMissing (vars : gmap string Value) (requiredField : string) : bool :=
  match vars !! requiredField with
  | None => true
  | Some (VString s) => String.eqb s EmptyString
  | Some (VFloat _) => false
  end.

Definition addMissingFieldsAndFollowUp (p : EnhancedLocalProvider)
    (intent : Intent) (intentName : string) : Intent :=
  match Intents (config p) !! intentName with
  | None => intent
  | Some intentPattern =>
      let missing :=
        List.filter (isMissing (Vars intent)) (IntentPattern.Required intentPattern) in
      let followUp :=
        List.filter (fun question => negb (String.eqb question EmptyString))
          (List.map (fun field =>
                       generateFollowUpQuestion intentName field
                         (IntentPattern.FollowUp intentPattern)) missing) in
      {| Task := Task intent;
         Vars := Vars intent;
         Missing := missing;
         FollowUp := followUp;
         IsComplete := (List.length missing =? 0)%nat |}
  end.

(** *** ExtractIntent

    [oi] is the order of the loop of classifyIntent over the intents,
    [o1 o2 o3] those of the loops of extractEntities over the entities. *)
Definition ExtractIntent (p : EnhancedLocalProvider)
    (oi : list (string * IntentPattern.t))
    (o1 o2 o3 : list (string * EntityPattern.t)) (text : string) : Intent :=
  let normalizedText := normalizeText text in
  let intentResult := classifyIntent p oi normalizedText in
  let entities := extractEntities p o1 o2 o3 text in
  let vars : gmap string Value := VString <$> entities in
  let vars := <["confidence" := VFloat (Confidence_ intentResult)]> vars in
  let result :=
    {| Task := Intent_ intentResult; Vars := vars; Missing := [];
       FollowUp := []; IsComplete := false |} in
  if negb (String.eqb (Intent_ intentResult) "UNKNOWN")
  then addMissingFieldsAndFollowUp p result (Intent_ intentResult)
  else result.

(** *** Name, IsAvailable, GetConfig *)

Definition Name (p : EnhancedLocalProvider) : string :=
  if negb (String.eqb (configPath p) EmptyString)
  then "Enhanced Local AI (" ++ Domain (config p) ++ ")"
  else "Enhanced Local AI (Default)".

Definition IsAvailable (p : EnhancedLocalProvider) : bool := true.

Definition GetConfig (p : EnhancedLocalProvider) : IntentConfig := config p.

End services.

(** ** internal/services: the intent service over the enhanced provider

    IntentService.ExtractIntent in the version that hands every text to its
    provider: the text is normalised by models.NormalizeText first. *)
Module IntentService.
Import GoStrings models services.

Definition ExtractIntent (aiProvider : EnhancedLocalProvider)
    (oi : list (string * IntentPattern.t))
    (o1 o2 o3 : list (string * EntityPattern.t)) (text : string) : Intent :=
  let normalizedText := NormalizeText text in
  services.ExtractIntent aiProvider oi o1 o2 o3 normalizedText.

End IntentService.

(** ** Definitions used to state the properties *)
Module Spec.
Import GoStrings GoMath models services.

(** *** The keyword signal in the words of the specification *)

(** The increment a keyword brings to the raw sum, following the words of the
    specification: 0.4 when the keyword occurs in the lower-cased text, else
    0.3 when one of its synonyms does, else nothing. *)
Definition keywordIncrement (p : EnhancedLocalProvider) (textLower keyword : string)
    : option float :=
  if Contains textLower (ToLower keyword) then Some 0.4%float
  else if existsb (fun synonym => Contains textLower (ToLower synonym))
            (getSynonyms p keyword)
  then Some 0.3%float
  else None.

(** The raw sum: the increments of the keywords, added up in list order. *)
Definition rawKeywordSum (p : EnhancedLocalProvider) (textLower : string)
    (keywords : list string) : float :=
  fold_left (fun acc x => (acc + x)%float)
    (omap (keywordIncrement p textLower) keywords) 0%float.

(** *** Quoted spans and the regex strategy *)

(** No byte of [s] is a double quote. *)
Fixpoint quote_free (s : string) : bool :=
  match s with
  | EmptyString => true
  | String c s' => negb (Ascii.eqb c "034") && quote_free s'
  end.

(** The syntax tree of the pattern of [quotePattern]. *)
Definition quoteTree : Regexp.re :=
  let q := [("034", "034")]%char in
  Regexp.Cat (Regexp.Chars false false q)
    (Regexp.Cat
       (Regexp.Group 1
          (Regexp.Cat (Regexp.Chars false true q) (Regexp.Star (Regexp.Chars false true q))))
       (Regexp.Chars false false q)).

(** No pattern of the list captures a non-empty first group in the text. *)
Definition no_first_group (regexes : list Regexp.t) (text : string) : bool :=
  forallb (fun re =>
             String.eqb (nth 1 (Regexp.FindStringSubmatch re text) EmptyString)
               EmptyString) regexes.

(** What the regex loop of an entity stores, if anything: the first group of
    the first pattern that matches. *)
Fixpoint regexValue (regexes : list Regexp.t) (text : string) : option string :=
  match regexes with
  | [] => None
  | re :: rest =>
      let matches := Regexp.FindStringSubmatch re text in
      if (1 <? List.length matches)%nat then Some (nth 1 matches EmptyString)
      else regexValue rest text
  end.

(** The value the body of the loops of extractEntities leaves under the name
    of the entity, given the value [old] found there. *)
Definition entityValue (p : EnhancedLocalProvider) (text entityName : string)
    (entity : EntityPattern.t) (old : option string) : option string :=
  let stored :=
    match regexValue (at_key (EntityRegexes (compiled p)) entityName) text with
    | Some v => Some v
    | None => old
    end in
  if String.eqb (default EmptyString stored) EmptyString then
    let value := extractEntityByKeywords p text entityName entity in
    if negb (String.eqb value EmptyString) then Some value else stored
  else stored.

(** One loop of extractEntities over the entity map: the entries whose name
    satisfies [cond] are processed. *)
Definition pass (cond : string -> bool) (p : EnhancedLocalProvider) (text : string)
    (order : list (string * EntityPattern.t)) (entities : gmap string string)
    : gmap string string :=
  fold_left (fun ents entry =>
               if cond (fst entry) then extractOne p text ents entry else ents)
    order entities.

(** *** Providers for the examples *)

(** A provider over the built-in configuration with nothing compiled: enough
    for the functions that read the configuration only. *)
Definition uncompiledDefault : EnhancedLocalProvider :=
  {| config := GetDefaultConfig;
     compiled := {| IntentRegexes := ∅; EntityRegexes := ∅; KeywordMap := ∅;
                    PhraseMap := ∅; SynonymMap := ∅ |};
     configPath := EmptyString |}.

(** The built-in provider as a value; its patterns do compile (lemma
    [NewDefaultProvider_ok] below), so the second branch is never taken. *)
Definition defaultProvider : EnhancedLocalProvider :=
  match NewDefaultProvider with
  | Some p => p
  | None => uncompiledDefault
  end.

Definition simpleIntent (keywords : list string) (priority : Z)
    (required followUp : list string) : IntentPattern.t :=
  {| IntentPattern.Description := "sample";
     IntentPattern.Keywords := keywords;
     IntentPattern.Phrases := [];
     IntentPattern.Regex := [];
     IntentPattern.Priority := priority;
     IntentPattern.Variables := required;
     IntentPattern.Required := required;
     IntentPattern.Examples := [];
     IntentPattern.FollowUp := followUp |}.

(** A provider for a configuration whose intents have no regular
    expressions and that has no entities, synonyms or thresholds: the compiled
    maps hold the keyword and phrase lists as they are. *)
Definition simpleProvider (intents : list (string * IntentPattern.t))
    : EnhancedLocalProvider :=
  {| config := {| Domain := "sample"; Version := "1.0.0";
                  Intents := list_to_map intents; Entities := ∅;
                  Synonyms := ∅; Confidence := ∅ |};
     compiled :=
       {| IntentRegexes := list_to_map (List.map (fun e => (fst e, [])) intents);
          EntityRegexes := ∅;
          KeywordMap :=
            list_to_map (List.map (fun e => (fst e, IntentPattern.Keywords (snd e))) intents);
          PhraseMap :=
            list_to_map (List.map (fun e => (fst e, IntentPattern.Phrases (snd e))) intents);
          SynonymMap := ∅ |};
     configPath := "sample.json" |}.

(** The definition of an intent or an entity of a provider, for a name that
    is configured. *)
Definition intentOf (p : EnhancedLocalProvider) (name : string) : IntentPattern.t :=
  default (simpleIntent [] 0 [] []) (Intents (config p) !! name).

Definition entityOf (p : EnhancedLocalProvider) (name : string) : EntityPattern.t :=
  default {| EntityPattern.Type_ := EmptyString;
             EntityPattern.Description := EmptyString;
             EntityPattern.Regex := []; EntityPattern.Keywords := [];
             EntityPattern.Examples := [] |}
    (Entities (config p) !! name).

(** One intent of priority 0. *)
Definition greetProvider : EnhancedLocalProvider :=
  simpleProvider [("GREET", simpleIntent ["hello"; "hi"] 0 [] [])].

(** Two intents with the same keywords and the same priority. *)
Definition tieProvider : EnhancedLocalProvider :=
  simpleProvider [("A", simpleIntent ["x"] 10 [] []); ("B", simpleIntent ["x"] 10 [] [])].

(** An intent whose required field and custom question are empty strings. *)
Definition blankFieldProvider : EnhancedLocalProvider :=
  simpleProvider [("X", simpleIntent ["x"] 10 [EmptyString] [EmptyString])].

(** An intent with three required fields and one custom question. *)
Definition noteProvider : EnhancedLocalProvider :=
  simpleProvider
    [("CreateNote",
      simpleIntent ["note"] 10 ["title"; "email"; "mood"] ["What is their EMAIL?"])].

(** *** Bytes and words *)

(** Every byte of [s] satisfies [P]. *)
Fixpoint all_bytes (P : ascii -> bool) (s : string) : bool :=
  match s with
  | EmptyString => true
  | String c s' => P c && all_bytes P s'
  end.

(** A word: not empty and without a space. *)
Definition is_word (w : string) : bool :=
  negb (String.eqb w EmptyString) && all_bytes (fun c => negb (IsSpace c)) w.

(** The function normalizeText maps over the text: punctuation other than
    [@ . _ -] becomes a space. *)
Definition punctToSpace (r : ascii) : ascii :=
  if IsPunct r && negb (Ascii.eqb r "@") && negb (Ascii.eqb r ".")
     && negb (Ascii.eqb r "_") && negb (Ascii.eqb r "-")
  then " "%char else r.

(** The bytes normalizeText leaves: no upper-case letter, no space other than
    the blank, no punctuation other than [@ . _ -]. *)
Definition normal_byte (c : ascii) : bool :=
  negb (IsUpper c)
  && (negb (IsSpace c) || Ascii.eqb c " ")
  && (negb (IsPunct c) || byte_in c "@._-").

(** A byte of ASCII text. *)
Definition is_ascii (c : ascii) : bool := (code c <? 128)%N.

(** *** The word-anchored extractors in one loop *)

(** The loop the cases "name", "email", "phone", "time" and "location" of
    extractEntityByKeywords share: the word after the first anchor word whose
    trimmed successor is accepted. *)
Fixpoint anchorLoop (anchors : list string) (accept : string -> bool)
    (words : list string) : string :=
  match words with
  | [] => EmptyString
  | word :: rest =>
      if one_of (ToLower word) anchors then
        match rest with
        | next :: _ =>
            if accept (trimmed next) then trimmed next
            else anchorLoop anchors accept rest
        | [] => anchorLoop anchors accept rest
        end
      else anchorLoop anchors accept rest
  end.

Definition looksLikeName (w : string) : bool :=
  (0 <? String.length w)%nat && first_is_upper w && negb (isStopWord (ToLower w)).

Definition looksLikeEmail (w : string) : bool := Contains w "@" && Contains w ".".

Definition looksLikePhone (w : string) : bool :=
  ContainsAny w "0123456789"
  && (Contains w "-" || Contains w "(" || (10 <=? String.length w)%nat).

Definition looksLikeTime (w : string) : bool :=
  ContainsAny w "0123456789"
  && (Contains w ":" || Contains (ToLower w) "am" || Contains (ToLower w) "pm").

(** [v] is the trimmed word after an anchor word of [words], it is accepted,
    and no earlier anchor word is followed by an accepted word. *)
Definition first_anchored (anchors : list string) (accept : string -> bool)
    (words : list string) (v : string) : Prop :=
  exists before anchor next after,
    words = (before ++ anchor :: next :: after)%list
    /\ one_of (ToLower anchor) anchors = true
    /\ v = trimmed next
    /\ accept v = true
    /\ forall b a n r,
         (before ++ [anchor])%list = (b ++ a :: n :: r)%list ->
         one_of (ToLower a) anchors = true -> accept (trimmed n) = false.

(** The words that end a title. *)
Definition titleEnd (w : string) : bool :=
  isStopWord (ToLower w)
  || one_of (ToLower w)
       ["tomorrow"; "today"; "yesterday"; "at"; "with"; "email"; "phone"; "on"; "in"; "to"].

(** The words the "date" case looks for. *)
Definition isDateWord (w : string) : bool :=
  one_of (ToLower (trimmed w)) ["today"; "tomorrow"; "yesterday"].

(** The bytes of a name, lower-cased and spaced out. *)
Definition spelledOut (name : string) : string :=
  Join (List.map (fun c => String (ToLowerByte c) EmptyString) (list_ascii_of_string name)) " ".

(** A provider with another reverse index of the synonyms. *)
Definition withSynonymMap (p : EnhancedLocalProvider) (m : gmap string string)
    : EnhancedLocalProvider :=
  {| config := config p;
     compiled := {| IntentRegexes := IntentRegexes (compiled p);
                    EntityRegexes := EntityRegexes (compiled p);
                    KeywordMap := KeywordMap (compiled p);
                    PhraseMap := PhraseMap (compiled p);
                    SynonymMap := m |};
     configPath := configPath p |}.

(** *** The score of an intent of four keywords, twelve words, no regular
    expression and priority 10, as a function of what the text matched *)

(** What a keyword matched: itself, one of its synonyms, or nothing. *)
Inductive KeywordMatch : Type := MatchedKeyword | MatchedSynonym | Unmatched.

Definition incrementOf (m : KeywordMatch) : option float :=
  match m with
  | MatchedKeyword => Some 0.4%float
  | MatchedSynonym => Some 0.3%float
  | Unmatched => None
  end.

Definition keywordMatch (p : EnhancedLocalProvider) (textLower keyword : string)
    : KeywordMatch :=
  if Contains textLower (ToLower keyword) then MatchedKeyword
  else if existsb (fun synonym => Contains textLower (ToLower synonym))
            (getSynonyms p keyword)
  then MatchedSynonym
  else Unmatched.

(** The boosted score, following calculateIntentScore step by step. *)
Definition scoreOfMatches (phrase : bool) (matches : list KeywordMatch)
    (overlap : nat) (long : bool) : float :=
  let score := 0%float in
  let score := if phrase then (score + 0.6)%float else score in
  let keywordScore :=
    fold_left (fun acc x => (acc + x)%float) (omap incrementOf matches) 0%float in
  let score := (score + keywordScore / float_of_nat 4)%float in
  let score := (score + float_of_nat overlap / float_of_nat 12 * 0.2)%float in
  let score := if long then (score + 0.1)%float else score in
  (score + float_of_Z 10 * 0.1)%float.

(** Every such score is at least 1 (and is a number): all the cases. *)
Definition scoreOk (phrase : bool) (m1 m2 m3 m4 : KeywordMatch) (overlap : nat)
    (long : bool) : bool :=
  negb (scoreOfMatches phrase [m1; m2; m3; m4] overlap long <? 1)%float
  && (scoreOfMatches phrase [m1; m2; m3; m4] overlap long
      =? scoreOfMatches phrase [m1; m2; m3; m4] overlap long)%float.

Definition eachMatch : list KeywordMatch := [MatchedKeyword; MatchedSynonym; Unmatched].

(** *** More configurations for the examples *)

(** An intent without keywords, phrases and regular expressions. *)
Definition emptyIntentConfig : IntentConfig :=
  config (simpleProvider [("X", simpleIntent [] 0 [] [])]).

(** An entity whose regular expression lacks its closing parenthesis. *)
Definition brokenPatternConfig : IntentConfig :=
  {| Domain := "sample"; Version := "1.0.0";
     Intents := {[ "X" := simpleIntent ["x"] 0 [] [] ]};
     Entities :=
       {[ "code" := {| EntityPattern.Type_ := "code";
                       EntityPattern.Description := "a code";
                       EntityPattern.Regex := ["([0-9]+"];
                       EntityPattern.Keywords := [];
                       EntityPattern.Examples := [] |} ]};
     Synonyms := ∅; Confidence := ∅ |}.

(** An entity definition that says nothing. *)
Definition bareEntity : EntityPattern.t :=
  {| EntityPattern.Type_ := EmptyString; EntityPattern.Description := EmptyString;
     EntityPattern.Regex := []; EntityPattern.Keywords := [];
     EntityPattern.Examples := [] |}.

(** The entries of an entity map with the definitions blanked. *)
Definition blankEntities (order : list (string * EntityPattern.t))
    : list (string * EntityPattern.t) :=
  List.map (fun entry => (fst entry, bareEntity)) order.

(** The note-taking provider with the entities "name" and "title", both
    without regular expressions. *)
Definition titledNoteProvider : EnhancedLocalProvider :=
  {| config := {| Domain := "sample"; Version := "1.0.0";
                  Intents := Intents (config noteProvider);
                  Entities := {[ "name" := bareEntity; "title" := bareEntity ]};
                  Synonyms := ∅; Confidence := ∅ |};
     compiled := {| IntentRegexes := IntentRegexes (compiled noteProvider);
                    EntityRegexes := {[ "name" := []; "title" := [] ]};
                    KeywordMap := KeywordMap (compiled noteProvider);
                    PhraseMap := PhraseMap (compiled noteProvider);
                    SynonymMap := ∅ |};
     configPath := "sample.json" |}.

(** A help-desk configuration: one intent, and the entity "ticket", whose
    value is the number after a hash sign. *)
Definition ticketConfig : IntentConfig :=
  {| Domain := "help_desk"; Version := "1.0.0";
     Intents := {[ "OPEN_TICKET" := simpleIntent ["ticket"; "reopen"] 5 [] [] ]};
     Entities :=
       {[ "ticket" := {| EntityPattern.Type_ := "ticket";
                         EntityPattern.Description := "Ticket number";
                         EntityPattern.Regex := ["#([0-9]+)"];
                         EntityPattern.Keywords := ["ticket"];
                         EntityPattern.Examples := ["#4521"] |} ]};
     Synonyms := ∅; Confidence := ∅ |}.

(** The provider NewEnhancedLocalProvider builds for it (lemma
    [ticketProvider_ok] below). *)
Definition ticketProvider : EnhancedLocalProvider :=
  match NewEnhancedLocalProvider (fun _ => Some ticketConfig) "ticket.json"
          (map_to_list (Intents ticketConfig)) (map_to_list (Intents ticketConfig))
          (map_to_list (Entities ticketConfig)) (map_to_list (Synonyms ticketConfig)) with
  | Some p => p
  | None => uncompiledDefault
  end.

End Spec.

(** * Properties *)

Import GoStrings GoMath models services Spec.

(** ** Order facts on binary64 numbers, from their specification *)
Section FloatOrder.

Ltac cmp_cases :=
  repeat match goal with
  | |- context [Pos.compare_cont Eq ?a ?b] => change (Pos.compare_cont Eq a b) with (Pos.compare a b)
  | H : context [Pos.compare_cont Eq ?a ?b] |- _ => change (Pos.compare_cont Eq a b) with (Pos.compare a b) in H
  end;
  repeat match goal with
  | |- context [Z.compare ?a ?b] => destruct (Z.compare_spec a b)
  | H : context [Z.compare ?a ?b] |- _ => destruct (Z.compare_spec a b)
  | |- context [Pos.compare ?a ?b] => destruct (Pos.compare_spec a b)
  | H : context [Pos.compare ?a ?b] |- _ => destruct (Pos.compare_spec a b)
  end; simpl in *; subst; try discriminate; try reflexivity; try lia.

Lemma SFltb_trans x y z :
  SFltb x y = true -> SFltb y z = true -> SFltb x z = true.
Proof.
  unfold SFltb, SFcompare.
  destruct x as [sx|sx| |sx mx ex], y as [sy|sy| |sy my ey], z as [sz|sz| |sz mz ez];
    repeat match goal with s : bool |- _ => destruct s end;
    simpl; try discriminate; try reflexivity; intros H1 H2; cmp_cases.
Qed.

Lemma SFltb_asym x y : SFltb x y = true -> SFltb y x = false.
Proof.
  unfold SFltb, SFcompare.
  destruct x as [sx|sx| |sx mx ex], y as [sy|sy| |sy my ey];
    repeat match goal with s : bool |- _ => destruct s end;
    simpl; try discriminate; try reflexivity; intros H1; cmp_cases.
Qed.

Lemma SFltb_leb x y : SFltb x y = true -> SFleb x y = true.
Proof.
  unfold SFltb, SFleb. destruct (SFcompare x y) as [[]|]; try discriminate; reflexivity.
Qed.

Lemma SFleb_ltb_trans x y z :
  SFleb x y = true -> SFltb y z = true -> SFleb x z = true.
Proof.
  unfold SFltb, SFleb, SFcompare.
  destruct x as [sx|sx| |sx mx ex], y as [sy|sy| |sy my ey], z as [sz|sz| |sz mz ez];
    repeat match goal with s : bool |- _ => destruct s end;
    simpl; try discriminate; try reflexivity; intros H1 H2; cmp_cases.
Qed.

Lemma ltb_trans (x y z : float) :
  (x <? y)%float = true -> (y <? z)%float = true -> (x <? z)%float = true.
Proof. rewrite !FloatAxioms.ltb_spec. apply SFltb_trans. Qed.

Lemma ltb_asym (x y : float) : (x <? y)%float = true -> (y <? x)%float = false.
Proof. rewrite !FloatAxioms.ltb_spec. apply SFltb_asym. Qed.

Lemma ltb_leb (x y : float) : (x <? y)%float = true -> (x <=? y)%float = true.
Proof. rewrite FloatAxioms.ltb_spec, FloatAxioms.leb_spec. apply SFltb_leb. Qed.

Lemma leb_ltb_trans (x y z : float) :
  (x <=? y)%float = true -> (y <? z)%float = true -> (x <=? z)%float = true.
Proof. rewrite !FloatAxioms.ltb_spec, !FloatAxioms.leb_spec. apply SFleb_ltb_trans. Qed.

Lemma Min_unit_interval (b : float) :
  (0 <=? b)%float = true ->
  (0 <=? Min b 1)%float = true /\ (Min b 1 <=? 1)%float = true.
Proof.
  intros Hb. unfold Min.
  assert (Hninf : (b =? neg_infinity)%float = false).
  { revert Hb. rewrite FloatAxioms.leb_spec, FloatAxioms.eqb_spec.
    change (Prim2SF 0) with (S754_zero false).
    change (Prim2SF neg_infinity) with (S754_infinity true).
    destruct (Prim2SF b) as [s|s| |s m e]; try destruct s; simpl; try discriminate; reflexivity. }
  assert (Hnan : is_nan b = false).
  { unfold is_nan. revert Hb. rewrite FloatAxioms.leb_spec, FloatAxioms.eqb_spec.
    change (Prim2SF 0) with (S754_zero false).
    destruct (Prim2SF b) as [s|s| |s m e]; try destruct s; simpl; try discriminate; try reflexivity.
    - intros _. unfold SFeqb, SFcompare. rewrite Z.compare_refl. 
      change (Pos.compare_cont Eq m m) with (Pos.compare m m). now rewrite Pos.compare_refl. }
  rewrite Hninf, Hnan. simpl.
  destruct ((b =? 0)%float && (b =? 1)%float) eqn:Hz.
  - apply andb_prop in Hz as [Hz0 Hz1].
    exfalso. revert Hz0 Hz1. rewrite !FloatAxioms.eqb_spec.
    change (Prim2SF 0) with (S754_zero false).
    change (Prim2SF 1) with (S754_finite false 4503599627370496 (-52)).
    destruct (Prim2SF b) as [s|s| |s m e]; try destruct s; simpl; discriminate.
  - destruct (b <? 1)%float eqn:Hlt.
    + split; [assumption | now apply ltb_leb].
    + split; reflexivity.
Qed.

(** A number that is not NaN lies on one side of any strict inequality. *)
Lemma SFltb_cotrans x y z :
  SFltb x z = true -> SFeqb y y = true ->
  SFltb x y = false -> SFltb y z = true.
Proof.
  unfold SFltb, SFeqb, SFcompare.
  destruct x as [sx|sx| |sx mx ex], y as [sy|sy| |sy my ey], z as [sz|sz| |sz mz ez];
    repeat match goal with s : bool |- _ => destruct s end;
    simpl; try discriminate; try reflexivity; intros H1 H2 H3; cmp_cases.
Qed.

Lemma SFltb_not_nan x y : SFltb x y = true -> SFeqb y y = true.
Proof.
  unfold SFltb, SFeqb, SFcompare.
  destruct x as [sx|sx| |sx mx ex], y as [sy|sy| |sy my ey];
    repeat match goal with s : bool |- _ => destruct s end;
    simpl; try discriminate; try reflexivity; intros H1; cmp_cases.
Qed.

Lemma ltb_cotrans (x y z : float) :
  (x <? z)%float = true -> (y =? y)%float = true ->
  (x <? y)%float = false -> (y <? z)%float = true.
Proof. rewrite !FloatAxioms.ltb_spec, FloatAxioms.eqb_spec. apply SFltb_cotrans. Qed.

Lemma ltb_not_nan (x y : float) : (x <? y)%float = true -> (y =? y)%float = true.
Proof. rewrite FloatAxioms.ltb_spec, FloatAxioms.eqb_spec. apply SFltb_not_nan. Qed.

(** A number that is at least 0 is not strictly below a zero. *)
Lemma SFnonneg_not_below_zero b t :
  SFleb (S754_zero false) b = true -> SFltb b t = true ->
  SFeqb t (S754_zero false) = true -> False.
Proof.
  unfold SFleb, SFltb, SFeqb, SFcompare.
  destruct b as [sb|sb| |sb mb eb], t as [st|st| |st mt et];
    repeat match goal with s : bool |- _ => destruct s end;
    simpl; discriminate.
Qed.

Lemma nonneg_not_below_zero (b t : float) :
  (0 <=? b)%float = true -> (b <? t)%float = true -> (t =? 0)%float = true -> False.
Proof.
  rewrite FloatAxioms.leb_spec, FloatAxioms.ltb_spec, FloatAxioms.eqb_spec.
  apply SFnonneg_not_below_zero.
Qed.

End FloatOrder.

(** ** The built-in configuration on concrete inputs *)

(** The patterns of the built-in configuration compile. *)
Lemma NewDefaultProvider_ok : NewDefaultProvider = Some defaultProvider.
Proof.
  assert (H : match NewDefaultProvider with Some _ => True | None => False end)
    by (vm_compute; exact I).
  unfold defaultProvider. destruct NewDefaultProvider; [reflexivity | contradiction].
Qed.

(** The library models on a few inputs. *)
Example Fields_example :
  Fields "  find   contact Alice " = ["find"; "contact"; "Alice"].
Proof. reflexivity. Qed.

Example Trim_example : Trim "..Alice!?" ".,!?;:" = "Alice".
Proof. reflexivity. Qed.

Example normalizeText_example :
  normalizeText "  Add  contact: Al (a-b_c@d.e)! " = "add contact al a-b_c@d.e".
Proof. reflexivity. Qed.

Example quotePattern_parsed :
  Regexp.parse (quote ++ "([^" ++ quote ++ "]+)" ++ quote) = Some quoteTree.
Proof. reflexivity. Qed.

Example phone_pattern_example :
  option_map (fun re => Regexp.FindStringSubmatch re "call +1 555-123-4567 now")
    (Regexp.Compile "(?i)(\+\d{1,3}[-.\s]?)?\(?\d{3}\)?[-.\s]?\d{3}[-.\s]?\d{4}")
  = Some ["+1 555-123-4567"; "+1 "].
Proof. vm_compute. reflexivity. Qed.

Example unsupported_pattern_example : Regexp.parse "^a*?$" = None.
Proof. reflexivity. Qed.

Example getIntentDisplayName_example :
  getIntentDisplayName "CreateNote" = "note"
  /\ getIntentDisplayName "ScheduleTeamMeeting" = "schedule team meeting".
Proof. split; reflexivity. Qed.

(** The first example of the built-in configuration. *)
Example create_contact_example :
  let p := defaultProvider in
  let oi := map_to_list (Intents (config p)) in
  let oe := map_to_list (Entities (config p)) in
  let r := ExtractIntent p oi oe oe oe "create a new contact named bob" in
  Task r = "CREATE_CONTACT" /\ Vars r !! "name" = Some (VString "bob").
Proof. split; vm_compute; reflexivity. Qed.

(** C1. Against the built-in configuration the input "xyz zzz qqq" is NOT
    classified as "UNKNOWN" with score 0: the priority boost of CREATE_CONTACT
    alone (10 * 0.1) reaches 1.0, above its threshold 0.7, so classifyIntent
    answers "CREATE_CONTACT" with confidence 1, whatever the order in which
    the two intents are visited.  The entity map is empty, as the claim says. *)
Theorem C1_gibberish_classified_as_create_contact :
  let p := defaultProvider in
  let oi := map_to_list (Intents (config p)) in
  let oe := map_to_list (Entities (config p)) in
  NewDefaultProvider = Some p
  /\ List.length oi = 2%nat
  /\ boostedScore p (normalizeText "xyz zzz qqq")
       ("CREATE_CONTACT", intentOf p "CREATE_CONTACT")
     = 1%float
  /\ thresholdOf p "CREATE_CONTACT" = 0.7%float
  /\ classifyIntent p oi (normalizeText "xyz zzz qqq")
     = {| Intent_ := "CREATE_CONTACT"; Confidence_ := 1%float |}
  /\ classifyIntent p (rev oi) (normalizeText "xyz zzz qqq")
     = {| Intent_ := "CREATE_CONTACT"; Confidence_ := 1%float |}
  /\ extractEntities p oe oe oe "xyz zzz qqq" = ∅
  /\ Task (ExtractIntent p oi oe oe oe "xyz zzz qqq") = "CREATE_CONTACT"
  /\ Vars (ExtractIntent p oi oe oe oe "xyz zzz qqq") !! "confidence"
     = Some (VFloat 1%float).
Proof.
  cbv zeta. split; [apply NewDefaultProvider_ok|].
  repeat (split; [vm_compute; reflexivity|]). vm_compute; reflexivity.
Qed.

(** C4. With the built-in configuration the text "555-123-4567" leaves the
    key "phone" in the entity map with an empty value: the phone pattern
    matches, its only group (the optional country prefix) takes no part in
    the match, and the regex loop stores the empty group. *)
Theorem C4_phone_key_with_empty_value :
  let p := defaultProvider in
  let oe := map_to_list (Entities (config p)) in
  NewDefaultProvider = Some p
  /\ regexValue (at_key (EntityRegexes (compiled p)) "phone") "555-123-4567"
     = Some EmptyString
  /\ Entities (config p) !! "phone" = Some (entityOf p "phone")
  /\ extractEntityByKeywords p "555-123-4567" "phone" (entityOf p "phone") = EmptyString
  /\ extractEntities p oe oe oe "555-123-4567" !! "phone" = Some EmptyString
  /\ extractEntities p oe oe oe "555-123-4567" = {["phone" := EmptyString]}.
Proof.
  cbv zeta. split; [apply NewDefaultProvider_ok|].
  repeat (split; [vm_compute; reflexivity|]). vm_compute; reflexivity.
Qed.

(** ** ExtractIntent: what it classifies and what it stores *)

Lemma addMissing_Task p intent intentName :
  Task (addMissingFieldsAndFollowUp p intent intentName) = Task intent.
Proof.
  unfold addMissingFieldsAndFollowUp.
  destruct (Intents (config p) !! intentName); reflexivity.
Qed.

Lemma addMissing_Vars p intent intentName :
  Vars (addMissingFieldsAndFollowUp p intent intentName) = Vars intent.
Proof.
  unfold addMissingFieldsAndFollowUp.
  destruct (Intents (config p) !! intentName); reflexivity.
Qed.

Lemma ExtractIntent_Task p oi o1 o2 o3 raw :
  Task (ExtractIntent p oi o1 o2 o3 raw)
  = Intent_ (classifyIntent p oi (normalizeText raw)).
Proof.
  unfold ExtractIntent.
  destruct (negb _); [rewrite addMissing_Task|]; reflexivity.
Qed.

Lemma ExtractIntent_Vars p oi o1 o2 o3 raw :
  Vars (ExtractIntent p oi o1 o2 o3 raw)
  = <["confidence" := VFloat (Confidence_ (classifyIntent p oi (normalizeText raw)))]>
      (VString <$> extractEntities p o1 o2 o3 raw).
Proof.
  unfold ExtractIntent.
  destruct (negb _); [rewrite addMissing_Vars|]; reflexivity.
Qed.

(** C6, as stated, fails: the bonus is decided on the text that
    calculateIntentScore receives, and ExtractIntent hands it the normalised
    text.  A raw text of 26 bytes whose runs of spaces collapse to a
    normalised text of 16 bytes gets no bonus. *)
Lemma C6_raw_length_counterexample :
  let p := defaultProvider in
  let raw := "create      contact      x" in
  let intent := intentOf p "CREATE_CONTACT" in
  NewDefaultProvider = Some p
  /\ Intents (config p) !! "CREATE_CONTACT" = Some intent
  /\ String.length raw = 26%nat
  /\ normalizeText raw = "create contact x"
  /\ calculateIntentScore p (normalizeText raw) "CREATE_CONTACT" intent
     = signalScore p (normalizeText raw) "CREATE_CONTACT" intent
  /\ (calculateIntentScore p (normalizeText raw) "CREATE_CONTACT" intent
        =? signalScore p (normalizeText raw) "CREATE_CONTACT" intent + 0.1)%float
     = false.
Proof.
  cbv zeta. split; [apply NewDefaultProvider_ok|].
  repeat (split; [vm_compute; reflexivity|]). vm_compute; reflexivity.
Qed.

(** ** The keyword signal *)

Lemma synonymLoop_spec textLower synonyms st :
  synonymLoop textLower synonyms st
  = if existsb (fun synonym => Contains textLower (ToLower synonym)) synonyms
    then ((fst st + 0.3)%float, S (snd st)) else st.
Proof.
  induction synonyms as [|synonym rest IH]; simpl; [reflexivity|].
  destruct (Contains textLower (ToLower synonym)); simpl; [reflexivity | apply IH].
Qed.

Lemma keywordStep_spec p textLower keyword (st : float * nat) :
  (if Contains textLower (ToLower keyword)
   then ((fst st + 0.4)%float, S (snd st))
   else synonymLoop textLower (getSynonyms p keyword) st)
  = match keywordIncrement p textLower keyword with
    | Some x => ((fst st + x)%float, S (snd st))
    | None => st
    end.
Proof.
  unfold keywordIncrement. rewrite synonymLoop_spec.
  destruct (Contains textLower (ToLower keyword)); [reflexivity|].
  destruct (existsb _ _); reflexivity.
Qed.

Lemma keywordLoop_spec p textLower keywords st :
  keywordLoop p textLower keywords st
  = (fold_left (fun acc x => (acc + x)%float)
       (omap (keywordIncrement p textLower) keywords) (fst st),
     (snd st + List.length (omap (keywordIncrement p textLower) keywords))%nat).
Proof.
  revert st. induction keywords as [|keyword rest IH]; intros st.
  - destruct st as [ks mk]. simpl. f_equal. lia.
  - cbn [keywordLoop]. rewrite keywordStep_spec, IH.
    change (omap (keywordIncrement p textLower) (keyword :: rest))
      with (match keywordIncrement p textLower keyword with
            | Some x => x :: omap (keywordIncrement p textLower) rest
            | None => omap (keywordIncrement p textLower) rest
            end).
    destruct (keywordIncrement p textLower keyword) as [x|]; simpl; f_equal; lia.
Qed.

(** For a non-empty keyword list the keyword signal is the raw sum divided
    by the length of the list, and the loop counts the keywords that matched. *)
Lemma keywordSignal_spec p textLower keywords :
  keywords <> [] ->
  keywordSignal p textLower keywords
  = (rawKeywordSum p textLower keywords / float_of_nat (List.length keywords))%float
  /\ snd (keywordLoop p textLower keywords (0%float, O))
     = List.length (omap (keywordIncrement p textLower) keywords).
Proof.
  intros Hne. unfold keywordSignal, rawKeywordSum.
  rewrite keywordLoop_spec. simpl fst. simpl snd. split; [|reflexivity].
  destruct keywords as [|k ks]; [contradiction | reflexivity].
Qed.

(** ** compileConfig: the compiled keyword lists are the configured ones *)

Lemma compileEntity_None entities : fold_left compileEntity entities None = None.
Proof. induction entities as [|[n e] entities IH]; [reflexivity | exact IH]. Qed.

Lemma compileIntent_None intents : fold_left compileIntent intents None = None.
Proof. induction intents as [|[n i] intents IH]; [reflexivity | exact IH]. Qed.

Lemma compileEntity_KeywordMap entities c c' :
  fold_left compileEntity entities (Some c) = Some c' ->
  KeywordMap c' = KeywordMap c.
Proof.
  revert c. induction entities as [|[n e] entities IH]; intros c; simpl.
  - now intros [= ->].
  - destruct (compileAll (EntityPattern.Regex e)) as [regexes|].
    + intros H. now rewrite (IH _ H).
    + now rewrite compileEntity_None.
Qed.

Lemma compileSynonyms_KeywordMap synonyms c :
  KeywordMap (fold_left compileSynonyms synonyms c) = KeywordMap c.
Proof.
  revert c. induction synonyms as [|[w s] synonyms IH]; intros c; simpl;
    [reflexivity | now rewrite IH].
Qed.

(** The loop over the intents leaves the entries of other intents alone. *)
Lemma compileIntent_KeywordMap_out intents c c' name :
  fold_left compileIntent intents (Some c) = Some c' ->
  ~ In name (intents.*1) ->
  KeywordMap c' !! name = KeywordMap c !! name.
Proof.
  revert c. induction intents as [|[n i] intents IH]; intros c; simpl.
  - now intros [= ->].
  - destruct (compileAll (IntentPattern.Regex i)) as [regexes|].
    + intros H Hout. rewrite (IH _ H) by tauto. simpl.
      apply lookup_insert_ne. tauto.
    + now rewrite compileIntent_None.
Qed.

(** It stores the keyword list of every intent it visits. *)
Lemma compileIntent_KeywordMap_in intents c c' name intent :
  fold_left compileIntent intents (Some c) = Some c' ->
  NoDup (intents.*1) -> In (name, intent) intents ->
  KeywordMap c' !! name = Some (IntentPattern.Keywords intent).
Proof.
  revert c. induction intents as [|[n i] intents IH]; intros c; simpl; [tauto|].
  rewrite NoDup_cons. intros H [Hn Hnd] Hin.
  destruct (compileAll (IntentPattern.Regex i)) as [regexes|];
    [|now rewrite compileIntent_None in H].
  destruct Hin as [[= -> ->] | Hin].
  - rewrite (compileIntent_KeywordMap_out _ _ _ name H).
    + simpl. apply lookup_insert_eq.
    + now rewrite <- list_elem_of_In.
  - now apply (IH _ H).
Qed.

(** After a successful compilation the keyword list the scoring reads for an
    intent is the keyword list of its definition. *)
Lemma compileConfig_KeywordMap cfg oi oe os c name intent :
  compileConfig cfg oi oe os = Some c ->
  oi ≡ₚ map_to_list (Intents cfg) ->
  Intents cfg !! name = Some intent ->
  at_key (KeywordMap c) name = IntentPattern.Keywords intent.
Proof.
  unfold compileConfig. intros H Hperm Hname.
  destruct (fold_left compileIntent oi _) as [c1|] eqn:H1;
    [|now rewrite compileEntity_None in H].
  destruct (fold_left compileEntity oe (Some c1)) as [c2|] eqn:H2; [|discriminate].
  injection H as <-. unfold at_key.
  rewrite compileSynonyms_KeywordMap, (compileEntity_KeywordMap _ _ _ H2).
  rewrite (compileIntent_KeywordMap_in _ _ _ name intent H1); [reflexivity| |].
  - rewrite Hperm. apply NoDup_fst_map_to_list.
  - apply list_elem_of_In. rewrite Hperm. now apply elem_of_map_to_list.
Qed.

(** The sample providers are what compileConfig builds for their
    configurations. *)
Example sample_providers_compiled :
  Forall (fun p : EnhancedLocalProvider =>
            compileConfig (config p) (map_to_list (Intents (config p)))
              (map_to_list (Entities (config p))) (map_to_list (Synonyms (config p)))
            = Some (compiled p))
    [greetProvider; blankFieldProvider; noteProvider; tieProvider].
Proof. repeat constructor; vm_compute; reflexivity. Qed.

Lemma defaultProvider_compiled :
  config defaultProvider = GetDefaultConfig
  /\ compileConfig GetDefaultConfig (map_to_list (Intents GetDefaultConfig))
       (map_to_list (Entities GetDefaultConfig)) (map_to_list (Synonyms GetDefaultConfig))
     = Some (compiled defaultProvider).
Proof.
  assert (H : match compileConfig GetDefaultConfig (map_to_list (Intents GetDefaultConfig))
                      (map_to_list (Entities GetDefaultConfig))
                      (map_to_list (Synonyms GetDefaultConfig)) with
              | Some _ => True
              | None => False
              end) by (vm_compute; exact I).
  unfold defaultProvider, NewDefaultProvider. cbv zeta.
  destruct (compileConfig GetDefaultConfig _ _ _) as [c|]; [|contradiction].
  split; reflexivity.
Qed.

(** C8. For every configured intent with a non-empty keyword list, on a
    provider whose compiled form is the compilation of its configuration, the
    keyword signal that calculateIntentScore adds is the raw sum (0.4 for each
    keyword found in the lower-cased text, else 0.3 when one of its synonyms
    is found) divided by the number of configured keywords; the number of
    keywords that matched, which the loop also counts, plays no part. *)
Theorem C8_keyword_signal_divides_by_configured_count :
  forall (p : EnhancedLocalProvider) oi oe os (name : string)
         (intent : IntentPattern.t) (textLower : string),
    compileConfig (config p) oi oe os = Some (compiled p) ->
    oi ≡ₚ map_to_list (Intents (config p)) ->
    Intents (config p) !! name = Some intent ->
    IntentPattern.Keywords intent <> [] ->
    keywordSignal p textLower (at_key (KeywordMap (compiled p)) name)
    = (rawKeywordSum p textLower (IntentPattern.Keywords intent)
       / float_of_nat (List.length (IntentPattern.Keywords intent)))%float
    /\ snd (keywordLoop p textLower (at_key (KeywordMap (compiled p)) name) (0%float, O))
       = List.length
           (omap (keywordIncrement p textLower) (IntentPattern.Keywords intent)).
Proof.
  intros p oi oe os name intent textLower Hc Hperm Hname Hne.
  rewrite (compileConfig_KeywordMap _ _ _ _ _ _ _ Hc Hperm Hname).
  now apply keywordSignal_spec.
Qed.

Lemma C8_witness :
  let p := defaultProvider in
  let oi := map_to_list (Intents (config p)) in
  let oe := map_to_list (Entities (config p)) in
  let os := map_to_list (Synonyms (config p)) in
  let intent := intentOf p "CREATE_CONTACT" in
  compileConfig (config p) oi oe os = Some (compiled p)
  /\ oi ≡ₚ map_to_list (Intents (config p))
  /\ Intents (config p) !! "CREATE_CONTACT" = Some intent
  /\ IntentPattern.Keywords intent <> []
  /\ keywordSignal p "create a new contact"
       (at_key (KeywordMap (compiled p)) "CREATE_CONTACT")
     = (rawKeywordSum p "create a new contact" (IntentPattern.Keywords intent)
        / float_of_nat (List.length (IntentPattern.Keywords intent)))%float.
Proof.
  cbv zeta.
  assert (H1 : compileConfig (config defaultProvider)
                 (map_to_list (Intents (config defaultProvider)))
                 (map_to_list (Entities (config defaultProvider)))
                 (map_to_list (Synonyms (config defaultProvider)))
               = Some (compiled defaultProvider)).
  { destruct defaultProvider_compiled as [-> H]. exact H. }
  assert (H2 : map_to_list (Intents (config defaultProvider))
                 ≡ₚ map_to_list (Intents (config defaultProvider))) by reflexivity.
  assert (H3 : Intents (config defaultProvider) !! "CREATE_CONTACT"
               = Some (intentOf defaultProvider "CREATE_CONTACT"))
    by (vm_compute; reflexivity).
  assert (H4 : IntentPattern.Keywords (intentOf defaultProvider "CREATE_CONTACT") <> [])
    by (vm_compute; discriminate).
  split; [exact H1|]. split; [exact H2|]. split; [exact H3|]. split; [exact H4|].
  exact (proj1 (C8_keyword_signal_divides_by_configured_count defaultProvider _ _ _
                  "CREATE_CONTACT" _ "create a new contact" H1 H2 H3 H4)).
Defined.

(** On that input two of the four keywords are found (create and new; add
    and save are not, and have no synonyms of their own): the signal is
    0.8 / 4, not 0.8 / 2. *)
Example keyword_signal_example :
  keywordSignal defaultProvider "create a new contact" ["create"; "add"; "new"; "save"]
    = ((0.4 + 0.4) / 4)%float /\
  snd (keywordLoop defaultProvider "create a new contact"
         ["create"; "add"; "new"; "save"] (0%float, O)) = 2%nat.
Proof. split; vm_compute; reflexivity. Qed.

(** ** The loop of classifyIntent *)
Section ClassifyLoop.

Variable p : EnhancedLocalProvider.
Variable text : string.

Let step := classifyStep p text.
Let score := boostedScore p text.

Lemma classifyStep_cases best e :
  (step best e = best /\ (snd best <? score e)%float = false)
  \/ (step best e = (fst e, score e) /\ (snd best <? score e)%float = true).
Proof.
  unfold step, classifyStep, score.
  destruct (snd best <? boostedScore p text e)%float; auto.
Qed.

(** The loop keeps its state or ends on an entry of the list with its score. *)
Lemma loop_origin order init :
  fold_left step order init = init
  \/ exists e, In e order /\ fold_left step order init = (fst e, score e).
Proof.
  revert init. induction order as [|e order IH]; intros init; simpl; [auto|].
  destruct (IH (step init e)) as [Hkeep | (e' & Hin & Heq)].
  - rewrite Hkeep. destruct (classifyStep_cases init e) as [[-> _] | [-> _]]; eauto.
  - right. eauto.
Qed.

Lemma loop_nonneg order init :
  (0 <=? snd init)%float = true ->
  (0 <=? snd (fold_left step order init))%float = true.
Proof.
  revert init. induction order as [|e order IH]; intros init Hinit; simpl; [assumption|].
  apply IH. destruct (classifyStep_cases init e) as [[-> _] | [-> Hlt]]; [assumption|].
  simpl. eapply leb_ltb_trans; eassumption.
Qed.

Lemma loop_not_nan order init :
  (snd init =? snd init)%float = true ->
  (snd (fold_left step order init) =? snd (fold_left step order init))%float = true.
Proof.
  revert init. induction order as [|e order IH]; intros init Hinit; simpl; [assumption|].
  apply IH. destruct (classifyStep_cases init e) as [[-> _] | [-> Hlt]]; [assumption|].
  simpl. eapply ltb_not_nan; eassumption.
Qed.

(** No score of the list is strictly above the final best score. *)
Lemma loop_max order init :
  (snd init =? snd init)%float = true ->
  (snd (fold_left step order init) <? snd init)%float = false
  /\ forall e, In e order -> (snd (fold_left step order init) <? score e)%float = false.
Proof.
  revert init. induction order as [|e order IH]; intros init Hnan; simpl.
  - split; [|contradiction].
    destruct (snd init <? snd init)%float eqn:H; [|reflexivity].
    now rewrite (ltb_asym _ _ H) in H.
  - destruct (classifyStep_cases init e) as [[Hs Hlt] | [Hs Hlt]]; rewrite Hs.
    + destruct (IH init Hnan) as [Hinit Hall]. split; [assumption|].
      intros e' [<- | Hin]; [|auto].
      destruct (snd (fold_left step order init) <? score e)%float eqn:Hb; [|reflexivity].
      now rewrite (ltb_cotrans _ _ _ Hb Hnan Hinit) in Hlt.
    + assert (Hnan' : (snd (fst e, score e) =? snd (fst e, score e))%float = true)
        by (simpl; eapply ltb_not_nan; eassumption).
      destruct (IH (fst e, score e) Hnan') as [Hinit Hall]. simpl in Hinit. split.
      * destruct (snd (fold_left step order (fst e, score e)) <? snd init)%float eqn:Hb;
          [|reflexivity].
        now rewrite (ltb_trans _ _ _ Hb Hlt) in Hinit.
      * intros e' [<- | Hin]; auto.
Qed.

(** The loop leaves its state alone when no score is strictly above it. *)
Lemma loop_stays order init :
  (forall e, In e order -> (snd init <? score e)%float = false) ->
  fold_left step order init = init.
Proof.
  induction order as [|e order IH]; intros Hall; simpl; [reflexivity|].
  destruct (classifyStep_cases init e) as [[-> _] | [_ Hlt]].
  - apply IH. intros e' Hin. apply Hall. now right.
  - rewrite Hall in Hlt by now left. discriminate.
Qed.

(** First seen wins: an entry that is strictly above the initial score and
    above everything before it, and that nothing after it strictly beats,
    is the result. *)
Lemma loop_first_max l1 e l2 init :
  (snd init <? score e)%float = true ->
  (forall x, In x l1 -> (score x <? score e)%float = true) ->
  (forall x, In x l2 -> (score e <? score x)%float = false) ->
  fold_left step (l1 ++ e :: l2) init = (fst e, score e).
Proof.
  intros Hinit Hbefore Hafter. rewrite fold_left_app. simpl.
  assert (Hb : (snd (fold_left step l1 init) <? score e)%float = true).
  { destruct (loop_origin l1 init) as [-> | (x & Hin & ->)]; [assumption|].
    simpl. auto. }
  destruct (classifyStep_cases (fold_left step l1 init) e) as [[_ Hlt] | [-> _]].
  - rewrite Hb in Hlt. discriminate.
  - apply loop_stays. assumption.
Qed.

End ClassifyLoop.

Lemma bestOf_origin p text order :
  bestOf p text order = ("UNKNOWN", 0%float)
  \/ exists e, In e order /\ bestOf p text order = (fst e, boostedScore p text e).
Proof. apply loop_origin. Qed.

Lemma Min_zero_one : Min 0 1 = 0%float.
Proof. reflexivity. Qed.

(** classifyIntent, as a case distinction on the threshold test. *)
Lemma classifyIntent_cases p order text :
  let best := bestOf p text order in
  ((snd best <? thresholdOf p (fst best))%float = true
   /\ classifyIntent p order text = {| Intent_ := "UNKNOWN"; Confidence_ := 0%float |})
  \/ ((snd best <? thresholdOf p (fst best))%float = false
      /\ classifyIntent p order text
         = {| Intent_ := fst best; Confidence_ := Min (snd best) 1 |}).
Proof.
  unfold classifyIntent. destruct (bestOf p text order) as [bestIntent bestScore]. simpl.
  destruct (bestScore <? thresholdOf p bestIntent)%float; [left | right]; auto.
Qed.

(** C7. classifyIntent returns a confidence in [0, 1] and an intent that is
    "UNKNOWN" or a key of the configured intents, for every text and every
    order in which the intents are visited. *)
Theorem C7_score_in_unit_interval_and_intent_configured :
  forall (p : EnhancedLocalProvider) (order : list (string * IntentPattern.t))
         (text : string),
    order ≡ₚ map_to_list (Intents (config p)) ->
    let r := classifyIntent p order text in
    (0 <=? Confidence_ r)%float = true
    /\ (Confidence_ r <=? 1)%float = true
    /\ (Intent_ r = "UNKNOWN" \/ is_Some (Intents (config p) !! Intent_ r)).
Proof.
  intros p order text Hperm r. subst r.
  destruct (classifyIntent_cases p order text) as [[_ ->] | [_ ->]]; simpl.
  - repeat split; auto.
  - assert (Hnn : (0 <=? snd (bestOf p text order))%float = true)
      by (apply loop_nonneg; reflexivity).
    destruct (Min_unit_interval _ Hnn) as [H0 H1]. repeat split; try assumption.
    destruct (bestOf_origin p text order) as [-> | ([n pat] & Hin & ->)]; [auto|].
    right. simpl. exists pat. apply elem_of_map_to_list.
    rewrite <- Hperm. now apply list_elem_of_In.
Qed.

Lemma C7_witness :
  let p := defaultProvider in
  let order := map_to_list (Intents (config p)) in
  order ≡ₚ map_to_list (Intents (config p))
  /\ let r := classifyIntent p order (normalizeText "Find contact Alice") in
     (0 <=? Confidence_ r)%float = true
     /\ (Confidence_ r <=? 1)%float = true
     /\ (Intent_ r = "UNKNOWN" \/ is_Some (Intents (config p) !! Intent_ r)).
Proof.
  split; [reflexivity|].
  apply (C7_score_in_unit_interval_and_intent_configured defaultProvider
           (map_to_list (Intents (config defaultProvider)))
           (normalizeText "Find contact Alice")).
  reflexivity.
Defined.

(** The threshold test of classifyIntent, read on the configuration: the
    score is below the configured threshold, or below 0.5 when none is
    configured.  A configured threshold equal to 0 counts as not configured in
    the code; no score of the loop is below 0, so both readings agree. *)
Lemma below_threshold_of p order text :
  let best := bestOf p text order in
  match Confidence (config p) !! fst best with
  | Some threshold => (snd best <? threshold)%float
  | None => (snd best <? 0.5)%float
  end = true ->
  (snd best <? thresholdOf p (fst best))%float = true.
Proof.
  intros best Hlt. unfold thresholdOf.
  destruct (Confidence (config p) !! fst best) as [threshold|];
    cbn [default from_option id].
  - destruct (threshold =? 0)%float eqn:Hzero; [|exact Hlt].
    exfalso. apply (nonneg_not_below_zero (snd best) threshold); auto.
    apply loop_nonneg. reflexivity.
  - exact Hlt.
Qed.

(** C3. Whenever the boosted score of the highest-scoring intent, the one the
    loop of classifyIntent ends on, is below the threshold configured for
    that intent, or below 0.5 when no threshold is configured for it,
    classifyIntent returns "UNKNOWN" with score 0.  The state the loop ends on
    is the highest boosted score (no intent scores strictly above it)
    together with an intent that has this score, or "UNKNOWN" with 0 when no
    intent scores above 0. *)
Theorem C3_below_threshold_is_unknown :
  forall (p : EnhancedLocalProvider) (order : list (string * IntentPattern.t))
         (text : string),
    let best := bestOf p text order in
    match Confidence (config p) !! fst best with
    | Some threshold => (snd best <? threshold)%float
    | None => (snd best <? 0.5)%float
    end = true ->
    classifyIntent p order text = {| Intent_ := "UNKNOWN"; Confidence_ := 0%float |}
    /\ (forall e, In e order -> (snd best <? boostedScore p text e)%float = false)
    /\ (best = ("UNKNOWN", 0%float)
        \/ exists e, In e order /\ best = (fst e, boostedScore p text e)).
Proof.
  intros p order text best Hlt. apply below_threshold_of in Hlt. fold best in Hlt.
  split; [|split].
  - destruct (classifyIntent_cases p order text) as [[_ ->] | [Hge _]];
      [reflexivity|]. fold best in Hge. rewrite Hlt in Hge. discriminate.
  - apply loop_max. reflexivity.
  - apply bestOf_origin.
Qed.

Lemma C3_witness :
  let p := greetProvider in
  let order := map_to_list (Intents (config p)) in
  let best := bestOf p "hello there" order in
  match Confidence (config p) !! fst best with
  | Some threshold => (snd best <? threshold)%float
  | None => (snd best <? 0.5)%float
  end = true
  /\ best = ("GREET", (0.4 / 2 + 1 / 2 * 0.2 + 0 * 0.1)%float)
  /\ classifyIntent p order "hello there"
     = {| Intent_ := "UNKNOWN"; Confidence_ := 0%float |}.
Proof.
  cbv zeta.
  assert (H : match Confidence (config greetProvider)
                      !! fst (bestOf greetProvider "hello there"
                                (map_to_list (Intents (config greetProvider)))) with
              | Some threshold =>
                  (snd (bestOf greetProvider "hello there"
                          (map_to_list (Intents (config greetProvider)))) <? threshold)%float
              | None =>
                  (snd (bestOf greetProvider "hello there"
                          (map_to_list (Intents (config greetProvider)))) <? 0.5)%float
              end = true)
    by (vm_compute; reflexivity).
  split; [exact H|]. split; [vm_compute; reflexivity|].
  exact (proj1 (C3_below_threshold_is_unknown greetProvider
                  (map_to_list (Intents (config greetProvider))) "hello there" H)).
Defined.

(** ** The length bonus in the result *)

(** C6, amended.  ExtractIntent classifies the normalised text, and the
    length bonus adds 0.1 to the score of an intent exactly when the text
    given to calculateIntentScore (that normalised text) is longer than 20
    bytes; otherwise the score is the sum of the other signals.  The bonus
    reaches the result: the score classifyIntent compares for an intent is
    the sum of the signals on the normalised text, plus the bonus decided on
    the length of the normalised text, plus the priority boost; the loop of
    classifyIntent runs on these scores; and the confidence of a result with
    a concrete intent is that score of the intent, capped at 1. *)
Theorem C6_length_bonus_on_normalized_text :
  forall (p : EnhancedLocalProvider) oi o1 o2 o3 (raw : string),
    Task (ExtractIntent p oi o1 o2 o3 raw)
      = Intent_ (classifyIntent p oi (normalizeText raw)) /\
    Vars (ExtractIntent p oi o1 o2 o3 raw) !! "confidence"
      = Some (VFloat (Confidence_ (classifyIntent p oi (normalizeText raw)))) /\
    (forall (text intentName : string) (intent : IntentPattern.t),
      calculateIntentScore p text intentName intent
      = if (20 <? String.length text)%nat
        then (signalScore p text intentName intent + 0.1)%float
        else signalScore p text intentName intent) /\
    let text := normalizeText raw in
    let score (entry : string * IntentPattern.t) : float :=
      ((if (20 <? String.length text)%nat
        then signalScore p text (fst entry) (snd entry) + 0.1
        else signalScore p text (fst entry) (snd entry))
       + float_of_Z (IntentPattern.Priority (snd entry)) * 0.1)%float in
    (forall entry, boostedScore p text entry = score entry)
    /\ bestOf p text oi
       = fold_left (fun best entry =>
                      if (snd best <? score entry)%float then (fst entry, score entry)
                      else best) oi ("UNKNOWN", 0%float)
    /\ (Task (ExtractIntent p oi o1 o2 o3 raw) <> "UNKNOWN" ->
        exists entry,
          In entry oi
          /\ Task (ExtractIntent p oi o1 o2 o3 raw) = fst entry
          /\ Vars (ExtractIntent p oi o1 o2 o3 raw) !! "confidence"
             = Some (VFloat (Min (score entry) 1))
          /\ (score entry <? thresholdOf p (fst entry))%float = false
          /\ forall other, In other oi -> (score entry <? score other)%float = false).
Proof.
  intros p oi o1 o2 o3 raw. split; [apply ExtractIntent_Task|]. split.
  { rewrite ExtractIntent_Vars. apply lookup_insert_eq. }
  split; [intros text intentName intent; reflexivity|].
  cbv zeta. split; [intros entry; reflexivity|]. split; [reflexivity|].
  rewrite ExtractIntent_Task, ExtractIntent_Vars, lookup_insert_eq.
  set (text := normalizeText raw).
  change (fun entry : string * IntentPattern.t =>
            ((if (20 <? String.length text)%nat
              then signalScore p text (fst entry) (snd entry) + 0.1
              else signalScore p text (fst entry) (snd entry))
             + float_of_Z (IntentPattern.Priority (snd entry)) * 0.1)%float)
    with (boostedScore p text).
  intros Hknown.
  destruct (classifyIntent_cases p oi text) as [[_ Hc] | [Hth Hc]];
    rewrite Hc in Hknown |- *; cbn [Intent_ Confidence_] in *; [contradiction|].
  destruct (bestOf_origin p text oi) as [Hb | (entry & Hin & Hb)].
  - exfalso. apply Hknown. now rewrite Hb.
  - pose proof (loop_max p text oi ("UNKNOWN", 0%float) eq_refl) as [_ Hmax].
    fold (bestOf p text oi) in Hmax. cbv zeta in Hth.
    rewrite Hb in Hth, Hmax |- *. cbn [fst snd] in *.
    exists entry. repeat split; assumption.
Qed.

(** The bonus in a result: two texts of more than 20 bytes with the same
    keywords; the one that is still longer than 20 bytes once normalised gets
    the bonus, the one whose spaces collapse does not. *)
Lemma C6_witness :
  let p := greetProvider in
  let oi := map_to_list (Intents (config p)) in
  let long := "hello hi, good morning to you" in
  let spaced := "hello               hi" in
  (20 <? String.length spaced)%nat = true
  /\ normalizeText spaced = "hello hi"
  /\ Vars (ExtractIntent p oi [] [] [] spaced) !! "confidence"
     = Some (VFloat (Min ((0.4 + 0.4) / 2 + 2 / 2 * 0.2 + 0 * 0.1) 1))
  /\ normalizeText long = "hello hi good morning to you"
  /\ Vars (ExtractIntent p oi [] [] [] long) !! "confidence"
     = Some (VFloat (Min ((0.4 + 0.4) / 2 + 2 / 2 * 0.2 + 0.1 + 0 * 0.1) 1))
  /\ Task (ExtractIntent p oi [] [] [] long) <> "UNKNOWN"
  /\ exists entry,
       In entry oi
       /\ Task (ExtractIntent p oi [] [] [] long) = fst entry
       /\ Vars (ExtractIntent p oi [] [] [] long) !! "confidence"
          = Some (VFloat
                    (Min ((if (20 <? String.length (normalizeText long))%nat
                           then signalScore p (normalizeText long) (fst entry) (snd entry)
                                + 0.1
                           else signalScore p (normalizeText long) (fst entry) (snd entry))
                          + float_of_Z (IntentPattern.Priority (snd entry)) * 0.1) 1)).
Proof.
  cbv zeta.
  assert (Hknown : Task (ExtractIntent greetProvider
                           (map_to_list (Intents (config greetProvider))) [] [] []
                           "hello hi, good morning to you") <> "UNKNOWN")
    by (vm_compute; discriminate).
  split; [vm_compute; reflexivity|]. split; [vm_compute; reflexivity|].
  split; [vm_compute; reflexivity|]. split; [vm_compute; reflexivity|].
  split; [vm_compute; reflexivity|]. split; [exact Hknown|].
  destruct (C6_length_bonus_on_normalized_text greetProvider
              (map_to_list (Intents (config greetProvider))) [] [] []
              "hello hi, good morning to you") as (_ & _ & _ & H).
  cbv zeta in H. destruct H as (_ & _ & H).
  destruct (H Hknown) as (entry & Hin & Htask & Hconf & _).
  exists entry. split; [exact Hin|]. split; [exact Htask | exact Hconf].
Defined.

(** ** Completion tracking *)

Lemma isMissing_spec (vars : gmap string Value) (field : string) :
  isMissing vars field = true
  <-> vars !! field = None \/ vars !! field = Some (VString EmptyString).
Proof.
  unfold isMissing. destruct (vars !! field) as [[s|f]|]; split; intros H; auto.
  - apply String.eqb_eq in H. subst. auto.
  - destruct H as [H|H]; [discriminate|]. injection H as ->. reflexivity.
  - discriminate.
  - destruct H as [H|H]; discriminate.
Qed.

Lemma ToLower_empty (s : string) : ToLower s = EmptyString -> s = EmptyString.
Proof. destruct s; [reflexivity | discriminate]. Qed.

Lemma Contains_in_empty (s : string) :
  Contains EmptyString s = true -> s = EmptyString.
Proof. destruct s; [reflexivity | discriminate]. Qed.

Lemma Contains_empty (s : string) : Contains s EmptyString = true.
Proof. destruct s; reflexivity. Qed.

(** What customQuestion finds: the first template that contains the field. *)
Lemma customQuestion_Some field customFollowUp question :
  customQuestion field customFollowUp = Some question ->
  In question customFollowUp
  /\ Contains (ToLower question) (ToLower field) = true.
Proof.
  induction customFollowUp as [|q rest IH]; simpl; [discriminate|].
  destruct (Contains (ToLower q) (ToLower field)) eqn:Hc.
  - intros [= <-]. auto.
  - intros H. destruct (IH H). auto.
Qed.

(** The custom question returned is the first one that contains the field
    name. *)
Lemma customQuestion_first field customFollowUp question :
  customQuestion field customFollowUp = Some question ->
  exists before after,
    customFollowUp = (before ++ question :: after)%list
    /\ (forall q, In q before -> Contains (ToLower q) (ToLower field) = false)
    /\ Contains (ToLower question) (ToLower field) = true.
Proof.
  induction customFollowUp as [|q rest IH]; cbn [customQuestion]; [discriminate|].
  destruct (Contains (ToLower q) (ToLower field)) eqn:Hq.
  - intros [= <-]. exists [], rest. split; [reflexivity|]. split; [intros q' []|exact Hq].
  - intros H. destruct (IH H) as (before & after & -> & Hbefore & Hfound).
    exists (q :: before), after. split; [reflexivity|]. split; [|exact Hfound].
    intros q' [<- | Hin]; [exact Hq | exact (Hbefore q' Hin)].
Qed.

Lemma customQuestion_None field customFollowUp :
  customQuestion field customFollowUp = None ->
  forall question, In question customFollowUp ->
    Contains (ToLower question) (ToLower field) = false.
Proof.
  induction customFollowUp as [|q rest IH]; simpl; [contradiction|].
  destruct (Contains (ToLower q) (ToLower field)) eqn:Hc; [discriminate|].
  intros H question [<- | Hin]; auto.
Qed.

Lemma defaultQuestion_nonempty intentName field :
  defaultQuestion intentName field <> EmptyString.
Proof.
  unfold defaultQuestion.
  repeat match goal with
  | |- context [String.eqb field ?s] => destruct (String.eqb field s)
  end; discriminate.
Qed.

(** The generated question is empty in one case only: the field name is the
    empty string and the first custom template is the empty string. *)
Lemma generateFollowUpQuestion_empty intentName field customFollowUp :
  generateFollowUpQuestion intentName field customFollowUp = EmptyString
  <-> field = EmptyString
      /\ exists rest, customFollowUp = EmptyString :: rest.
Proof.
  unfold generateFollowUpQuestion. split.
  - destruct (customQuestion field customFollowUp) as [q|] eqn:Hq.
    + intros ->. destruct (customQuestion_Some _ _ _ Hq) as [_ Hc].
      apply Contains_in_empty, ToLower_empty in Hc. subst field. split; [reflexivity|].
      destruct customFollowUp as [|q rest]; [discriminate|]. simpl in Hq.
      rewrite Contains_empty in Hq. injection Hq as ->. eauto.
    + intros H. now apply defaultQuestion_nonempty in H.
  - intros [-> [rest ->]]. reflexivity.
Qed.

Section AddMissing.

Variable p : EnhancedLocalProvider.
Variable intent : Intent.
Variable intentName : string.
Variable intentPattern : IntentPattern.t.
Hypothesis Hexists : Intents (config p) !! intentName = Some intentPattern.

Let r := addMissingFieldsAndFollowUp p intent intentName.

Lemma addMissing_Missing :
  Missing r = List.filter (isMissing (Vars intent)) (IntentPattern.Required intentPattern).
Proof. unfold r, addMissingFieldsAndFollowUp. rewrite Hexists. reflexivity. Qed.

Lemma addMissing_FollowUp :
  FollowUp r
  = List.filter (fun question => negb (String.eqb question EmptyString))
      (List.map (fun field =>
                   generateFollowUpQuestion intentName field
                     (IntentPattern.FollowUp intentPattern)) (Missing r)).
Proof. unfold r, addMissingFieldsAndFollowUp. rewrite Hexists. reflexivity. Qed.

Lemma addMissing_IsComplete : IsComplete r = true <-> Missing r = [].
Proof.
  unfold r, addMissingFieldsAndFollowUp. rewrite Hexists. simpl.
  destruct (List.filter _ _); simpl; split; intros H; congruence.
Qed.

Lemma addMissing_Missing_iff field :
  In field (Missing r)
  <-> In field (IntentPattern.Required intentPattern)
      /\ (Vars r !! field = None \/ Vars r !! field = Some (VString EmptyString)).
Proof.
  unfold r at 2 3. rewrite addMissing_Vars, addMissing_Missing, filter_In, isMissing_spec.
  reflexivity.
Qed.

Lemma addMissing_prompt field :
  In field (Missing r) ->
  let question :=
    generateFollowUpQuestion intentName field (IntentPattern.FollowUp intentPattern) in
  question <> EmptyString -> In question (FollowUp r).
Proof.
  intros Hin question Hne. rewrite addMissing_FollowUp. apply filter_In. split.
  - apply in_map_iff. eauto.
  - destruct (String.eqb_spec question EmptyString); [contradiction | reflexivity].
Qed.

End AddMissing.

(** C10. Every result of ExtractIntent holds the classification confidence
    under the key "confidence" of its variable map, whatever the entity map
    held under that key, and "confidence" is never in the missing list. *)
Theorem C10_confidence_always_present :
  forall (p : EnhancedLocalProvider) oi o1 o2 o3 (text : string),
    let r := ExtractIntent p oi o1 o2 o3 text in
    Vars r !! "confidence"
      = Some (VFloat (Confidence_ (classifyIntent p oi (normalizeText text))))
    /\ Vars r = <["confidence" :=
                  VFloat (Confidence_ (classifyIntent p oi (normalizeText text)))]>
                 (VString <$> extractEntities p o1 o2 o3 text)
    /\ ~ In "confidence" (Missing r).
Proof.
  intros p oi o1 o2 o3 text r.
  assert (Hv : Vars r !! "confidence"
               = Some (VFloat (Confidence_ (classifyIntent p oi (normalizeText text))))).
  { unfold r. rewrite ExtractIntent_Vars. apply lookup_insert_eq. }
  split; [exact Hv|]. split; [apply ExtractIntent_Vars|].
  unfold r, ExtractIntent in *. destruct (negb _); [|simpl; tauto].
  set (res := {| Task := _ |}) in *.
  destruct (Intents (config p) !! Intent_ (classifyIntent p oi (normalizeText text)))
    as [pat|] eqn:Hpat.
  - rewrite (addMissing_Missing_iff _ _ _ _ Hpat). intros [_ [H|H]]; congruence.
  - unfold addMissingFieldsAndFollowUp. rewrite Hpat. simpl. tauto.
Qed.

(** C9, as stated, fails on one input: a required field whose name is the
    empty string, with an empty first custom question.  The field is missing,
    the question generated for it is empty, and no prompt is produced. *)
Lemma C9_blank_field_counterexample :
  let p := blankFieldProvider in
  let r := ExtractIntent p (map_to_list (Intents (config p))) [] [] [] "x" in
  map_to_list (Entities (config p)) = []
  /\ Task r = "X"
  /\ Missing r = [EmptyString]
  /\ generateFollowUpQuestion "X" EmptyString [EmptyString] = EmptyString
  /\ FollowUp r = []
  /\ IsComplete r = false.
Proof. vm_compute. repeat split; reflexivity. Qed.

(** C9, amended.  When ExtractIntent selects a concrete intent, that intent
    is configured, and: a name is in the missing list exactly when it is a
    required field of the intent that is absent from the variables or present
    with an empty value; the question generated for a missing field is the
    first custom question of the list that contains the field name (compared
    in lower case), verbatim, and the default question of the field when no
    custom question of the list contains the field name; that question
    is non-empty, and is then among the follow-up prompts, unless the field
    name is the empty string and the first custom question is the empty
    string; the follow-up prompts are the non-empty questions of the missing
    fields, in order; and IsComplete holds exactly when nothing is missing. *)
Theorem C9_missing_fields_and_follow_up :
  forall (p : EnhancedLocalProvider) oi o1 o2 o3 (text : string),
    oi ≡ₚ map_to_list (Intents (config p)) ->
    let r := ExtractIntent p oi o1 o2 o3 text in
    Task r <> "UNKNOWN" ->
    exists intentPattern,
      Intents (config p) !! Task r = Some intentPattern
      /\ (forall field,
            In field (Missing r)
            <-> In field (IntentPattern.Required intentPattern)
                /\ (Vars r !! field = None
                    \/ Vars r !! field = Some (VString EmptyString)))
      /\ (forall field,
            In field (Missing r) ->
            let question :=
              generateFollowUpQuestion (Task r) field
                (IntentPattern.FollowUp intentPattern) in
            (question = EmptyString
             <-> field = EmptyString
                 /\ exists rest, IntentPattern.FollowUp intentPattern = EmptyString :: rest)
            /\ (question <> EmptyString -> In question (FollowUp r))
            /\ ((exists before custom after,
                   IntentPattern.FollowUp intentPattern
                   = (before ++ custom :: after)%list
                   /\ (forall q, In q before ->
                        Contains (ToLower q) (ToLower field) = false)
                   /\ Contains (ToLower custom) (ToLower field) = true
                   /\ question = custom)
                \/ ((forall q, In q (IntentPattern.FollowUp intentPattern) ->
                       Contains (ToLower q) (ToLower field) = false)
                    /\ question = defaultQuestion (Task r) field)))
      /\ FollowUp r
         = List.filter (fun question => negb (String.eqb question EmptyString))
             (List.map (fun field =>
                          generateFollowUpQuestion (Task r) field
                            (IntentPattern.FollowUp intentPattern)) (Missing r))
      /\ (IsComplete r = true <-> Missing r = []).
Proof.
  intros p oi o1 o2 o3 text Hperm r Hknown.
  assert (HT : Task r = Intent_ (classifyIntent p oi (normalizeText text)))
    by apply ExtractIntent_Task.
  assert (Hcfg : exists pat, Intents (config p) !! Task r = Some pat).
  { rewrite HT in *.
    destruct (classifyIntent_cases p oi (normalizeText text)) as [[_ Hc] | [_ Hc]];
      rewrite Hc in *; simpl in *; [congruence|].
    destruct (bestOf_origin p (normalizeText text) oi) as [Hb | ([n pat] & Hin & Hb)];
      rewrite Hb in *; simpl in *; [congruence|].
    exists pat. apply elem_of_map_to_list. rewrite <- Hperm. now apply list_elem_of_In. }
  destruct Hcfg as [pat Hpat]. exists pat. split; [exact Hpat|].
  assert (Hr : r = addMissingFieldsAndFollowUp p
                     {| Task := Intent_ (classifyIntent p oi (normalizeText text));
                        Vars := <["confidence" :=
                                  VFloat (Confidence_ (classifyIntent p oi (normalizeText text)))]>
                                  (VString <$> extractEntities p o1 o2 o3 text);
                        Missing := []; FollowUp := []; IsComplete := false |}
                     (Intent_ (classifyIntent p oi (normalizeText text)))).
  { unfold r, ExtractIntent.
    destruct (String.eqb_spec (Intent_ (classifyIntent p oi (normalizeText text))) "UNKNOWN")
      as [Heq|Hne]; [congruence | reflexivity]. }
  rewrite HT in *. clearbody r. subst r.
  split; [|split; [|split]].
  - intros field. apply addMissing_Missing_iff. exact Hpat.
  - intros field Hin question. split; [apply generateFollowUpQuestion_empty|].
    split; [now apply (addMissing_prompt _ _ _ _ Hpat)|].
    unfold question, generateFollowUpQuestion.
    destruct (customQuestion field (IntentPattern.FollowUp pat)) as [custom|] eqn:Hq.
    + left. destruct (customQuestion_first _ _ _ Hq) as (before & after & Hl & Hb & Hc).
      exists before, custom, after. repeat split; assumption.
    + right. split; [exact (customQuestion_None _ _ Hq) | reflexivity].
  - apply (addMissing_FollowUp _ _ _ _ Hpat).
  - apply (addMissing_IsComplete _ _ _ _ Hpat).
Qed.

Lemma C9_witness :
  let p := noteProvider in
  let oi := map_to_list (Intents (config p)) in
  let r := ExtractIntent p oi [] [] [] "note" in
  oi ≡ₚ map_to_list (Intents (config p))
  /\ Task r <> "UNKNOWN"
  /\ (Missing r = ["title"; "email"; "mood"]
      /\ FollowUp r = ["What should I call this note?"; "What is their EMAIL?";
                       "What mood should I use for this note?"]
      /\ IsComplete r = false)
  /\ exists intentPattern,
      Intents (config p) !! Task r = Some intentPattern
      /\ (IsComplete r = true <-> Missing r = []).
Proof.
  cbv zeta.
  assert (Hperm : map_to_list (Intents (config noteProvider))
                    ≡ₚ map_to_list (Intents (config noteProvider))) by reflexivity.
  assert (Hknown : Task (ExtractIntent noteProvider
                           (map_to_list (Intents (config noteProvider))) [] [] [] "note")
                   <> "UNKNOWN") by (vm_compute; discriminate).
  split; [exact Hperm|]. split; [exact Hknown|].
  split; [vm_compute; repeat split; reflexivity|].
  destruct (C9_missing_fields_and_follow_up noteProvider _ [] [] [] "note" Hperm Hknown)
    as (pat & Hpat & _ & _ & _ & Hcomplete).
  exists pat. split; assumption.
Defined.

(** ** The quoted span *)

Lemma quotePattern_tree : quotePattern = Regexp.of_re quoteTree.
Proof. reflexivity. Qed.

Lemma code_inj (a b : ascii) : code a = code b -> a = b.
Proof.
  unfold code. intros H. rewrite <- (ascii_N_embedding a), <- (ascii_N_embedding b).
  now rewrite H.
Qed.

Lemma between_same (c a : ascii) : between c c a = Ascii.eqb a c.
Proof.
  unfold between. destruct (Ascii.eqb_spec a c) as [->|Hne].
  - now rewrite N.leb_refl.
  - destruct (code c <=? code a)%N eqn:H1, (code a <=? code c)%N eqn:H2; try reflexivity.
    apply N.leb_le in H1, H2. exfalso. apply Hne, code_inj. lia.
Qed.

Lemma class_single (c a : ascii) (neg : bool) :
  Regexp.class_matches false neg [(c, c)] a = xorb neg (Ascii.eqb a c).
Proof.
  unfold Regexp.class_matches, Regexp.in_ranges. simpl. rewrite between_same.
  now rewrite !orb_false_r.
Qed.

Lemma length_app_string (a b : string) :
  String.length (a ++ b) = (String.length a + String.length b)%nat.
Proof. induction a as [|c a IH]; simpl; [reflexivity | now rewrite IH]. Qed.

Lemma take_app_string (a b : string) : take (String.length a) (a ++ b) = a.
Proof. induction a as [|c a IH]; simpl; [now destruct b | now rewrite IH]. Qed.

Lemma consumed_app (a b : string) : Regexp.consumed (a ++ b) b = a.
Proof.
  unfold Regexp.consumed. rewrite length_app_string.
  replace (String.length a + String.length b - String.length b)%nat
    with (String.length a) by lia.
  apply take_app_string.
Qed.

Lemma append_nil_l (s : string) : EmptyString ++ s = s.
Proof. reflexivity. Qed.

Lemma append_cons (c : ascii) (a b : string) : String c a ++ b = String c (a ++ b).
Proof. reflexivity. Qed.

Lemma append_assoc_string (a b c : string) : (a ++ b) ++ c = a ++ (b ++ c).
Proof.
  induction a as [|x a IH]; [reflexivity|]. rewrite !append_cons. now rewrite IH.
Qed.

(** The greedy loop over bytes other than a quote runs to the next quote,
    when the continuation accepts what follows. *)
Lemma star_loop_to_quote (k : string -> Regexp.caps -> Regexp.result)
    (body rest : string) (c : Regexp.caps) (fuel : nat) (m : string * Regexp.caps) :
  quote_free body = true ->
  (String.length body <= fuel)%nat ->
  k (String "034" rest) c = Some m ->
  Regexp.star_loop (Regexp.exec (Regexp.Chars false true [("034", "034")]%char))
    k fuel (body ++ String "034" rest) c
  = Some m.
Proof.
  intros Hfree Hfuel Hk. revert fuel Hfuel.
  induction body as [|b body IH]; intros fuel Hfuel.
  - rewrite append_nil_l. destruct fuel as [|fuel]; cbn [Regexp.star_loop]; [exact Hk|].
    cbn [Regexp.exec]. rewrite class_single, Ascii.eqb_refl. cbn [xorb]. exact Hk.
  - simpl in Hfree. apply andb_prop in Hfree as [Hb Hfree].
    apply negb_true_iff in Hb.
    destruct fuel as [|fuel]; [simpl in Hfuel; lia|].
    rewrite append_cons. cbn [Regexp.star_loop Regexp.exec]. rewrite class_single, Hb.
    cbn [xorb].
    replace (String.length (body ++ String "034" rest)
               <? String.length (String b (body ++ String "034" rest)))%nat
      with true by (symmetry; apply Nat.ltb_lt; simpl; lia).
    rewrite IH; [reflexivity | assumption | simpl in Hfuel; lia].
Qed.

(** At an opening quote followed by a non-empty span without quote and a
    closing quote, the pattern matches up to the closing quote and its group
    holds the span. *)
Lemma exec_at_quoted (body post : string) :
  quote_free body = true -> body <> EmptyString ->
  Regexp.exec_at quoteTree (String "034" (body ++ String "034" post))
  = Some (post, [(1%nat, body)]).
Proof.
  intros Hfree Hne. destruct body as [|b body]; [contradiction|].
  simpl in Hfree. apply andb_prop in Hfree as [Hb Hfree].
  apply negb_true_iff in Hb.
  unfold Regexp.exec_at, quoteTree.
  rewrite append_cons. cbn [Regexp.exec]. rewrite !class_single.
  rewrite Ascii.eqb_refl, Hb. cbn [xorb].
  rewrite (star_loop_to_quote _ body post [] _
             (post, [(1%nat, String b body)])); [reflexivity | assumption | | ].
  - rewrite length_app_string. lia.
  - cbn [Regexp.exec]. rewrite class_single, Ascii.eqb_refl. cbn [xorb].
    change (String b (body ++ String "034" post))
      with (String b body ++ String "034" post).
    now rewrite consumed_app.
Qed.

Lemma exec_at_not_quote (c : ascii) (s : string) :
  Ascii.eqb c "034" = false -> Regexp.exec_at quoteTree (String c s) = None.
Proof.
  intros Hc. unfold Regexp.exec_at, quoteTree. cbn [Regexp.exec].
  now rewrite class_single, Hc.
Qed.

(** The leftmost match of the pattern in a text whose first quote opens a
    non-empty span. *)
Lemma search_quoted (pre body post : string) :
  quote_free pre = true -> quote_free body = true -> body <> EmptyString ->
  Regexp.search quoteTree (pre ++ String "034" (body ++ String "034" post))
  = Some (String "034" (body ++ String "034" EmptyString), [(1%nat, body)]).
Proof.
  intros Hpre Hfree Hne. induction pre as [|c pre IH].
  - rewrite append_nil_l. cbn [Regexp.search]. rewrite exec_at_quoted by assumption.
    f_equal. f_equal.
    replace (String "034" (body ++ String "034" post))
      with (String "034" (body ++ String "034" EmptyString) ++ post).
    + apply consumed_app.
    + rewrite append_cons, append_assoc_string, append_cons, append_nil_l. reflexivity.
  - simpl in Hpre. apply andb_prop in Hpre as [Hc Hpre].
    rewrite append_cons. cbn [Regexp.search].
    rewrite exec_at_not_quote by now apply negb_true_iff.
    now apply IH.
Qed.

Lemma quotedSpan_quoted (pre body post : string) :
  quote_free pre = true -> quote_free body = true -> body <> EmptyString ->
  quotedSpan (pre ++ quote ++ body ++ quote ++ post) = Some body.
Proof.
  intros Hpre Hfree Hne. unfold quotedSpan. rewrite quotePattern_tree.
  cbn [Regexp.FindStringSubmatch Regexp.of_re]. unfold Regexp.find_re.
  change (pre ++ quote ++ body ++ quote ++ post)
    with (pre ++ String "034" (body ++ String "034" post)).
  rewrite search_quoted by assumption. reflexivity.
Qed.

(** ** The loops of extractEntities *)

Lemma regexLoop_spec regexes text entityName (entities : gmap string string) :
  regexLoop regexes text entityName entities
  = match regexValue regexes text with
    | Some v => <[entityName := v]> entities
    | None => entities
    end.
Proof.
  induction regexes as [|re rest IH]; simpl; [reflexivity|].
  destruct (1 <? List.length (Regexp.FindStringSubmatch re text))%nat; [reflexivity | apply IH].
Qed.

(** The body of the loops touches the entry of its entity only, and what it
    leaves there depends on that entry only. *)
Lemma extractOne_lookup p text (entities : gmap string string) entityName entity k :
  extractOne p text entities (entityName, entity) !! k
  = if decide (k = entityName)
    then entityValue p text entityName entity (entities !! entityName)
    else entities !! k.
Proof.
  unfold extractOne, entityValue. rewrite regexLoop_spec.
  destruct (regexValue (at_key (EntityRegexes (compiled p)) entityName) text) as [v|];
    destruct (decide (k = entityName)) as [->|Hne];
    rewrite ?lookup_insert_eq; cbn [default];
    repeat match goal with
    | |- context [if ?b then _ else _] => destruct b
    end;
    rewrite ?lookup_insert_eq, ?lookup_insert_ne by congruence; reflexivity.
Qed.

Section Pass.

Variable cond : string -> bool.
Variable p : EnhancedLocalProvider.
Variable text : string.

(** A name that the loop does not process keeps its entry. *)
Lemma pass_lookup_out order (entities : gmap string string) k :
  cond k = false \/ ~ In k (order.*1) ->
  pass cond p text order entities !! k = entities !! k.
Proof.
  revert entities. induction order as [|[n e] order IH]; intros entities Hk;
    [reflexivity|].
  unfold pass in *. cbn [fold_left fst]. rewrite IH.
  - destruct (cond n) eqn:Hn; [|reflexivity].
    rewrite extractOne_lookup. rewrite decide_False; [reflexivity|].
    intros ->. destruct Hk as [Hk|Hk]; [congruence|]. apply Hk. now left.
  - destruct Hk as [Hk|Hk]; [now left | right]. intros Hin. apply Hk. now right.
Qed.

(** A name that the loop processes once gets the value of its entity. *)
Lemma pass_lookup_in order (entities : gmap string string) k e :
  NoDup (order.*1) -> In (k, e) order -> cond k = true ->
  pass cond p text order entities !! k
  = entityValue p text k e (entities !! k).
Proof.
  revert entities. induction order as [|[n e0] order IH]; intros entities Hnd Hin Hk;
    [contradiction|].
  apply NoDup_cons in Hnd as [Hn Hnd].
  unfold pass in *. cbn [fold_left fst]. destruct Hin as [[= -> ->] | Hin].
  - rewrite Hk. change (fold_left _ order ?x) with (pass cond p text order x).
    rewrite pass_lookup_out.
    + rewrite extractOne_lookup. now rewrite decide_True.
    + right. intros Hin. apply Hn. now apply list_elem_of_In.
  - assert (Hne : k <> n).
    { intros ->. apply Hn. apply list_elem_of_fmap. exists (n, e).
      split; [reflexivity | now apply list_elem_of_In]. }
    rewrite IH by assumption. f_equal.
    destruct (cond n); [|reflexivity].
    rewrite extractOne_lookup. now rewrite decide_False.
Qed.

(** The loop does not depend on the order of a duplicate-free traversal. *)
Lemma pass_perm order order' (entities : gmap string string) :
  NoDup (order.*1) -> order ≡ₚ order' ->
  pass cond p text order entities = pass cond p text order' entities.
Proof.
  intros Hnd Hperm. assert (Hnd' : NoDup (order'.*1)) by now rewrite <- Hperm.
  apply map_eq. intros k.
  destruct (cond k) eqn:Hk; [|now rewrite !pass_lookup_out by auto].
  destruct (decide (k ∈ order.*1)) as [Hin|Hout].
  - apply list_elem_of_fmap in Hin as ([k' e] & -> & Hin). cbn [fst] in *.
    rewrite (pass_lookup_in order _ k' e), (pass_lookup_in order' _ k' e); auto.
    + apply list_elem_of_In. rewrite <- Hperm. exact Hin.
    + now apply list_elem_of_In.
  - rewrite !pass_lookup_out; auto.
    + right. rewrite <- list_elem_of_In, <- Hperm. exact Hout.
    + right. now rewrite <- list_elem_of_In.
Qed.

End Pass.

Lemma fold_left_step_ext {A B : Type} (f g : A -> B -> A) (l : list B) (a : A) :
  (forall x y, f x y = g x y) -> fold_left f l a = fold_left g l a.
Proof.
  intros Hfg. revert a. induction l as [|y l IH]; intros a; simpl; [reflexivity|].
  now rewrite Hfg, IH.
Qed.

(** extractEntities is its three loops, one after the other. *)
Lemma extractEntities_passes p o1 o2 o3 text :
  extractEntities p o1 o2 o3 text
  = pass (fun n => negb (String.eqb n "name" || String.eqb n "title")) p text o3
      (pass (fun n => String.eqb n "title") p text o2
         (pass (fun n => String.eqb n "name") p text o1 ∅)).
Proof.
  unfold extractEntities, pass. apply fold_left_step_ext.
  intros ents entry. now destruct (String.eqb (fst entry) "name" || String.eqb (fst entry) "title").
Qed.

(** extractEntities does not depend on the orders of its three loops. *)
Lemma extractEntities_perm p o1 o2 o3 o1' o2' o3' text :
  NoDup (o1.*1) -> NoDup (o2.*1) -> NoDup (o3.*1) ->
  o1 ≡ₚ o1' -> o2 ≡ₚ o2' -> o3 ≡ₚ o3' ->
  extractEntities p o1 o2 o3 text = extractEntities p o1' o2' o3' text.
Proof.
  intros H1 H2 H3 P1 P2 P3. rewrite !extractEntities_passes.
  rewrite (pass_perm _ p text o1 o1') by assumption.
  rewrite (pass_perm _ p text o2 o2') by assumption.
  now rewrite (pass_perm _ p text o3 o3') by assumption.
Qed.

(** ** The quoted span as the name *)

Lemma no_first_group_regexValue regexes text :
  no_first_group regexes text = true ->
  regexValue regexes text = None \/ regexValue regexes text = Some EmptyString.
Proof.
  unfold no_first_group. induction regexes as [|re rest IH]; simpl; [auto|].
  intros H. apply andb_prop in H as [Hre Hrest].
  destruct (1 <? List.length (Regexp.FindStringSubmatch re text))%nat; [|auto].
  right. f_equal. now apply String.eqb_eq.
Qed.

(** C5, as stated, fails: the patterns of the name entity are tried before
    the quoted span.  With the built-in configuration the text
    [named Bob "Al"] yields the name Bob, not the quoted Al. *)
Lemma C5_regex_before_quotes_counterexample :
  let p := defaultProvider in
  let text := "named Bob " ++ quote ++ "Al" ++ quote in
  let oe := map_to_list (Entities (config p)) in
  NewDefaultProvider = Some p
  /\ is_Some (Entities (config p) !! "name")
  /\ quotedSpan text = Some "Al"
  /\ extractEntities p oe oe oe text !! "name" = Some "Bob".
Proof.
  split; [apply NewDefaultProvider_ok|].
  split; [eexists; vm_compute; reflexivity|].
  split; vm_compute; reflexivity.
Qed.

(** The span found is the leftmost one with a non-empty content: after an
    empty pair of quotes it is the text between that pair and the next quote. *)
Example quotedSpan_after_empty_quotes :
  quotedSpan (quote ++ quote ++ " and " ++ quote ++ "Al" ++ quote) = Some " and ".
Proof. vm_compute. reflexivity. Qed.

(** C5, amended.  When the name entity is configured, no pattern of the name
    entity captures a non-empty first group in the text, and the first double
    quote of the text opens a non-empty span that a second double quote
    closes, the extracted name is that span, exactly: the quoted span takes
    precedence over the anchor keywords, wherever they stand in the text. *)
Theorem C5_quoted_span_is_the_name :
  forall (p : EnhancedLocalProvider) o1 o2 o3 (pre body post : string),
    let text := pre ++ quote ++ body ++ quote ++ post in
    o1 ≡ₚ map_to_list (Entities (config p)) ->
    is_Some (Entities (config p) !! "name") ->
    no_first_group (at_key (EntityRegexes (compiled p)) "name") text = true ->
    quote_free pre = true -> quote_free body = true -> body <> EmptyString ->
    extractEntities p o1 o2 o3 text !! "name" = Some body.
Proof.
  intros p o1 o2 o3 pre body post text Hperm [entity Hname] Hre Hpre Hbody Hne.
  rewrite extractEntities_passes.
  rewrite !pass_lookup_out by (left; reflexivity).
  rewrite (pass_lookup_in _ p text o1 _ "name" entity).
  - unfold entityValue.
    assert (Hkw : extractEntityByKeywords p text "name" entity = body).
    { unfold extractEntityByKeywords. cbn [String.eqb Ascii.eqb Bool.eqb].
      unfold text. now rewrite quotedSpan_quoted. }
    rewrite Hkw. rewrite lookup_empty.
    destruct (no_first_group_regexValue _ _ Hre) as [-> | ->]; cbn [default String.eqb];
      destruct (String.eqb_spec body EmptyString); try contradiction; reflexivity.
  - rewrite Hperm. apply NoDup_fst_map_to_list.
  - apply list_elem_of_In. rewrite Hperm. now apply elem_of_map_to_list.
  - reflexivity.
Qed.

Lemma C5_witness :
  let p := defaultProvider in
  let oe := map_to_list (Entities (config p)) in
  let pre := "add contact " in
  let body := "Al Green" in
  let post := " with phone 555-123-4567" in
  let text := pre ++ quote ++ body ++ quote ++ post in
  oe ≡ₚ map_to_list (Entities (config p))
  /\ is_Some (Entities (config p) !! "name")
  /\ no_first_group (at_key (EntityRegexes (compiled p)) "name") text = true
  /\ quote_free pre = true /\ quote_free body = true /\ body <> EmptyString
  /\ extractEntities p oe oe oe text !! "name" = Some body.
Proof.
  cbv zeta.
  assert (H1 : map_to_list (Entities (config defaultProvider))
                 ≡ₚ map_to_list (Entities (config defaultProvider))) by reflexivity.
  assert (H2 : is_Some (Entities (config defaultProvider) !! "name"))
    by (eexists; vm_compute; reflexivity).
  assert (H3 : no_first_group (at_key (EntityRegexes (compiled defaultProvider)) "name")
                 ("add contact " ++ quote ++ "Al Green" ++ quote
                  ++ " with phone 555-123-4567") = true)
    by (vm_compute; reflexivity).
  assert (H4 : quote_free "add contact " = true) by reflexivity.
  assert (H5 : quote_free "Al Green" = true) by reflexivity.
  assert (H6 : "Al Green" <> EmptyString) by discriminate.
  repeat (split; [assumption|]).
  exact (C5_quoted_span_is_the_name defaultProvider _ _ _ "add contact " "Al Green"
           " with phone 555-123-4567" H1 H2 H3 H4 H5 H6).
Defined.

(** ** Determinism and the order of the traversals *)

Lemma NoDup_fst_In_eq {A : Type} (l : list (string * A)) k (x y : A) :
  NoDup (l.*1) -> In (k, x) l -> In (k, y) l -> x = y.
Proof.
  induction l as [|[k' z] l IH]; intros Hnd Hx Hy; [contradiction|].
  rewrite fmap_cons in Hnd. apply NoDup_cons in Hnd as [Hk Hnd].
  assert (Hout : forall v, In (k', v) l -> False).
  { intros v Hv. apply Hk. apply list_elem_of_fmap. exists (k', v).
    split; [reflexivity | now apply list_elem_of_In]. }
  destruct Hx as [Hx|Hx], Hy as [Hy|Hy].
  - congruence.
  - injection Hx as -> _. exfalso. eauto.
  - injection Hy as -> _. exfalso. eauto.
  - eauto.
Qed.

(** An intent strictly above every other intent, and above 0, is the result
    of the loop of classifyIntent in every duplicate-free order. *)
Lemma bestOf_unique_top p text order top :
  NoDup (order.*1) -> In top order ->
  (forall e, In e order -> fst e <> fst top ->
     (boostedScore p text e <? boostedScore p text top)%float = true) ->
  (0 <? boostedScore p text top)%float = true ->
  bestOf p text order = (fst top, boostedScore p text top).
Proof.
  intros Hnd Hin Hall Hpos.
  destruct (in_split _ _ Hin) as (l1 & l2 & ->).
  rewrite fmap_app, fmap_cons in Hnd.
  apply NoDup_app in Hnd as (_ & Hl1 & Hnd). apply NoDup_cons in Hnd as [Hl2 _].
  assert (Hne : forall x, In x l1 \/ In x l2 -> fst x <> fst top).
  { intros x Hx Heq. destruct Hx as [Hx|Hx].
    - apply (Hl1 (fst x)).
      + apply list_elem_of_fmap. exists x. split; [reflexivity | now apply list_elem_of_In].
      + rewrite Heq. now left.
    - apply Hl2. rewrite <- Heq. apply list_elem_of_fmap. exists x.
      split; [reflexivity | now apply list_elem_of_In]. }
  unfold bestOf. apply loop_first_max.
  - exact Hpos.
  - intros x Hx. apply Hall; [apply in_or_app; now left | apply Hne; now left].
  - intros x Hx. apply ltb_asym. apply Hall; [|apply Hne; now right].
    apply in_or_app. right. now right.
Qed.

(** Without a tie at the top the loop of classifyIntent ends in the same
    state in every order. *)
Lemma bestOf_perm p text order order' :
  NoDup (order.*1) -> order ≡ₚ order' ->
  (exists top, In top order
     /\ forall e, In e order -> fst e <> fst top ->
          (boostedScore p text e <? boostedScore p text top)%float = true)
  \/ (forall e, In e order -> (0 <? boostedScore p text e)%float = false) ->
  bestOf p text order = bestOf p text order'.
Proof.
  intros Hnd Hperm Hcase.
  assert (Hnd' : NoDup (order'.*1)) by now rewrite <- Hperm.
  assert (Hin : forall e, In e order' <-> In e order).
  { intros e. rewrite <- !list_elem_of_In. now rewrite Hperm. }
  assert (Hlow : (forall e, In e order -> (0 <? boostedScore p text e)%float = false) ->
                 bestOf p text order = bestOf p text order').
  { intros Hall. unfold bestOf. rewrite !loop_stays; [reflexivity | |]; simpl.
    - intros e He. apply Hall. now apply Hin.
    - exact Hall. }
  destruct Hcase as [(top & Htop & Hall) | Hall]; [|now apply Hlow].
  destruct (0 <? boostedScore p text top)%float eqn:Hpos.
  - rewrite (bestOf_unique_top p text order top), (bestOf_unique_top p text order' top);
      auto.
    + now apply Hin.
    + intros e He. apply Hall. now apply Hin.
  - apply Hlow. intros e He.
    destruct (String.eqb_spec (fst e) (fst top)) as [Heq|Hne].
    + assert (e = top) as ->; [|exact Hpos].
      destruct e as [n x], top as [n' x']. simpl in Heq. subst n'.
      f_equal. exact (NoDup_fst_In_eq order n x x' Hnd He Htop).
    + destruct (0 <? boostedScore p text e)%float eqn:He0; [|reflexivity].
      now rewrite (ltb_trans _ _ _ He0 (Hall e He Hne)) in Hpos.
Qed.

Lemma classifyIntent_perm p text order order' :
  bestOf p text order = bestOf p text order' ->
  classifyIntent p order text = classifyIntent p order' text.
Proof. unfold classifyIntent. now intros ->. Qed.

Lemma ExtractIntent_congr p oi oi' o1 o2 o3 o1' o2' o3' text :
  classifyIntent p oi (normalizeText text) = classifyIntent p oi' (normalizeText text) ->
  extractEntities p o1 o2 o3 text = extractEntities p o1' o2' o3' text ->
  ExtractIntent p oi o1 o2 o3 text = ExtractIntent p oi' o1' o2' o3' text.
Proof. unfold ExtractIntent. now intros -> ->. Qed.

(** C2, as stated, fails: Go leaves the order of a range over a map
    unspecified, and on an exact tie of the highest score the result is the
    intent that the traversal happens to reach first.  Two intents with the
    same keywords and priority: one traversal answers A, the other B. *)
Lemma C2_tie_depends_on_order_counterexample :
  let p := tieProvider in
  let oi := map_to_list (Intents (config p)) in
  oi ≡ₚ map_to_list (Intents (config p))
  /\ rev oi ≡ₚ map_to_list (Intents (config p))
  /\ map_to_list (Entities (config p)) = []
  /\ Task (ExtractIntent p oi [] [] [] "x") = "A"
  /\ Task (ExtractIntent p (rev oi) [] [] [] "x") = "B"
  /\ ExtractIntent p oi [] [] [] "x" <> ExtractIntent p (rev oi) [] [] [] "x".
Proof.
  cbv zeta. split; [reflexivity|]. split; [symmetry; apply Permutation_rev|].
  assert (HA : Task (ExtractIntent tieProvider
                       (map_to_list (Intents (config tieProvider))) [] [] [] "x") = "A")
    by (vm_compute; reflexivity).
  assert (HB : Task (ExtractIntent tieProvider
                       (rev (map_to_list (Intents (config tieProvider)))) [] [] [] "x") = "B")
    by (vm_compute; reflexivity).
  split; [vm_compute; reflexivity|]. split; [exact HA|]. split; [exact HB|].
  intros Heq.
  pose proof (eq_trans (eq_sym HA) (eq_trans (f_equal Task Heq) HB)) as HAB.
  discriminate HAB.
Qed.

(** C2, amended.  ExtractIntent is a function of the text, the compiled
    configuration and the order in which the intents are visited.  The
    entity map does not depend on the order in which the entities are
    visited.  When one intent scores strictly above every other intent (no
    exact tie at the top), or no intent scores above 0, the whole result is
    the same for every order.  On an exact tie the intent visited first wins:
    an intent that scores above 0, strictly above the intents visited before
    it and not strictly below any intent visited after it, is the one the
    loop of classifyIntent ends on. *)
Theorem C2_deterministic_up_to_ties :
  forall (p : EnhancedLocalProvider) (text : string)
         (oi oi' : list (string * IntentPattern.t))
         (o1 o2 o3 o1' o2' o3' : list (string * EntityPattern.t)),
    oi ≡ₚ map_to_list (Intents (config p)) ->
    oi' ≡ₚ map_to_list (Intents (config p)) ->
    o1 ≡ₚ map_to_list (Entities (config p)) ->
    o2 ≡ₚ map_to_list (Entities (config p)) ->
    o3 ≡ₚ map_to_list (Entities (config p)) ->
    o1' ≡ₚ map_to_list (Entities (config p)) ->
    o2' ≡ₚ map_to_list (Entities (config p)) ->
    o3' ≡ₚ map_to_list (Entities (config p)) ->
    let score := boostedScore p (normalizeText text) in
    extractEntities p o1 o2 o3 text = extractEntities p o1' o2' o3' text
    /\ ((exists top, In top oi
           /\ forall e, In e oi -> fst e <> fst top -> (score e <? score top)%float = true)
        \/ (forall e, In e oi -> (0 <? score e)%float = false) ->
        ExtractIntent p oi o1 o2 o3 text = ExtractIntent p oi' o1' o2' o3' text)
    /\ (forall l1 e l2,
          oi = (l1 ++ e :: l2)%list ->
          (0 <? score e)%float = true ->
          (forall x, In x l1 -> (score x <? score e)%float = true) ->
          (forall x, In x l2 -> (score e <? score x)%float = false) ->
          bestOf p (normalizeText text) oi = (fst e, score e)).
Proof.
  intros p text oi oi' o1 o2 o3 o1' o2' o3' Hoi Hoi' H1 H2 H3 H1' H2' H3' score.
  assert (Hents : extractEntities p o1 o2 o3 text = extractEntities p o1' o2' o3' text).
  { apply extractEntities_perm.
    - rewrite H1. apply NoDup_fst_map_to_list.
    - rewrite H2. apply NoDup_fst_map_to_list.
    - rewrite H3. apply NoDup_fst_map_to_list.
    - now rewrite H1, H1'.
    - now rewrite H2, H2'.
    - now rewrite H3, H3'. }
  split; [exact Hents|]. split.
  - intros Hcase. apply ExtractIntent_congr; [|exact Hents].
    apply classifyIntent_perm, bestOf_perm.
    + rewrite Hoi. apply NoDup_fst_map_to_list.
    + now rewrite Hoi, Hoi'.
    + exact Hcase.
  - intros l1 e l2 -> Hpos Hbefore Hafter. unfold bestOf. now apply loop_first_max.
Qed.

Lemma C2_witness :
  let p := defaultProvider in
  let oi := map_to_list (Intents (config p)) in
  let oe := map_to_list (Entities (config p)) in
  let text := "Find contact Alice, phone 555-123-4567" in
  oi ≡ₚ map_to_list (Intents (config p))
  /\ rev oi ≡ₚ map_to_list (Intents (config p))
  /\ oe ≡ₚ map_to_list (Entities (config p))
  /\ rev oe ≡ₚ map_to_list (Entities (config p))
  /\ extractEntities p oe oe oe text = extractEntities p (rev oe) oe (rev oe) text
  /\ ExtractIntent p oi oe oe oe text = ExtractIntent p (rev oi) (rev oe) oe (rev oe) text
  /\ Task (ExtractIntent p oi oe oe oe text) = "FIND_CONTACT".
Proof.
  cbv zeta.
  assert (Hoi : map_to_list (Intents (config defaultProvider))
                  ≡ₚ map_to_list (Intents (config defaultProvider))) by reflexivity.
  assert (Hoi' : rev (map_to_list (Intents (config defaultProvider)))
                   ≡ₚ map_to_list (Intents (config defaultProvider)))
    by (symmetry; apply Permutation_rev).
  assert (Hoe : map_to_list (Entities (config defaultProvider))
                  ≡ₚ map_to_list (Entities (config defaultProvider))) by reflexivity.
  assert (Hoe' : rev (map_to_list (Entities (config defaultProvider)))
                   ≡ₚ map_to_list (Entities (config defaultProvider)))
    by (symmetry; apply Permutation_rev).
  destruct (C2_deterministic_up_to_ties defaultProvider
              "Find contact Alice, phone 555-123-4567" _ _ _ _ _ _ _ _
              Hoi Hoi' Hoe Hoe Hoe Hoe' Hoe Hoe') as (Hents & Hsame & _).
  split; [exact Hoi|]. split; [exact Hoi'|]. split; [exact Hoe|]. split; [exact Hoe'|].
  split; [exact Hents|]. split; [|vm_compute; reflexivity].
  apply Hsame. left.
  assert (Hlist : map_to_list (Intents (config defaultProvider))
                  = [("CREATE_CONTACT", intentOf defaultProvider "CREATE_CONTACT");
                     ("FIND_CONTACT", intentOf defaultProvider "FIND_CONTACT")])
    by (vm_compute; reflexivity).
  exists ("FIND_CONTACT", intentOf defaultProvider "FIND_CONTACT").
  rewrite Hlist. split; [right; left; reflexivity|].
  intros e [<- | [<- | []]] Hne.
  - vm_compute. reflexivity.
  - exfalso. apply Hne. reflexivity.
Defined.

(** ** Traversal orders and small tools *)

Lemma In_order_lookup {A : Type} (m : gmap string A) (order : list (string * A)) k x :
  order ≡ₚ map_to_list m -> In (k, x) order <-> m !! k = Some x.
Proof.
  intros Hp. rewrite <- list_elem_of_In, Hp. apply elem_of_map_to_list.
Qed.

Lemma order_NoDup {A : Type} (m : gmap string A) (order : list (string * A)) :
  order ≡ₚ map_to_list m -> NoDup (order.*1).
Proof. intros ->. apply NoDup_fst_map_to_list. Qed.

Lemma order_names {A : Type} (m : gmap string A) (order : list (string * A)) k :
  order ≡ₚ map_to_list m -> In k (order.*1) <-> is_Some (m !! k).
Proof.
  intros Hp. rewrite <- list_elem_of_In, list_elem_of_fmap. split.
  - intros ([k' x] & -> & Hin). exists x.
    apply (In_order_lookup m order k' x Hp). apply list_elem_of_In. exact Hin.
  - intros [x Hx]. exists (k, x). split; [reflexivity |].
    apply list_elem_of_In. apply (In_order_lookup m order k x Hp). exact Hx.
Qed.

Lemma forallb_In {A : Type} (f : A -> bool) (l : list A) (x : A) :
  forallb f l = true -> In x l -> f x = true.
Proof. intros H. exact (proj1 (forallb_forall f l) H x). Qed.

Ltac by_bytes c :=
  destruct c as [[] [] [] [] [] [] [] []]; vm_compute; intros; congruence.

(** ** Validate *)

Lemma validateIntent_None entry :
  validateIntent entry = None
  <-> IntentPattern.Description (snd entry) <> EmptyString
      /\ (IntentPattern.Keywords (snd entry) <> []
          \/ IntentPattern.Phrases (snd entry) <> []
          \/ IntentPattern.Regex (snd entry) <> []).
Proof.
  destruct entry as [name intent]. unfold validateIntent. cbn [snd].
  destruct (String.eqb_spec (IntentPattern.Description intent) EmptyString) as [Hd | Hd].
  - split; [discriminate | intros [H _]; contradiction].
  - split.
    + intros H. split; [exact Hd |].
      destruct (IntentPattern.Keywords intent); [| left; discriminate].
      destruct (IntentPattern.Phrases intent); [| right; left; discriminate].
      destruct (IntentPattern.Regex intent); [discriminate H | right; right; discriminate].
    + intros [_ H].
      destruct (IntentPattern.Keywords intent); [| reflexivity].
      destruct (IntentPattern.Phrases intent); [| reflexivity].
      destruct (IntentPattern.Regex intent); [| reflexivity].
      destruct H as [H | [H | H]]; congruence.
Qed.

Lemma validateIntents_None order :
  validateIntents order = None <-> forall entry, In entry order -> validateIntent entry = None.
Proof.
  induction order as [| e rest IH]; cbn [validateIntents].
  - split; [intros _ entry [] | reflexivity].
  - destruct (validateIntent e) eqn:He.
    + split; [discriminate |]. intros H. rewrite <- He. apply H. left; reflexivity.
    + rewrite IH. split.
      * intros H entry [<- | Hin]; [exact He | exact (H entry Hin)].
      * intros H entry Hin. apply H. right; exact Hin.
Qed.

Lemma validateIntents_Some order err :
  validateIntents order = Some err ->
  exists entry, In entry order /\ validateIntent entry = Some err.
Proof.
  induction order as [| e rest IH]; cbn [validateIntents]; [discriminate |].
  destruct (validateIntent e) eqn:He.
  - intros [= <-]. exists e. split; [left; reflexivity | exact He].
  - intros H. destruct (IH H) as (entry & Hin & Hentry).
    exists entry. split; [right; exact Hin | exact Hentry].
Qed.

(** The loop over the intents accepts exactly when every intent of the map
    has a description and a signal, whatever the order. *)
Lemma validateIntents_order (m : gmap string IntentPattern.t)
    (order : list (string * IntentPattern.t)) :
  order ≡ₚ map_to_list m ->
  validateIntents order = None
  <-> forall name intent,
        m !! name = Some intent ->
        IntentPattern.Description intent <> EmptyString
        /\ (IntentPattern.Keywords intent <> []
            \/ IntentPattern.Phrases intent <> []
            \/ IntentPattern.Regex intent <> []).
Proof.
  intros Hp. rewrite validateIntents_None. split.
  - intros H name intent Hl.
    apply (proj1 (validateIntent_None (name, intent))). apply H.
    apply (proj2 (In_order_lookup m order name intent Hp)). exact Hl.
  - intros H [name intent] Hin.
    apply (proj2 (validateIntent_None (name, intent))). apply (H name intent).
    apply (proj1 (In_order_lookup m order name intent Hp)). exact Hin.
Qed.

(** The three checks of Validate, one after the other. *)
Lemma Validate_None_parts (c : IntentConfig) (order : list (string * IntentPattern.t)) :
  Validate c order = None
  <-> Domain c <> EmptyString /\ Intents c <> ∅ /\ validateIntents order = None.
Proof.
  unfold Validate.
  destruct (String.eqb_spec (Domain c) EmptyString) as [Hd | Hd].
  { split; [discriminate | intros [H _]; contradiction]. }
  destruct (Nat.eqb_spec (size (Intents c)) 0) as [Hs | Hs].
  { apply map_size_empty_iff in Hs.
    split; [discriminate | intros (_ & H & _); contradiction]. }
  split; [| intros (_ & _ & H); exact H].
  intros H. split; [exact Hd |]. split; [| exact H].
  intros He. apply Hs. apply map_size_empty_iff. exact He.
Qed.

(** X1. Validate accepts a configuration exactly when its domain is not empty, it
    has at least one intent, and every intent has a description and at least
    one keyword, phrase or regular expression; the order in which the intents
    are visited plays no part in it. *)
Theorem Validate_accepts_iff :
  forall (c : IntentConfig) (order : list (string * IntentPattern.t)),
    order ≡ₚ map_to_list (Intents c) ->
    Validate c order = None
    <-> Domain c <> EmptyString
        /\ Intents c <> ∅
        /\ forall name intent,
             Intents c !! name = Some intent ->
             IntentPattern.Description intent <> EmptyString
             /\ (IntentPattern.Keywords intent <> []
                 \/ IntentPattern.Phrases intent <> []
                 \/ IntentPattern.Regex intent <> []).
Proof.
  intros c order Hp.
  rewrite Validate_None_parts, (validateIntents_order (Intents c) order Hp).
  reflexivity.
Qed.

Lemma Validate_accepts_iff_witness :
  let c := GetDefaultConfig in
  let order := map_to_list (Intents c) in
  order ≡ₚ map_to_list (Intents c)
  /\ Validate c order = None
  /\ (Validate c order = None
      <-> Domain c <> EmptyString
          /\ Intents c <> ∅
          /\ forall name intent,
               Intents c !! name = Some intent ->
               IntentPattern.Description intent <> EmptyString
               /\ (IntentPattern.Keywords intent <> []
                   \/ IntentPattern.Phrases intent <> []
                   \/ IntentPattern.Regex intent <> [])).
Proof.
  cbv zeta. split; [reflexivity |]. split; [vm_compute; reflexivity |].
  apply Validate_accepts_iff. reflexivity.
Defined.

(** X2. When Validate rejects a configuration, the message names a real
    fault: the missing domain, the missing intents, or an intent of the
    configuration that has no description or, having one, has no keyword, phrase
    and regular expression.  Which faulty intent is named depends on the
    order of the traversal. *)
Theorem Validate_error_names_the_fault :
  forall (c : IntentConfig) (order : list (string * IntentPattern.t)) (err : string),
    order ≡ₚ map_to_list (Intents c) ->
    Validate c order = Some err ->
    (Domain c = EmptyString /\ err = "domain is required")
    \/ (Domain c <> EmptyString /\ Intents c = ∅
        /\ err = "at least one intent must be defined")
    \/ (Domain c <> EmptyString /\ Intents c <> ∅
        /\ exists name intent,
             Intents c !! name = Some intent
             /\ ((IntentPattern.Description intent = EmptyString
                  /\ err = "intent " ++ name ++ ": description is required")
                 \/ (IntentPattern.Description intent <> EmptyString
                     /\ IntentPattern.Keywords intent = []
                     /\ IntentPattern.Phrases intent = []
                     /\ IntentPattern.Regex intent = []
                     /\ err = "intent " ++ name
                              ++ ": must have at least keywords, phrases, or regex"))).
Proof.
  intros c order err Hp. unfold Validate.
  destruct (String.eqb_spec (Domain c) EmptyString) as [Hd | Hd].
  { intros [= <-]. left. split; [exact Hd | reflexivity]. }
  destruct (Nat.eqb_spec (size (Intents c)) 0) as [Hs | Hs].
  { intros [= <-]. right; left. apply map_size_empty_iff in Hs.
    split; [exact Hd |]. split; [exact Hs | reflexivity]. }
  intros H. right; right. split; [exact Hd |]. split.
  { intros He. apply Hs. apply map_size_empty_iff. exact He. }
  destruct (validateIntents_Some _ _ H) as ([name intent] & Hin & Hentry).
  exists name, intent.
  split; [apply (proj1 (In_order_lookup (Intents c) order name intent Hp)); exact Hin |].
  unfold validateIntent in Hentry.
  destruct (String.eqb_spec (IntentPattern.Description intent) EmptyString) as [Hdesc | Hdesc].
  - injection Hentry as <-. left. split; [exact Hdesc | reflexivity].
  - right. destruct (IntentPattern.Keywords intent), (IntentPattern.Phrases intent),
      (IntentPattern.Regex intent); cbn in Hentry; try discriminate Hentry.
    injection Hentry as <-. repeat (split; [first [exact Hdesc | reflexivity] |]). reflexivity.
Qed.

Lemma Validate_error_witness :
  let c := emptyIntentConfig in
  let order := map_to_list (Intents c) in
  let err := "intent X: must have at least keywords, phrases, or regex" in
  order ≡ₚ map_to_list (Intents c)
  /\ Validate c order = Some err
  /\ ((Domain c = EmptyString /\ err = "domain is required")
      \/ (Domain c <> EmptyString /\ Intents c = ∅
          /\ err = "at least one intent must be defined")
      \/ (Domain c <> EmptyString /\ Intents c <> ∅
          /\ exists name intent,
               Intents c !! name = Some intent
               /\ ((IntentPattern.Description intent = EmptyString
                    /\ err = "intent " ++ name ++ ": description is required")
                   \/ (IntentPattern.Description intent <> EmptyString
                       /\ IntentPattern.Keywords intent = []
                       /\ IntentPattern.Phrases intent = []
                       /\ IntentPattern.Regex intent = []
                       /\ err = "intent " ++ name
                                ++ ": must have at least keywords, phrases, or regex")))).
Proof.
  cbv zeta.
  assert (H : Validate emptyIntentConfig (map_to_list (Intents emptyIntentConfig))
              = Some "intent X: must have at least keywords, phrases, or regex")
    by (vm_compute; reflexivity).
  split; [reflexivity |]. split; [exact H |].
  exact (Validate_error_names_the_fault emptyIntentConfig
           (map_to_list (Intents emptyIntentConfig)) _ (reflexivity _) H).
Defined.

(** ** compileConfig: failure and the compiled maps *)

Lemma compileAll_None patterns :
  compileAll patterns = None
  <-> exists pattern, In pattern patterns /\ Regexp.Compile pattern = None.
Proof.
  induction patterns as [| pattern rest IH]; cbn [compileAll].
  - split; [discriminate | intros (x & [] & _)].
  - destruct (Regexp.Compile pattern) as [re |] eqn:Hc.
    + destruct (compileAll rest) as [regexes |].
      * split; [discriminate |]. intros (x & [<- | Hin] & Hx); [congruence |].
        assert (Hnone : Some regexes = None) by (apply IH; exists x; split; assumption).
        discriminate Hnone.
      * split; [| reflexivity]. intros _.
        destruct (proj1 IH eq_refl) as (x & Hin & Hx).
        exists x. split; [right; exact Hin | exact Hx].
    + split; [| reflexivity]. intros _. exists pattern. split; [left; reflexivity | exact Hc].
Qed.

Lemma compileIntent_fold_None intents c :
  fold_left compileIntent intents (Some c) = None
  <-> exists entry, In entry intents
        /\ compileAll (IntentPattern.Regex (snd entry)) = None.
Proof.
  revert c. induction intents as [| [n i] intents IH]; intros c; cbn [fold_left compileIntent].
  - split; [discriminate | intros (x & [] & _)].
  - destruct (compileAll (IntentPattern.Regex i)) as [regexes |] eqn:Hc.
    + rewrite IH. split.
      * intros (x & Hin & Hx). exists x. split; [right; exact Hin | exact Hx].
      * intros (x & [<- | Hin] & Hx); [cbn [snd] in Hx; congruence |].
        exists x. split; assumption.
    + rewrite compileIntent_None. split; [| reflexivity].
      intros _. exists (n, i). split; [left; reflexivity | exact Hc].
Qed.

Lemma compileEntity_fold_None entities c :
  fold_left compileEntity entities (Some c) = None
  <-> exists entry, In entry entities
        /\ compileAll (EntityPattern.Regex (snd entry)) = None.
Proof.
  revert c. induction entities as [| [n e] entities IH]; intros c; cbn [fold_left compileEntity].
  - split; [discriminate | intros (x & [] & _)].
  - destruct (compileAll (EntityPattern.Regex e)) as [regexes |] eqn:Hc.
    + rewrite IH. split.
      * intros (x & Hin & Hx). exists x. split; [right; exact Hin | exact Hx].
      * intros (x & [<- | Hin] & Hx); [cbn [snd] in Hx; congruence |].
        exists x. split; assumption.
    + rewrite compileEntity_None. split; [| reflexivity].
      intros _. exists (n, e). split; [left; reflexivity | exact Hc].
Qed.

(** X3. compileConfig fails exactly when some regular expression of some
    intent or of some entity of the configuration does not compile, whatever
    the order in which the maps are visited. *)
Theorem compileConfig_fails_iff :
  forall (cfg : IntentConfig) oi oe os,
    oi ≡ₚ map_to_list (Intents cfg) ->
    oe ≡ₚ map_to_list (Entities cfg) ->
    compileConfig cfg oi oe os = None
    <-> (exists name intent pattern,
           Intents cfg !! name = Some intent
           /\ In pattern (IntentPattern.Regex intent)
           /\ Regexp.Compile pattern = None)
        \/ (exists name entity pattern,
              Entities cfg !! name = Some entity
              /\ In pattern (EntityPattern.Regex entity)
              /\ Regexp.Compile pattern = None).
Proof.
  intros cfg oi oe os Hi He. unfold compileConfig. cbv zeta.
  set (c0 := {| IntentRegexes := ∅; EntityRegexes := ∅; KeywordMap := ∅;
                PhraseMap := ∅; SynonymMap := ∅ |}).
  assert (Hint : fold_left compileIntent oi (Some c0) = None
                 <-> exists name intent pattern,
                       Intents cfg !! name = Some intent
                       /\ In pattern (IntentPattern.Regex intent)
                       /\ Regexp.Compile pattern = None).
  { rewrite compileIntent_fold_None. split.
    - intros ([name intent] & Hin & Hnone). cbn [snd] in Hnone.
      apply compileAll_None in Hnone. destruct Hnone as (pattern & Hp & Hc).
      exists name, intent, pattern.
      split; [apply (In_order_lookup _ _ _ _ Hi); exact Hin |]. split; assumption.
    - intros (name & intent & pattern & Hl & Hp & Hc). exists (name, intent).
      split; [apply (In_order_lookup _ _ _ _ Hi); exact Hl |].
      apply compileAll_None. exists pattern. split; assumption. }
  assert (Hent : forall c, fold_left compileEntity oe (Some c) = None
                 <-> exists name entity pattern,
                       Entities cfg !! name = Some entity
                       /\ In pattern (EntityPattern.Regex entity)
                       /\ Regexp.Compile pattern = None).
  { intros c. rewrite compileEntity_fold_None. split.
    - intros ([name entity] & Hin & Hnone). cbn [snd] in Hnone.
      apply compileAll_None in Hnone. destruct Hnone as (pattern & Hp & Hc).
      exists name, entity, pattern.
      split; [apply (In_order_lookup _ _ _ _ He); exact Hin |]. split; assumption.
    - intros (name & entity & pattern & Hl & Hp & Hc). exists (name, entity).
      split; [apply (In_order_lookup _ _ _ _ He); exact Hl |].
      apply compileAll_None. exists pattern. split; assumption. }
  destruct (fold_left compileIntent oi (Some c0)) as [c1 |] eqn:H1.
  - destruct (fold_left compileEntity oe (Some c1)) as [c2 |] eqn:H2.
    + split; [discriminate |]. intros [H | H].
      * apply Hint in H. discriminate H.
      * apply (Hent c1) in H. congruence.
    + split; [| reflexivity]. intros _. right. apply (Hent c1). exact H2.
  - rewrite compileEntity_None. split; [| reflexivity].
    intros _. left. apply Hint. reflexivity.
Qed.

Lemma compileConfig_fails_witness :
  let cfg := brokenPatternConfig in
  let oi := map_to_list (Intents cfg) in
  let oe := map_to_list (Entities cfg) in
  oi ≡ₚ map_to_list (Intents cfg)
  /\ oe ≡ₚ map_to_list (Entities cfg)
  /\ Regexp.Compile "([0-9]+" = None
  /\ compileConfig cfg oi oe [] = None.
Proof.
  cbv zeta. split; [reflexivity |]. split; [reflexivity |].
  assert (Hc : Regexp.Compile "([0-9]+" = None) by (vm_compute; reflexivity).
  split; [exact Hc |].
  apply (proj2 (compileConfig_fails_iff brokenPatternConfig
                  (map_to_list (Intents brokenPatternConfig))
                  (map_to_list (Entities brokenPatternConfig)) []
                  (reflexivity _) (reflexivity _))).
  right. exists "code".
  exists {| EntityPattern.Type_ := "code"; EntityPattern.Description := "a code";
            EntityPattern.Regex := ["([0-9]+"]; EntityPattern.Keywords := [];
            EntityPattern.Examples := [] |}.
  exists "([0-9]+". split; [vm_compute; reflexivity |].
  split; [left; reflexivity | exact Hc].
Defined.

Lemma compileIntent_fold_spec intents c c' :
  fold_left compileIntent intents (Some c) = Some c' ->
  EntityRegexes c' = EntityRegexes c
  /\ SynonymMap c' = SynonymMap c
  /\ (forall name, ~ In name (intents.*1) ->
        KeywordMap c' !! name = KeywordMap c !! name
        /\ PhraseMap c' !! name = PhraseMap c !! name
        /\ IntentRegexes c' !! name = IntentRegexes c !! name)
  /\ (NoDup (intents.*1) -> forall name intent, In (name, intent) intents ->
        KeywordMap c' !! name = Some (IntentPattern.Keywords intent)
        /\ PhraseMap c' !! name = Some (IntentPattern.Phrases intent)
        /\ IntentRegexes c' !! name = compileAll (IntentPattern.Regex intent)).
Proof.
  revert c. induction intents as [| [n i] intents IH]; intros c; cbn [fold_left compileIntent].
  - intros [= ->]. split; [reflexivity |]. split; [reflexivity |].
    split; [intros name _; repeat split | intros _ name intent []].
  - destruct (compileAll (IntentPattern.Regex i)) as [regexes |] eqn:Hc;
      [| rewrite compileIntent_None; discriminate].
    intros H. destruct (IH _ H) as (HE & HS & Hout & Hin). cbn in HE, HS.
    split; [exact HE |]. split; [exact HS |]. split.
    + intros name Hname. cbn in Hname.
      destruct (Hout name) as (HK & HP & HR); [tauto |].
      rewrite HK, HP, HR. cbn.
      rewrite !lookup_insert_ne by tauto. repeat split.
    + cbn [fmap list_fmap fst]. rewrite NoDup_cons. intros [Hn Hnd] name intent [Heq | Hin'].
      * injection Heq as Heq1 Heq2. subst n i.
        destruct (Hout name) as (HK & HP & HR); [now rewrite <- list_elem_of_In |].
        rewrite HK, HP, HR. cbn. rewrite !lookup_insert_eq, Hc. repeat split.
      * exact (Hin Hnd name intent Hin').
Qed.

Lemma compileEntity_fold_spec entities c c' :
  fold_left compileEntity entities (Some c) = Some c' ->
  IntentRegexes c' = IntentRegexes c
  /\ KeywordMap c' = KeywordMap c
  /\ PhraseMap c' = PhraseMap c
  /\ SynonymMap c' = SynonymMap c
  /\ (forall name, ~ In name (entities.*1) ->
        EntityRegexes c' !! name = EntityRegexes c !! name)
  /\ (NoDup (entities.*1) -> forall name entity, In (name, entity) entities ->
        EntityRegexes c' !! name = compileAll (EntityPattern.Regex entity)).
Proof.
  revert c. induction entities as [| [n e] entities IH]; intros c; cbn [fold_left compileEntity].
  - intros [= ->]. do 4 (split; [reflexivity |]).
    split; [intros name _; reflexivity | intros _ name entity []].
  - destruct (compileAll (EntityPattern.Regex e)) as [regexes |] eqn:Hc;
      [| rewrite compileEntity_None; discriminate].
    intros H. destruct (IH _ H) as (HI & HK & HP & HS & Hout & Hin). cbn in HI, HK, HP, HS.
    repeat (split; [assumption |]). split.
    + intros name Hname. cbn in Hname.
      rewrite (Hout name) by tauto. cbn.
      rewrite lookup_insert_ne by tauto. reflexivity.
    + cbn [fmap list_fmap fst]. rewrite NoDup_cons. intros [Hn Hnd] name entity [Heq | Hin'].
      * injection Heq as Heq1 Heq2. subst n e.
        rewrite (Hout name) by (now rewrite <- list_elem_of_In).
        cbn. rewrite lookup_insert_eq, Hc. reflexivity.
      * exact (Hin Hnd name entity Hin').
Qed.

Lemma compileSynonyms_fold_others synonyms c :
  let c' := fold_left compileSynonyms synonyms c in
  IntentRegexes c' = IntentRegexes c /\ EntityRegexes c' = EntityRegexes c
  /\ KeywordMap c' = KeywordMap c /\ PhraseMap c' = PhraseMap c.
Proof.
  revert c. induction synonyms as [| [w s] synonyms IH]; intros c; cbn [fold_left].
  - repeat split.
  - destruct (IH (compileSynonyms c (w, s))) as (H1 & H2 & H3 & H4).
    cbv zeta. rewrite H1, H2, H3, H4. repeat split.
Qed.

(** What the compiled maps hold under a name after a successful compileConfig. *)
Lemma compileConfig_lookups :
  forall (cfg : IntentConfig) oi oe os (c : CompiledConfig),
    compileConfig cfg oi oe os = Some c ->
    oi ≡ₚ map_to_list (Intents cfg) ->
    oe ≡ₚ map_to_list (Entities cfg) ->
    (forall name, KeywordMap c !! name = IntentPattern.Keywords <$> Intents cfg !! name)
    /\ (forall name, PhraseMap c !! name = IntentPattern.Phrases <$> Intents cfg !! name)
    /\ (forall name,
          IntentRegexes c !! name
          = Intents cfg !! name ≫= (fun intent => compileAll (IntentPattern.Regex intent)))
    /\ (forall name,
          EntityRegexes c !! name
          = Entities cfg !! name ≫= (fun entity => compileAll (EntityPattern.Regex entity)))
    /\ (forall name, is_Some (IntentRegexes c !! name) <-> is_Some (Intents cfg !! name))
    /\ (forall name, is_Some (EntityRegexes c !! name) <-> is_Some (Entities cfg !! name)).
Proof.
  intros cfg oi oe os c H Hi He. unfold compileConfig in H. cbv zeta in H.
  destruct (fold_left compileIntent oi _) as [c1 |] eqn:H1;
    [| rewrite compileEntity_None in H; discriminate H].
  destruct (fold_left compileEntity oe (Some c1)) as [c2 |] eqn:H2; [| discriminate H].
  injection H as <-.
  destruct (compileSynonyms_fold_others os c2) as (S1 & S2 & S3 & S4).
  cbv zeta in S1, S2, S3, S4. rewrite S1, S2, S3, S4. clear S1 S2 S3 S4.
  destruct (compileEntity_fold_spec _ _ _ H2) as (E1 & E2 & E3 & _ & Eout & Ein).
  rewrite E1, E2, E3. clear E1 E2 E3.
  destruct (compileIntent_fold_spec _ _ _ H1) as (I1 & _ & Iout & Iin).
  cbn in I1.
  pose proof (order_NoDup _ _ Hi) as Hndi. pose proof (order_NoDup _ _ He) as Hnde.
  assert (HI : forall name,
             KeywordMap c1 !! name = IntentPattern.Keywords <$> Intents cfg !! name
             /\ PhraseMap c1 !! name = IntentPattern.Phrases <$> Intents cfg !! name
             /\ IntentRegexes c1 !! name
                = Intents cfg !! name ≫= (fun intent => compileAll (IntentPattern.Regex intent))).
  { intros name. destruct (Intents cfg !! name) as [intent |] eqn:Hl.
    - apply (Iin Hndi name intent). apply (In_order_lookup _ _ _ _ Hi). exact Hl.
    - destruct (Iout name) as (HK & HP & HR).
      + intros Hin. apply (order_names _ _ _ Hi) in Hin. rewrite Hl in Hin.
        destruct Hin as [? [=]].
      + rewrite HK, HP, HR. cbn. rewrite !lookup_empty. repeat split. }
  assert (HE : forall name,
             EntityRegexes c2 !! name
             = Entities cfg !! name ≫= (fun entity => compileAll (EntityPattern.Regex entity))).
  { intros name. destruct (Entities cfg !! name) as [entity |] eqn:Hl.
    - apply (Ein Hnde name entity). apply (In_order_lookup _ _ _ _ He). exact Hl.
    - rewrite Eout, I1; [apply lookup_empty |].
      intros Hin. apply (order_names _ _ _ He) in Hin. rewrite Hl in Hin.
      destruct Hin as [? [=]]. }
  split; [intros name; apply HI |].
  split; [intros name; apply HI |].
  split; [intros name; apply HI |]. split; [exact HE |]. split.
  - intros name. destruct (HI name) as (_ & _ & ->).
    destruct (Intents cfg !! name) as [intent |] eqn:Hl; cbn.
    + split; [eauto |]. intros _.
      destruct (compileAll (IntentPattern.Regex intent)) eqn:Hc; [eauto |].
      exfalso. assert (Hnone : fold_left compileIntent oi (Some
        {| IntentRegexes := ∅; EntityRegexes := ∅; KeywordMap := ∅;
           PhraseMap := ∅; SynonymMap := ∅ |}) = None).
      { apply compileIntent_fold_None. exists (name, intent).
        split; [apply (In_order_lookup _ _ _ _ Hi); exact Hl | exact Hc]. }
      congruence.
    + split; intros [? [=]].
  - intros name. rewrite HE.
    destruct (Entities cfg !! name) as [entity |] eqn:Hl; cbn.
    + split; [eauto |]. intros _.
      destruct (compileAll (EntityPattern.Regex entity)) eqn:Hc; [eauto |].
      exfalso. assert (Hnone : fold_left compileEntity oe (Some c1) = None).
      { apply compileEntity_fold_None. exists (name, entity).
        split; [apply (In_order_lookup _ _ _ _ He); exact Hl | exact Hc]. }
      congruence.
    + split; intros [? [=]].
Qed.

(** X4. After a successful compileConfig the keyword table and the phrase table
    are the keyword lists and the phrase lists of the configured intents, and
    the two tables of compiled expressions have an entry, the compiled list,
    for each configured intent and entity and for nothing else. *)
Theorem compileConfig_compiled_maps :
  forall (cfg : IntentConfig) oi oe os (c : CompiledConfig),
    compileConfig cfg oi oe os = Some c ->
    oi ≡ₚ map_to_list (Intents cfg) ->
    oe ≡ₚ map_to_list (Entities cfg) ->
    KeywordMap c = IntentPattern.Keywords <$> Intents cfg
    /\ PhraseMap c = IntentPattern.Phrases <$> Intents cfg
    /\ (forall name,
          IntentRegexes c !! name
          = Intents cfg !! name ≫= (fun intent => compileAll (IntentPattern.Regex intent)))
    /\ (forall name,
          EntityRegexes c !! name
          = Entities cfg !! name ≫= (fun entity => compileAll (EntityPattern.Regex entity)))
    /\ (forall name, is_Some (IntentRegexes c !! name) <-> is_Some (Intents cfg !! name))
    /\ (forall name, is_Some (EntityRegexes c !! name) <-> is_Some (Entities cfg !! name)).
Proof.
  intros cfg oi oe os c H Hi He.
  destruct (compileConfig_lookups cfg oi oe os c H Hi He)
    as (HK & HP & HIR & HER & HIS & HES).
  split; [apply map_eq; intros name; rewrite lookup_fmap; apply HK |].
  split; [apply map_eq; intros name; rewrite lookup_fmap; apply HP |].
  split; [exact HIR |]. split; [exact HER |]. split; [exact HIS | exact HES].
Qed.

Lemma compileConfig_compiled_maps_witness :
  let cfg := GetDefaultConfig in
  let c := compiled defaultProvider in
  compileConfig cfg (map_to_list (Intents cfg)) (map_to_list (Entities cfg))
    (map_to_list (Synonyms cfg)) = Some c
  /\ KeywordMap c = IntentPattern.Keywords <$> Intents cfg
  /\ PhraseMap c = IntentPattern.Phrases <$> Intents cfg
  /\ (forall name, is_Some (EntityRegexes c !! name) <-> is_Some (Entities cfg !! name)).
Proof.
  cbv zeta. split; [exact (proj2 defaultProvider_compiled) |].
  destruct (compileConfig_compiled_maps GetDefaultConfig _ _ _ (compiled defaultProvider)
              (proj2 defaultProvider_compiled) (reflexivity _) (reflexivity _))
    as (H1 & H2 & _ & _ & _ & H6).
  split; [exact H1 |]. split; [exact H2 | exact H6].
Defined.

(** ** compileConfig: the reverse index of the synonyms *)

Lemma synonym_inserts_lookup (word : string) synonyms (m : gmap string string) s :
  fold_left (fun m synonym => <[synonym := word]> m) synonyms m !! s
  = if existsb (String.eqb s) synonyms then Some word else m !! s.
Proof.
  revert m. induction synonyms as [| x rest IH]; intros m; cbn [fold_left existsb].
  - reflexivity.
  - rewrite IH. destruct (existsb (String.eqb s) rest); [now rewrite orb_true_r |].
    rewrite orb_false_r. destruct (String.eqb_spec s x) as [-> | Hne].
    + apply lookup_insert_eq.
    + apply lookup_insert_ne. congruence.
Qed.

Lemma existsb_eqb_In (s : string) l : existsb (String.eqb s) l = true <-> In s l.
Proof.
  rewrite existsb_exists. split.
  - intros (x & Hin & Heq). apply String.eqb_eq in Heq. now subst.
  - intros Hin. exists s. split; [exact Hin | apply String.eqb_refl].
Qed.

Lemma compileSynonyms_fold_SynonymMap synonyms c :
  let c' := fold_left compileSynonyms synonyms c in
  (forall s w, SynonymMap c' !! s = Some w ->
     SynonymMap c !! s = Some w
     \/ exists syns, In (w, syns) synonyms /\ In s syns)
  /\ (forall s, is_Some (SynonymMap c !! s) -> is_Some (SynonymMap c' !! s))
  /\ (forall w syns s, In (w, syns) synonyms -> In s syns -> is_Some (SynonymMap c' !! s)).
Proof.
  revert c. induction synonyms as [| [word syns0] synonyms IH]; intros c; cbn [fold_left].
  - cbv zeta. split; [intros s w H; left; exact H |].
    split; [intros s H; exact H | intros w syns s []].
  - destruct (IH (compileSynonyms c (word, syns0))) as (Hs & Hk & Hc). cbv zeta in *.
    assert (Hstep : forall s,
              SynonymMap (compileSynonyms c (word, syns0)) !! s
              = if existsb (String.eqb s) syns0 then Some word else SynonymMap c !! s).
    { intros s. cbn. apply synonym_inserts_lookup. }
    split; [| split].
    + intros s w H. destruct (Hs s w H) as [H0 | (syns & Hin & Hsyn)].
      * rewrite Hstep in H0. destruct (existsb (String.eqb s) syns0) eqn:He.
        -- injection H0 as <-. right. exists syns0.
           split; [left; reflexivity | apply existsb_eqb_In; exact He].
        -- left; exact H0.
      * right. exists syns. split; [right; exact Hin | exact Hsyn].
    + intros s H. apply Hk. rewrite Hstep.
      destruct (existsb (String.eqb s) syns0); [eauto | exact H].
    + intros w syns s [Heq | Hin] Hsyn.
      * injection Heq as Heq1 Heq2. subst word syns0. apply Hk. rewrite Hstep.
        apply existsb_eqb_In in Hsyn. rewrite Hsyn. eauto.
      * exact (Hc w syns s Hin Hsyn).
Qed.

(** X5. The reverse index that compileConfig builds maps a synonym to a word
    whose synonym list holds it, and every synonym of every word has an entry. *)
Theorem compileConfig_SynonymMap :
  forall (cfg : IntentConfig) oi oe os (c : CompiledConfig),
    compileConfig cfg oi oe os = Some c ->
    os ≡ₚ map_to_list (Synonyms cfg) ->
    (forall synonym word,
       SynonymMap c !! synonym = Some word ->
       exists synonyms, Synonyms cfg !! word = Some synonyms /\ In synonym synonyms)
    /\ (forall word synonyms synonym,
          Synonyms cfg !! word = Some synonyms -> In synonym synonyms ->
          is_Some (SynonymMap c !! synonym)).
Proof.
  intros cfg oi oe os c H Hs. unfold compileConfig in H. cbv zeta in H.
  destruct (fold_left compileIntent oi _) as [c1 |] eqn:H1;
    [| rewrite compileEntity_None in H; discriminate H].
  destruct (fold_left compileEntity oe (Some c1)) as [c2 |] eqn:H2; [| discriminate H].
  injection H as <-.
  assert (H0 : SynonymMap c2 = ∅).
  { clear Hs. 
    assert (G1 : forall l a b, fold_left compileIntent l (Some a) = Some b ->
                               SynonymMap b = SynonymMap a).
    { induction l as [| [n i] l IH]; intros a b; cbn [fold_left compileIntent].
      - now intros [= ->].
      - destruct (compileAll (IntentPattern.Regex i));
          [| rewrite compileIntent_None; discriminate].
        intros Hf. now rewrite (IH _ _ Hf). }
    assert (G2 : forall l a b, fold_left compileEntity l (Some a) = Some b ->
                               SynonymMap b = SynonymMap a).
    { induction l as [| [n e] l IH]; intros a b; cbn [fold_left compileEntity].
      - now intros [= ->].
      - destruct (compileAll (EntityPattern.Regex e));
          [| rewrite compileEntity_None; discriminate].
        intros Hf. now rewrite (IH _ _ Hf). }
    rewrite (G2 _ _ _ H2), (G1 _ _ _ H1). reflexivity. }
  destruct (compileSynonyms_fold_SynonymMap os c2) as (Hsound & _ & Hcomplete).
  cbv zeta in Hsound, Hcomplete. split.
  - intros synonym word Hl. destruct (Hsound synonym word Hl) as [Hc2 | (syns & Hin & Hsyn)].
    + rewrite H0, lookup_empty in Hc2. discriminate Hc2.
    + exists syns. split; [apply (In_order_lookup _ _ _ _ Hs); exact Hin | exact Hsyn].
  - intros word synonyms synonym Hl Hsyn.
    apply (Hcomplete word synonyms synonym); [| exact Hsyn].
    apply (In_order_lookup _ _ _ _ Hs). exact Hl.
Qed.

Lemma compileConfig_SynonymMap_witness :
  let cfg := GetDefaultConfig in
  let c := compiled defaultProvider in
  compileConfig cfg (map_to_list (Intents cfg)) (map_to_list (Entities cfg))
    (map_to_list (Synonyms cfg)) = Some c
  /\ Synonyms cfg !! "find" = Some ["search"; "look"; "locate"; "get"]
  /\ is_Some (SynonymMap c !! "locate")
  /\ (forall synonym word,
        SynonymMap c !! synonym = Some word ->
        exists synonyms, Synonyms cfg !! word = Some synonyms /\ In synonym synonyms).
Proof.
  cbv zeta. split; [exact (proj2 defaultProvider_compiled) |].
  assert (Hfind : Synonyms GetDefaultConfig !! "find"
                  = Some ["search"; "look"; "locate"; "get"]) by (vm_compute; reflexivity).
  split; [exact Hfind |].
  destruct (compileConfig_SynonymMap GetDefaultConfig _ _ _ (compiled defaultProvider)
              (proj2 defaultProvider_compiled) (reflexivity _)) as [Hsound Hcomplete].
  split; [| exact Hsound].
  apply (Hcomplete "find" ["search"; "look"; "locate"; "get"] "locate" Hfind).
  cbn [In]. tauto.
Defined.

(** ** NewEnhancedLocalProvider *)

Lemma default_config_valid :
  Domain GetDefaultConfig <> EmptyString
  /\ Intents GetDefaultConfig <> ∅
  /\ validateIntents (map_to_list (Intents GetDefaultConfig)) = None.
Proof.
  apply (proj1 (Validate_None_parts GetDefaultConfig _)). vm_compute. reflexivity.
Qed.

(** X6. A provider that NewEnhancedLocalProvider returns echoes the path, holds
    the built-in configuration (empty path) or the decoded one, which then
    passed Validate; in both cases the domain is not empty, there is an intent,
    every intent has a description and a signal, and the compiled tables agree
    with the configuration: the scoring reads the configured keywords and
    phrases of an intent. *)
Theorem constructed_provider_is_valid_and_in_sync :
  forall (decode : string -> option IntentConfig) (path : string) ov oi oe os
         (p : EnhancedLocalProvider),
    NewEnhancedLocalProvider decode path ov oi oe os = Some p ->
    ov ≡ₚ map_to_list (Intents (config p)) ->
    oi ≡ₚ map_to_list (Intents (config p)) ->
    oe ≡ₚ map_to_list (Entities (config p)) ->
    configPath p = path
    /\ (if String.eqb path EmptyString then config p = GetDefaultConfig
        else decode path = Some (config p))
    /\ Domain (config p) <> EmptyString
    /\ Intents (config p) <> ∅
    /\ (forall name intent,
          Intents (config p) !! name = Some intent ->
          IntentPattern.Description intent <> EmptyString
          /\ (IntentPattern.Keywords intent <> []
              \/ IntentPattern.Phrases intent <> []
              \/ IntentPattern.Regex intent <> [])
          /\ at_key (KeywordMap (compiled p)) name = IntentPattern.Keywords intent
          /\ at_key (PhraseMap (compiled p)) name = IntentPattern.Phrases intent
          /\ is_Some (IntentRegexes (compiled p) !! name))
    /\ (forall name,
          is_Some (EntityRegexes (compiled p) !! name)
          <-> is_Some (Entities (config p) !! name)).
Proof.
  intros decode path ov oi oe os p H Hv Hi He. unfold NewEnhancedLocalProvider in H.
  cbv zeta in H.
  assert (Hload : exists cfg c,
             p = {| config := cfg; compiled := c; configPath := path |}
             /\ compileConfig cfg oi oe os = Some c
             /\ (if String.eqb path EmptyString then cfg = GetDefaultConfig
                 else decode path = Some cfg /\ Validate cfg ov = None)).
  { destruct (String.eqb path EmptyString); cbn [negb] in H.
    - destruct (compileConfig GetDefaultConfig oi oe os) as [c |] eqn:Hc; [| discriminate H].
      injection H as <-. exists GetDefaultConfig, c. repeat split. exact Hc.
    - unfold LoadIntentConfig in H. destruct (decode path) as [cfg |]; [| discriminate H].
      destruct (Validate cfg ov) eqn:Hval; [discriminate H |].
      destruct (compileConfig cfg oi oe os) as [c |] eqn:Hc; [| discriminate H].
      injection H as <-. exists cfg, c. repeat split; assumption. }
  destruct Hload as (cfg & c & -> & Hc & Hsrc). cbn [config compiled configPath] in *.
  assert (Hvalid : Domain cfg <> EmptyString /\ Intents cfg <> ∅
                   /\ forall name intent,
                        Intents cfg !! name = Some intent ->
                        IntentPattern.Description intent <> EmptyString
                        /\ (IntentPattern.Keywords intent <> []
                            \/ IntentPattern.Phrases intent <> []
                            \/ IntentPattern.Regex intent <> [])).
  { destruct (String.eqb path EmptyString).
    - subst cfg. destruct default_config_valid as (Hd & Hne & Hloop).
      split; [exact Hd |]. split; [exact Hne |].
      exact (proj1 (validateIntents_order (Intents GetDefaultConfig) _ (reflexivity _))
               Hloop).
    - destruct Hsrc as [_ Hval]. apply Validate_None_parts in Hval.
      destruct Hval as (Hd & Hne & Hloop).
      split; [exact Hd |]. split; [exact Hne |].
      exact (proj1 (validateIntents_order (Intents cfg) ov Hv) Hloop). }
  destruct Hvalid as (Hd & Hne & Hsig).
  destruct (compileConfig_lookups cfg oi oe os c Hc Hi He)
    as (HK & HP & _ & _ & HIR & HER).
  split; [reflexivity |]. split.
  { destruct (String.eqb path EmptyString); [exact Hsrc | exact (proj1 Hsrc)]. }
  split; [exact Hd |]. split; [exact Hne |]. split; [| exact HER].
  intros name intent Hl. destruct (Hsig name intent Hl) as [Hdesc Hsignal].
  split; [exact Hdesc |]. split; [exact Hsignal |].
  unfold at_key. rewrite HK, HP, Hl. cbn. split; [reflexivity |].
  split; [reflexivity |]. apply HIR. rewrite Hl. eauto.
Qed.

Lemma constructed_provider_witness :
  let decode := fun _ : string => Some (config noteProvider) in
  let order := map_to_list (Intents (config noteProvider)) in
  NewEnhancedLocalProvider decode "sample.json" order order
    (map_to_list (Entities (config noteProvider)))
    (map_to_list (Synonyms (config noteProvider))) = Some noteProvider
  /\ configPath noteProvider = "sample.json"
  /\ Domain (config noteProvider) <> EmptyString
  /\ Intents (config noteProvider) <> ∅.
Proof.
  cbv zeta.
  assert (H : NewEnhancedLocalProvider (fun _ : string => Some (config noteProvider))
                "sample.json" (map_to_list (Intents (config noteProvider)))
                (map_to_list (Intents (config noteProvider)))
                (map_to_list (Entities (config noteProvider)))
                (map_to_list (Synonyms (config noteProvider))) = Some noteProvider)
    by (vm_compute; reflexivity).
  split; [exact H |].
  destruct (constructed_provider_is_valid_and_in_sync _ _ _ _ _ _ _ H
              (reflexivity _) (reflexivity _) (reflexivity _))
    as (H1 & _ & H3 & H4 & _).
  split; [exact H1 |]. split; [exact H3 | exact H4].
Defined.

(** ** Words, Fields and Join *)

Lemma all_bytes_impl (P Q : ascii -> bool) s :
  (forall c, P c = true -> Q c = true) -> all_bytes P s = true -> all_bytes Q s = true.
Proof.
  intros HPQ. induction s as [| c s IH]; cbn [all_bytes]; [reflexivity |].
  rewrite !andb_true_iff. intros [Hc Hs]. split; [apply HPQ; exact Hc | apply IH; exact Hs].
Qed.

Lemma all_bytes_and (P Q : ascii -> bool) s :
  all_bytes P s = true -> all_bytes Q s = true ->
  all_bytes (fun c => P c && Q c) s = true.
Proof.
  induction s as [| c s IH]; cbn [all_bytes]; [reflexivity |].
  rewrite !andb_true_iff. intros [Hc Hs] [Hc' Hs']. repeat split; auto.
Qed.

Lemma all_bytes_Map (P Q : ascii -> bool) (f : ascii -> ascii) s :
  (forall c, P c = true -> Q (f c) = true) ->
  all_bytes P s = true -> all_bytes Q (Map f s) = true.
Proof.
  intros Hf. induction s as [| c s IH]; cbn [all_bytes Map]; [reflexivity |].
  rewrite !andb_true_iff. intros [Hc Hs]. split; [apply Hf; exact Hc | apply IH; exact Hs].
Qed.

Lemma all_bytes_true s : all_bytes (fun _ => true) s = true.
Proof. induction s as [| c s IH]; [reflexivity | exact IH]. Qed.

Lemma all_bytes_app (P : ascii -> bool) a b :
  all_bytes P (a ++ b) = all_bytes P a && all_bytes P b.
Proof.
  induction a as [| c a IH]; [now rewrite append_nil_l |].
  rewrite append_cons. cbn [all_bytes]. rewrite IH. apply andb_assoc.
Qed.

Lemma Map_fixed (f : ascii -> ascii) s :
  all_bytes (fun c => Ascii.eqb (f c) c) s = true -> Map f s = s.
Proof.
  induction s as [| c s IH]; cbn [all_bytes Map]; [reflexivity |].
  rewrite andb_true_iff. intros [Hc Hs]. apply Ascii.eqb_eq in Hc.
  now rewrite Hc, IH.
Qed.

Lemma starts_word_Fields s : starts_word s = true -> Fields s <> [].
Proof.
  destruct s as [| c s]; [discriminate |]. cbn [starts_word Fields].
  intros Hc. apply negb_true_iff in Hc. rewrite Hc.
  destruct (starts_word s); [destruct (Fields s) |]; discriminate.
Qed.

Lemma Fields_words s : Forall (fun w => is_word w = true) (Fields s).
Proof.
  induction s as [| c s IH]; cbn [Fields]; [constructor |].
  destruct (IsSpace c) eqn:Hc; [exact IH |].
  assert (Hone : is_word (String c EmptyString) = true).
  { unfold is_word. cbn. now rewrite Hc. }
  destruct (starts_word s).
  - destruct (Fields s) as [| w ws]; [constructor; [exact Hone | constructor] |].
    inversion IH as [| ? ? Hw Hws]; subst. constructor; [| exact Hws].
    unfold is_word in *. cbn. rewrite Hc. cbn.
    apply andb_true_iff in Hw. tauto.
  - constructor; [exact Hone | exact IH].
Qed.

Lemma Fields_all_bytes (P : ascii -> bool) s :
  all_bytes P s = true -> Forall (fun w => all_bytes P w = true) (Fields s).
Proof.
  induction s as [| c s IH]; cbn [Fields all_bytes]; [constructor |].
  rewrite andb_true_iff. intros [Hc Hs]. specialize (IH Hs).
  assert (Hone : all_bytes P (String c EmptyString) = true).
  { cbn. now rewrite Hc. }
  destruct (IsSpace c); [exact IH |].
  destruct (starts_word s).
  - destruct (Fields s) as [| w ws]; [constructor; [exact Hone | constructor] |].
    inversion IH as [| ? ? Hw Hws]; subst. constructor; [| exact Hws].
    cbn. now rewrite Hc, Hw.
  - constructor; [exact Hone | exact IH].
Qed.

Lemma Join_all_bytes (P : ascii -> bool) ws :
  P " "%char = true -> Forall (fun w => all_bytes P w = true) ws ->
  all_bytes P (Join ws " ") = true.
Proof.
  intros Hsp. induction ws as [| w ws IH]; [reflexivity |].
  intros H. inversion H as [| ? ? Hw Hws]; subst. specialize (IH Hws).
  destruct ws as [| w2 ws]; [exact Hw |].
  change (Join (w :: w2 :: ws) " ") with (w ++ " " ++ Join (w2 :: ws) " ").
  rewrite !all_bytes_app, Hw, IH. cbn. now rewrite Hsp.
Qed.

Lemma Fields_word w : is_word w = true -> Fields w = [w].
Proof.
  unfold is_word. induction w as [| c w IH]; [discriminate |].
  cbn [all_bytes Fields]. rewrite !andb_true_iff, !negb_true_iff.
  intros (_ & Hc & Hw). rewrite Hc.
  destruct w as [| d w]; [reflexivity |].
  assert (Hd : IsSpace d = false).
  { cbn [all_bytes] in Hw. apply andb_true_iff in Hw. now apply negb_true_iff. }
  cbn [starts_word]. rewrite Hd. cbn [negb].
  rewrite IH; [reflexivity |]. now rewrite Hw.
Qed.

Lemma Fields_word_app w rest :
  is_word w = true -> Fields (w ++ String " " rest) = w :: Fields rest.
Proof.
  unfold is_word. induction w as [| c w IH]; [discriminate |].
  rewrite append_cons. cbn [all_bytes Fields].
  rewrite !andb_true_iff, !negb_true_iff. intros (_ & Hc & Hw). rewrite Hc.
  destruct w as [| d w].
  - rewrite append_nil_l. reflexivity.
  - assert (Hd : IsSpace d = false).
    { cbn [all_bytes] in Hw. apply andb_true_iff in Hw. now apply negb_true_iff. }
    rewrite append_cons. cbn [starts_word]. rewrite Hd. cbn [negb].
    rewrite <- append_cons, IH; [reflexivity |]. now rewrite Hw.
Qed.

Lemma Fields_Join ws :
  Forall (fun w => is_word w = true) ws -> Fields (Join ws " ") = ws.
Proof.
  induction ws as [| w ws IH]; [reflexivity |].
  intros H. inversion H as [| ? ? Hw Hws]; subst. specialize (IH Hws).
  destruct ws as [| w2 ws]; [exact (Fields_word w Hw) |].
  change (Join (w :: w2 :: ws) " ") with (w ++ " " ++ Join (w2 :: ws) " ").
  change (" " ++ Join (w2 :: ws) " ") with (String " " (Join (w2 :: ws) " ")).
  now rewrite (Fields_word_app _ _ Hw), IH.
Qed.

Lemma Join_Fields_Join ws :
  Forall (fun w => is_word w = true) ws ->
  Join (Fields (Join ws " ")) " " = Join ws " ".
Proof. intros H. now rewrite (Fields_Join ws H). Qed.

Lemma Join_Fields_bytes (P : ascii -> bool) s :
  P " "%char = true -> all_bytes P s = true ->
  all_bytes (fun c => P c && (negb (IsSpace c) || Ascii.eqb c " "))
    (Join (Fields s) " ") = true.
Proof.
  intros Hsp Hs. apply Join_all_bytes; [now rewrite Hsp |].
  pose proof (Fields_all_bytes P s Hs) as HP. pose proof (Fields_words s) as HW.
  induction HP as [| w ws Hw _ IH]; [constructor |].
  inversion HW as [| ? ? Hword Hwords]; subst. constructor; [| exact (IH Hwords)].
  unfold is_word in Hword. apply andb_true_iff in Hword. destruct Hword as [_ Hns].
  apply (all_bytes_impl (fun c => P c && negb (IsSpace c))).
  - intros c Hc. apply andb_true_iff in Hc. destruct Hc as [-> ->]. reflexivity.
  - now apply all_bytes_and.
Qed.

(** ** normalizeText *)

Lemma normalizeText_unfold text :
  normalizeText text
  = Join (Fields (Map punctToSpace (Join (Fields (ToLower text)) " "))) " ".
Proof. reflexivity. Qed.

Lemma ToLowerByte_not_upper c : negb (IsUpper (ToLowerByte c)) = true.
Proof. by_bytes c. Qed.

Lemma punctToSpace_normal c :
  negb (IsUpper c) = true ->
  (negb (IsUpper (punctToSpace c)) && (negb (IsPunct (punctToSpace c)) || byte_in (punctToSpace c) "@._-")) = true.
Proof. by_bytes c. Qed.

Lemma normal_fixed c :
  normal_byte c = true ->
  (Ascii.eqb (ToLowerByte c) c && Ascii.eqb (punctToSpace c) c) = true.
Proof. by_bytes c. Qed.

Lemma normalizeText_bytes text : all_bytes normal_byte (normalizeText text) = true.
Proof.
  rewrite normalizeText_unfold.
  set (P1 := fun c => negb (IsUpper c)).
  set (R := fun c => negb (IsUpper c) && (negb (IsPunct c) || byte_in c "@._-")).
  assert (H1 : all_bytes P1 (ToLower text) = true).
  { apply (all_bytes_Map (fun _ => true)); [| apply all_bytes_true].
    intros c _. apply ToLowerByte_not_upper. }
  assert (H2 : all_bytes P1 (Join (Fields (ToLower text)) " ") = true).
  { apply Join_all_bytes; [reflexivity | apply Fields_all_bytes; exact H1]. }
  assert (H3 : all_bytes R (Map punctToSpace (Join (Fields (ToLower text)) " ")) = true).
  { apply (all_bytes_Map P1); [| exact H2]. intros c Hc. apply punctToSpace_normal. exact Hc. }
  pose proof (Join_Fields_bytes R _ eq_refl H3) as H4.
  revert H4. apply all_bytes_impl. intros c. unfold R, normal_byte.
  rewrite !andb_true_iff. tauto.
Qed.

Lemma normal_text_fixed s :
  all_bytes normal_byte s = true -> ToLower s = s /\ Map punctToSpace s = s.
Proof.
  intros H. split; apply Map_fixed; revert H; apply all_bytes_impl; intros c Hc;
    apply normal_fixed in Hc; apply andb_true_iff in Hc; tauto.
Qed.

Lemma normalizeText_rejoin text :
  Join (Fields (normalizeText text)) " " = normalizeText text.
Proof. rewrite normalizeText_unfold. apply Join_Fields_Join. apply Fields_words. Qed.

(** X7. normalizeText is idempotent. *)
Theorem normalizeText_idempotent :
  forall text : string, normalizeText (normalizeText text) = normalizeText text.
Proof.
  intros text. rewrite (normalizeText_unfold (normalizeText text)).
  destruct (normal_text_fixed _ (normalizeText_bytes text)) as [HL HM].
  rewrite HL, normalizeText_rejoin, HM. apply normalizeText_rejoin.
Qed.

(** X8. The text normalizeText returns holds no upper-case ASCII letter, no
    white space other than single blanks between words, and no punctuation
    other than the four kept characters; it is the join of its own fields and
    lower-casing leaves it as it is. *)
Theorem normalizeText_output_is_clean :
  forall text : string,
    let normalized := normalizeText text in
    all_bytes normal_byte normalized = true
    /\ Forall (fun w => is_word w = true) (Fields normalized)
    /\ Join (Fields normalized) " " = normalized
    /\ ToLower normalized = normalized.
Proof.
  intros text. cbv zeta. split; [apply normalizeText_bytes |].
  split; [apply Fields_words |]. split; [apply normalizeText_rejoin |].
  apply (normal_text_fixed _ (normalizeText_bytes text)).
Qed.

(** ** models.NormalizeText and the intent service *)

Lemma IsSpace_ToLowerByte c : IsSpace (ToLowerByte c) = IsSpace c.
Proof. by_bytes c. Qed.

Lemma ToLowerByte_idem c : Ascii.eqb (ToLowerByte (ToLowerByte c)) (ToLowerByte c) = true.
Proof. by_bytes c. Qed.

Lemma Fields_TrimLeftSpace s : Fields (TrimLeftSpace s) = Fields s.
Proof.
  induction s as [| c s IH]; [reflexivity |]. cbn [TrimLeftSpace].
  destruct (IsSpace c) eqn:Hc; [| reflexivity].
  cbn [Fields]. now rewrite Hc.
Qed.

Lemma TrimRightSpace_head c s d t :
  TrimRightSpace (String c s) = String d t -> d = c.
Proof.
  cbn [TrimRightSpace]. destruct (TrimRightSpace s); [destruct (IsSpace c) |];
    intros [=]; congruence.
Qed.

Lemma Fields_cons c s :
  Fields (String c s)
  = if IsSpace c then Fields s
    else if starts_word s then
      match Fields s with
      | w :: ws => String c w :: ws
      | [] => [String c EmptyString]
      end
    else String c EmptyString :: Fields s.
Proof. reflexivity. Qed.

Lemma Fields_TrimRightSpace s : Fields (TrimRightSpace s) = Fields s.
Proof.
  induction s as [| c s IH]; [reflexivity |]. cbn [TrimRightSpace].
  destruct (TrimRightSpace s) as [| d t] eqn:Ht.
  - rewrite (Fields_cons c s). destruct (IsSpace c) eqn:Hc; [exact IH |].
    rewrite (Fields_cons c EmptyString), Hc.
    destruct (starts_word s) eqn:Hs.
    + exfalso. apply (starts_word_Fields s Hs). now rewrite <- IH.
    + now rewrite <- IH.
  - rewrite (Fields_cons c s), (Fields_cons c (String d t)).
    destruct (IsSpace c); [exact IH |].
    assert (Hs : starts_word (String d t) = starts_word s).
    { destruct s as [| a r]; [discriminate Ht |].
      now rewrite (TrimRightSpace_head _ _ _ _ Ht). }
    now rewrite Hs, IH.
Qed.

Lemma Fields_TrimSpace s : Fields (TrimSpace s) = Fields s.
Proof. unfold TrimSpace. now rewrite Fields_TrimRightSpace, Fields_TrimLeftSpace. Qed.

Lemma ToLower_TrimLeftSpace s : ToLower (TrimLeftSpace s) = TrimLeftSpace (ToLower s).
Proof.
  unfold ToLower. induction s as [| c s IH]; [reflexivity |].
  cbn [TrimLeftSpace Map]. rewrite IsSpace_ToLowerByte.
  destruct (IsSpace c); [exact IH | reflexivity].
Qed.

Lemma ToLower_TrimRightSpace s : ToLower (TrimRightSpace s) = TrimRightSpace (ToLower s).
Proof.
  unfold ToLower. induction s as [| c s IH]; [reflexivity |].
  cbn [TrimRightSpace Map]. rewrite IsSpace_ToLowerByte, <- IH.
  destruct (TrimRightSpace s); [destruct (IsSpace c) |]; reflexivity.
Qed.

Lemma ToLower_TrimSpace s : ToLower (TrimSpace s) = TrimSpace (ToLower s).
Proof. unfold TrimSpace. now rewrite ToLower_TrimRightSpace, ToLower_TrimLeftSpace. Qed.

Lemma ToLower_idem s : ToLower (ToLower s) = ToLower s.
Proof.
  unfold ToLower at 1. apply Map_fixed.
  apply (all_bytes_Map (fun _ => true)); [| apply all_bytes_true].
  intros c _. apply ToLowerByte_idem.
Qed.

Lemma ToLower_Join_Fields_ToLower s :
  ToLower (Join (Fields (ToLower s)) " ") = Join (Fields (ToLower s)) " ".
Proof.
  apply Map_fixed. apply Join_all_bytes; [reflexivity |].
  apply Fields_all_bytes. apply (all_bytes_Map (fun _ => true)); [| apply all_bytes_true].
  intros c _. apply ToLowerByte_idem.
Qed.

Lemma NormalizeText_unfold text :
  NormalizeText text = Join (Fields (ToLower text)) " ".
Proof. unfold NormalizeText. now rewrite ToLower_TrimSpace, Fields_TrimSpace. Qed.

Lemma Fields_NormalizeText text : Fields (NormalizeText text) = Fields (ToLower text).
Proof. rewrite NormalizeText_unfold. apply Fields_Join. apply Fields_words. Qed.

Lemma normalizeText_NormalizeText text :
  normalizeText (NormalizeText text) = normalizeText text.
Proof.
  rewrite (normalizeText_unfold (NormalizeText text)), NormalizeText_unfold.
  rewrite ToLower_Join_Fields_ToLower.
  rewrite (Fields_Join (Fields (ToLower text)) (Fields_words _)).
  reflexivity.
Qed.

(** X9. models.NormalizeText is the fields of the lower-cased text joined by
    blanks (its TrimSpace changes nothing), it is idempotent, and
    normalizeText of its result is normalizeText of the text. *)
Theorem NormalizeText_properties :
  forall text : string,
    NormalizeText text = Join (Fields (ToLower text)) " "
    /\ NormalizeText (NormalizeText text) = NormalizeText text
    /\ Fields (NormalizeText text) = Fields (ToLower text)
    /\ normalizeText (NormalizeText text) = normalizeText text.
Proof.
  intros text. split; [apply NormalizeText_unfold |].
  split; [| split; [apply Fields_NormalizeText | apply normalizeText_NormalizeText]].
  rewrite (NormalizeText_unfold (NormalizeText text)), NormalizeText_unfold.
  rewrite ToLower_Join_Fields_ToLower.
  apply Join_Fields_Join. apply Fields_words.
Qed.

(** X10. IntentService.ExtractIntent returns the task and the confidence the
    provider returns for the text itself; only the entities are read from the
    text as models.NormalizeText leaves it. *)
Theorem service_classifies_as_the_provider :
  forall (p : EnhancedLocalProvider) oi o1 o2 o3 (text : string),
    let viaService := IntentService.ExtractIntent p oi o1 o2 o3 text in
    let direct := services.ExtractIntent p oi o1 o2 o3 text in
    Task viaService = Task direct
    /\ Vars viaService !! "confidence" = Vars direct !! "confidence"
    /\ Vars viaService
       = <["confidence" := VFloat (Confidence_ (classifyIntent p oi (normalizeText text)))]>
           (VString <$> extractEntities p o1 o2 o3 (NormalizeText text)).
Proof.
  intros p oi o1 o2 o3 text. cbv zeta. unfold IntentService.ExtractIntent.
  rewrite !ExtractIntent_Task, !ExtractIntent_Vars, normalizeText_NormalizeText.
  rewrite !lookup_insert_eq. repeat split.
Qed.

(** ** Tokens and the word overlap *)

(** X11. The tokens of a text are the fields of the lower-cased text that are
    not stop words; each is a word without a space that lower-casing leaves as
    it is. *)
Theorem tokens_are_lower_case_words_and_no_stop_words :
  forall (text token : string),
    In token (tokenize text)
    <-> In token (Fields (ToLower text)) /\ isStopWord token = false
        /\ ToLower token = token /\ is_word token = true.
Proof.
  intros text token. unfold tokenize. rewrite filter_In, negb_true_iff. split.
  - intros [Hin Hstop]. split; [exact Hin |]. split; [exact Hstop |].
    pose proof (Fields_words (ToLower text)) as Hw.
    assert (Hl : Forall (fun w => all_bytes (fun c => Ascii.eqb (ToLowerByte c) c) w = true)
                   (Fields (ToLower text))).
    { apply Fields_all_bytes. apply (all_bytes_Map (fun _ => true)); [| apply all_bytes_true].
      intros c _. apply ToLowerByte_idem. }
    rewrite List.Forall_forall in Hw, Hl. split.
    + apply Map_fixed. exact (Hl token Hin).
    + exact (Hw token Hin).
  - intros (Hin & Hstop & _). split; assumption.
Qed.

Lemma overlap_count_set (tw tw' iw : list string) :
  (forall w, In w tw <-> In w tw') ->
  List.filter (fun word => existsb (String.eqb word) tw) iw
  = List.filter (fun word => existsb (String.eqb word) tw') iw.
Proof.
  intros Hset. apply filter_ext. intros w.
  destruct (existsb (String.eqb w) tw) eqn:H1, (existsb (String.eqb w) tw') eqn:H2;
    try reflexivity.
  - apply existsb_eqb_In in H1. apply Hset, existsb_eqb_In in H1. congruence.
  - apply existsb_eqb_In in H2. apply Hset, existsb_eqb_In in H2. congruence.
Qed.

Lemma filter_length_perm {A : Type} (f : A -> bool) (l l' : list A) :
  l ≡ₚ l' -> List.length (List.filter f l) = List.length (List.filter f l').
Proof.
  induction 1 as [| x l l' _ IH | x y l | l l' l'' _ IH1 _ IH2]; cbn [List.filter].
  - reflexivity.
  - destruct (f x); cbn [List.length]; now rewrite IH.
  - destruct (f x), (f y); reflexivity.
  - now rewrite IH1.
Qed.

(** X12. calculateWordOverlap depends on the words of the text as a set and on
    the words of the intent up to their order. *)
Theorem word_overlap_sees_sets_of_words :
  forall (textWords textWords' intentWords intentWords' : list string),
    (forall w, In w textWords <-> In w textWords') ->
    intentWords ≡ₚ intentWords' ->
    calculateWordOverlap textWords intentWords
    = calculateWordOverlap textWords' intentWords'.
Proof.
  intros tw tw' iw iw' Hset Hperm. unfold calculateWordOverlap. cbv zeta.
  rewrite (overlap_count_set tw tw' iw Hset).
  rewrite (filter_length_perm _ iw iw' Hperm), (Permutation_length Hperm).
  reflexivity.
Qed.

Lemma word_overlap_witness :
  (forall w, In w ["add"; "contact"; "add"] <-> In w ["contact"; "add"])
  /\ ["create"; "add"; "contact"] ≡ₚ ["contact"; "create"; "add"]
  /\ calculateWordOverlap ["add"; "contact"; "add"] ["create"; "add"; "contact"]
     = calculateWordOverlap ["contact"; "add"] ["contact"; "create"; "add"].
Proof.
  assert (Hset : forall w, In w ["add"; "contact"; "add"] <-> In w ["contact"; "add"])
    by (intros w; cbn [In]; tauto).
  assert (Hperm : ["create"; "add"; "contact"] ≡ₚ ["contact"; "create"; "add"]).
  { etransitivity; [apply Permutation_swap |].
    etransitivity; [apply Permutation_skip, Permutation_swap |].
    etransitivity; [apply Permutation_swap |].
    apply Permutation_skip, Permutation_swap. }
  split; [exact Hset |]. split; [exact Hperm |].
  exact (word_overlap_sees_sets_of_words _ _ _ _ Hset Hperm).
Defined.

(** ** extractEntities, entry by entry *)

Lemma pass_lookup (cond : string -> bool) p text order (entities : gmap string string) k :
  order ≡ₚ map_to_list (Entities (config p)) ->
  pass cond p text order entities !! k
  = match Entities (config p) !! k with
    | Some e => if cond k then entityValue p text k e (entities !! k) else entities !! k
    | None => entities !! k
    end.
Proof.
  intros Hp. destruct (Entities (config p) !! k) as [e |] eqn:Hl.
  - destruct (cond k) eqn:Hc.
    + apply pass_lookup_in; [exact (order_NoDup _ _ Hp) | | exact Hc].
      apply (In_order_lookup _ _ _ _ Hp). exact Hl.
    + apply pass_lookup_out. left; exact Hc.
  - apply pass_lookup_out. right. intros Hin.
    apply (order_names _ _ _ Hp) in Hin. rewrite Hl in Hin. destruct Hin as [? [=]].
Qed.

Lemma extractEntities_lookup p o1 o2 o3 text k :
  o1 ≡ₚ map_to_list (Entities (config p)) ->
  o2 ≡ₚ map_to_list (Entities (config p)) ->
  o3 ≡ₚ map_to_list (Entities (config p)) ->
  extractEntities p o1 o2 o3 text !! k
  = Entities (config p) !! k ≫= (fun e => entityValue p text k e None).
Proof.
  intros H1 H2 H3. rewrite extractEntities_passes.
  rewrite (pass_lookup _ p text o3 _ k H3), (pass_lookup _ p text o2 _ k H2),
    (pass_lookup _ p text o1 _ k H1), lookup_empty.
  destruct (Entities (config p) !! k) as [e |]; [| reflexivity]. cbn.
  destruct (String.eqb k "name") eqn:Hn; destruct (String.eqb k "title") eqn:Ht;
    cbn; try reflexivity.
  apply String.eqb_eq in Hn, Ht. congruence.
Qed.

Lemma entityValue_fresh p text k e :
  entityValue p text k e None
  = let value := extractEntityByKeywords p text k e in
    match regexValue (at_key (EntityRegexes (compiled p)) k) text with
    | Some v =>
        if String.eqb v EmptyString
        then (if String.eqb value EmptyString then Some EmptyString else Some value)
        else Some v
    | None => if String.eqb value EmptyString then None else Some value
    end.
Proof.
  unfold entityValue. cbv zeta.
  destruct (regexValue (at_key (EntityRegexes (compiled p)) k) text) as [v |];
    cbn [default from_option id].
  - destruct (String.eqb_spec v EmptyString) as [-> | Hv]; [| reflexivity].
    now destruct (String.eqb (extractEntityByKeywords p text k e) EmptyString).
  - cbn [String.eqb].
    now destruct (String.eqb (extractEntityByKeywords p text k e) EmptyString).
Qed.

(** X13. What extractEntities holds under a name: nothing for a name that is not
    a configured entity; else the first group of the first expression that
    matches, when that group is not empty; else the value of
    extractEntityByKeywords, when that is not empty; else the empty group if
    an expression matched, and nothing otherwise. *)
Theorem extractEntities_entry :
  forall (p : EnhancedLocalProvider) o1 o2 o3 (text k : string),
    o1 ≡ₚ map_to_list (Entities (config p)) ->
    o2 ≡ₚ map_to_list (Entities (config p)) ->
    o3 ≡ₚ map_to_list (Entities (config p)) ->
    extractEntities p o1 o2 o3 text !! k
    = match Entities (config p) !! k with
      | None => None
      | Some entity =>
          let value := extractEntityByKeywords p text k entity in
          match regexValue (at_key (EntityRegexes (compiled p)) k) text with
          | Some v =>
              if String.eqb v EmptyString
              then (if String.eqb value EmptyString then Some EmptyString else Some value)
              else Some v
          | None => if String.eqb value EmptyString then None else Some value
          end
      end.
Proof.
  intros p o1 o2 o3 text k H1 H2 H3.
  rewrite (extractEntities_lookup p o1 o2 o3 text k H1 H2 H3).
  destruct (Entities (config p) !! k) as [e |]; [| reflexivity].
  cbn [mbind option_bind]. apply entityValue_fresh.
Qed.

Lemma extractEntities_entry_witness :
  let p := defaultProvider in
  let oe := map_to_list (Entities (config p)) in
  let text := "add contact Alice, email alice@example.com" in
  oe ≡ₚ map_to_list (Entities (config p))
  /\ extractEntities p oe oe oe text !! "email" = Some "alice@example.com"
  /\ extractEntities p oe oe oe text !! "email"
     = match Entities (config p) !! "email" with
       | None => None
       | Some entity =>
           let value := extractEntityByKeywords p text "email" entity in
           match regexValue (at_key (EntityRegexes (compiled p)) "email") text with
           | Some v =>
               if String.eqb v EmptyString
               then (if String.eqb value EmptyString then Some EmptyString else Some value)
               else Some v
           | None => if String.eqb value EmptyString then None else Some value
           end
       end.
Proof.
  cbv zeta. split; [reflexivity |]. split; [vm_compute; reflexivity |].
  exact (extractEntities_entry defaultProvider _ _ _
           "add contact Alice, email alice@example.com" "email"
           (reflexivity _) (reflexivity _) (reflexivity _)).
Defined.

(** X14. extractEntities holds the empty string under a name exactly when an
    expression of that entity matched with an empty first group and
    extractEntityByKeywords found nothing: the keyword path never stores an
    empty value. *)
Theorem extractEntities_empty_value_iff :
  forall (p : EnhancedLocalProvider) o1 o2 o3 (text k : string),
    o1 ≡ₚ map_to_list (Entities (config p)) ->
    o2 ≡ₚ map_to_list (Entities (config p)) ->
    o3 ≡ₚ map_to_list (Entities (config p)) ->
    extractEntities p o1 o2 o3 text !! k = Some EmptyString
    <-> exists entity,
          Entities (config p) !! k = Some entity
          /\ regexValue (at_key (EntityRegexes (compiled p)) k) text = Some EmptyString
          /\ extractEntityByKeywords p text k entity = EmptyString.
Proof.
  intros p o1 o2 o3 text k H1 H2 H3.
  rewrite (extractEntities_lookup p o1 o2 o3 text k H1 H2 H3).
  destruct (Entities (config p) !! k) as [e |];
    [| split; [discriminate | intros (? & [=] & _)]].
  cbn [mbind option_bind]. rewrite entityValue_fresh. cbv zeta.
  destruct (regexValue (at_key (EntityRegexes (compiled p)) k) text) as [v |].
  - destruct (String.eqb_spec v EmptyString) as [-> | Hv].
    + destruct (String.eqb_spec (extractEntityByKeywords p text k e) EmptyString) as [Hk | Hk].
      * split; [| reflexivity]. intros _. exists e. repeat split. exact Hk.
      * split; [intros [= Heq]; contradiction |].
        intros (e' & [= <-] & _ & Hk'). contradiction.
    + split; [intros [= Heq]; contradiction |].
      intros (e' & _ & [= Heq] & _). contradiction.
  - destruct (String.eqb_spec (extractEntityByKeywords p text k e) EmptyString) as [Hk | Hk].
    + split; [discriminate | intros (e' & _ & [=] & _)].
    + split; [intros [= Heq]; contradiction | intros (e' & _ & [=] & _)].
Qed.

Lemma extractEntities_empty_value_witness :
  let p := defaultProvider in
  let oe := map_to_list (Entities (config p)) in
  let text := "555-123-4567" in
  oe ≡ₚ map_to_list (Entities (config p))
  /\ (extractEntities p oe oe oe text !! "phone" = Some EmptyString
      <-> exists entity,
            Entities (config p) !! "phone" = Some entity
            /\ regexValue (at_key (EntityRegexes (compiled p)) "phone") text
               = Some EmptyString
            /\ extractEntityByKeywords p text "phone" entity = EmptyString).
Proof.
  cbv zeta. split; [reflexivity |].
  exact (extractEntities_empty_value_iff defaultProvider _ _ _ "555-123-4567" "phone"
           (reflexivity _) (reflexivity _) (reflexivity _)).
Defined.

(** X15. For an entity whose name is none of name, email, phone, date, time,
    location and title, extractEntities holds what the expressions of the
    entity capture and nothing else. *)
Theorem extractEntities_other_names_by_regex_only :
  forall (p : EnhancedLocalProvider) o1 o2 o3 (text k : string),
    o1 ≡ₚ map_to_list (Entities (config p)) ->
    o2 ≡ₚ map_to_list (Entities (config p)) ->
    o3 ≡ₚ map_to_list (Entities (config p)) ->
    ~ In k ["name"; "email"; "phone"; "date"; "time"; "location"; "title"] ->
    extractEntities p o1 o2 o3 text !! k
    = Entities (config p) !! k
      ≫= (fun _ => regexValue (at_key (EntityRegexes (compiled p)) k) text).
Proof.
  intros p o1 o2 o3 text k H1 H2 H3 Hk.
  rewrite (extractEntities_lookup p o1 o2 o3 text k H1 H2 H3).
  destruct (Entities (config p) !! k) as [e |]; [| reflexivity].
  cbn [mbind option_bind]. rewrite entityValue_fresh. cbv zeta.
  assert (Hv : extractEntityByKeywords p text k e = EmptyString).
  { unfold extractEntityByKeywords. cbv zeta.
    repeat match goal with
    | |- context [String.eqb k ?s] =>
        destruct (String.eqb_spec k s) as [-> | ?];
        [exfalso; apply Hk; cbn; tauto |]
    end. reflexivity. }
  rewrite Hv. cbn [String.eqb].
  destruct (regexValue (at_key (EntityRegexes (compiled p)) k) text) as [v |];
    [| reflexivity].
  destruct (String.eqb_spec v EmptyString) as [-> | Hne]; reflexivity.
Qed.

Lemma ticketProvider_ok :
  NewEnhancedLocalProvider (fun _ => Some ticketConfig) "ticket.json"
    (map_to_list (Intents ticketConfig)) (map_to_list (Intents ticketConfig))
    (map_to_list (Entities ticketConfig)) (map_to_list (Synonyms ticketConfig))
  = Some ticketProvider.
Proof.
  assert (H : match NewEnhancedLocalProvider (fun _ => Some ticketConfig) "ticket.json"
                      (map_to_list (Intents ticketConfig))
                      (map_to_list (Intents ticketConfig))
                      (map_to_list (Entities ticketConfig))
                      (map_to_list (Synonyms ticketConfig)) with
              | Some _ => True
              | None => False
              end) by (vm_compute; exact I).
  unfold ticketProvider.
  destruct (NewEnhancedLocalProvider _ _ _ _ _ _); [reflexivity | contradiction].
Qed.

Lemma extractEntities_other_names_witness :
  let p := ticketProvider in
  let oe := map_to_list (Entities (config p)) in
  let text := "Please reopen ticket #4521 for Bob" in
  oe ≡ₚ map_to_list (Entities (config p))
  /\ ~ In "ticket" ["name"; "email"; "phone"; "date"; "time"; "location"; "title"]
  /\ is_Some (Entities (config p) !! "ticket")
  /\ regexValue (at_key (EntityRegexes (compiled p)) "ticket") text = Some "4521"
  /\ extractEntities p oe oe oe text !! "ticket" = Some "4521"
  /\ extractEntities p oe oe oe text !! "ticket"
     = Entities (config p) !! "ticket"
       ≫= (fun _ => regexValue (at_key (EntityRegexes (compiled p)) "ticket") text).
Proof.
  cbv zeta. split; [reflexivity |].
  assert (Hk : ~ In "ticket"
                 ["name"; "email"; "phone"; "date"; "time"; "location"; "title"]).
  { cbn [In]. intros H. repeat (destruct H as [H | H]; [discriminate H |]). exact H. }
  split; [exact Hk |].
  split; [vm_compute; eauto |].
  split; [vm_compute; reflexivity |]. split; [vm_compute; reflexivity |].
  exact (extractEntities_other_names_by_regex_only ticketProvider _ _ _
           "Please reopen ticket #4521 for Bob" "ticket"
           (reflexivity _) (reflexivity _) (reflexivity _) Hk).
Defined.

Lemma extractOne_ignores_entity p text ents name entity entity' :
  extractOne p text ents (name, entity) = extractOne p text ents (name, entity').
Proof. reflexivity. Qed.

Lemma pass_names cond p text order order' ents :
  order.*1 = order'.*1 ->
  pass cond p text order ents = pass cond p text order' ents.
Proof.
  revert order' ents. induction order as [| [n e] order IH]; intros [| [n' e'] order'] ents;
    cbn [fmap list_fmap fst]; try discriminate; [reflexivity |].
  intros [= <- Hrest]. unfold pass in *. cbn [fold_left fst].
  rewrite (extractOne_ignores_entity p text ents n e e'). apply IH. exact Hrest.
Qed.

(** X16. extractEntities reads the names of the configured entities and their
    compiled expressions only: the definitions of the entities (their
    keywords among them) do not change its result. *)
Theorem extractEntities_reads_entity_names_only :
  forall (p : EnhancedLocalProvider) o1 o2 o3 o1' o2' o3' (text : string),
    o1.*1 = o1'.*1 -> o2.*1 = o2'.*1 -> o3.*1 = o3'.*1 ->
    extractEntities p o1 o2 o3 text = extractEntities p o1' o2' o3' text.
Proof.
  intros p o1 o2 o3 o1' o2' o3' text H1 H2 H3. rewrite !extractEntities_passes.
  rewrite (pass_names _ p text o1 o1' _ H1), (pass_names _ p text o2 o2' _ H2).
  apply pass_names. exact H3.
Qed.

Lemma extractEntities_names_only_witness :
  let p := defaultProvider in
  let oe := map_to_list (Entities (config p)) in
  let text := "add contact Alice, email alice@example.com" in
  oe.*1 = (blankEntities oe).*1
  /\ extractEntities p oe oe oe text
     = extractEntities p (blankEntities oe) (blankEntities oe) (blankEntities oe) text.
Proof.
  cbv zeta.
  assert (H : (map_to_list (Entities (config defaultProvider))).*1
              = (blankEntities (map_to_list (Entities (config defaultProvider)))).*1)
    by (vm_compute; reflexivity).
  split; [exact H |].
  exact (extractEntities_reads_entity_names_only defaultProvider _ _ _ _ _ _
           "add contact Alice, email alice@example.com" H H H).
Defined.

(** ** One quoted span, two entities *)

Example titledNoteProvider_compiled :
  compileConfig (config titledNoteProvider)
    (map_to_list (Intents (config titledNoteProvider)))
    (map_to_list (Entities (config titledNoteProvider)))
    (map_to_list (Synonyms (config titledNoteProvider)))
  = Some (compiled titledNoteProvider).
Proof. vm_compute. reflexivity. Qed.

Lemma quoted_span_entity p o1 o2 o3 pre body post k :
  o1 ≡ₚ map_to_list (Entities (config p)) ->
  o2 ≡ₚ map_to_list (Entities (config p)) ->
  o3 ≡ₚ map_to_list (Entities (config p)) ->
  quote_free pre = true -> quote_free body = true -> body <> EmptyString ->
  k = "name" \/ k = "title" ->
  is_Some (Entities (config p) !! k) ->
  no_first_group (at_key (EntityRegexes (compiled p)) k)
    (pre ++ quote ++ body ++ quote ++ post) = true ->
  extractEntities p o1 o2 o3 (pre ++ quote ++ body ++ quote ++ post) !! k = Some body.
Proof.
  intros H1 H2 H3 Hpre Hbody Hne Hk [e He] Hre.
  rewrite (extractEntities_lookup p o1 o2 o3 _ k H1 H2 H3), He.
  cbn [mbind option_bind]. rewrite entityValue_fresh. cbv zeta.
  assert (Hv : extractEntityByKeywords p (pre ++ quote ++ body ++ quote ++ post) k e = body).
  { unfold extractEntityByKeywords. cbv zeta.
    rewrite (quotedSpan_quoted pre body post Hpre Hbody Hne).
    destruct Hk as [-> | ->]; reflexivity. }
  rewrite Hv.
  assert (Hb : String.eqb body EmptyString = false).
  { destruct (String.eqb_spec body EmptyString); [contradiction | reflexivity]. }
  rewrite Hb.
  destruct (no_first_group_regexValue _ _ Hre) as [-> | ->]; reflexivity.
Qed.

(** X17. When the text holds a double-quoted span and the expressions of the
    entity title capture nothing, the span is the title; if the entity name is
    configured as well and its expressions capture nothing, the same span is
    also the name. *)
Theorem one_quoted_span_is_both_name_and_title :
  forall (p : EnhancedLocalProvider) o1 o2 o3 (pre body post : string),
    let text := pre ++ quote ++ body ++ quote ++ post in
    o1 ≡ₚ map_to_list (Entities (config p)) ->
    o2 ≡ₚ map_to_list (Entities (config p)) ->
    o3 ≡ₚ map_to_list (Entities (config p)) ->
    quote_free pre = true -> quote_free body = true -> body <> EmptyString ->
    is_Some (Entities (config p) !! "title") ->
    no_first_group (at_key (EntityRegexes (compiled p)) "title") text = true ->
    extractEntities p o1 o2 o3 text !! "title" = Some body
    /\ (is_Some (Entities (config p) !! "name") ->
        no_first_group (at_key (EntityRegexes (compiled p)) "name") text = true ->
        extractEntities p o1 o2 o3 text !! "name"
        = extractEntities p o1 o2 o3 text !! "title").
Proof.
  intros p o1 o2 o3 pre body post. cbv zeta. intros H1 H2 H3 Hpre Hbody Hne Ht Hrt.
  assert (Htitle : extractEntities p o1 o2 o3 (pre ++ quote ++ body ++ quote ++ post)
                     !! "title" = Some body).
  { apply quoted_span_entity; auto. }
  split; [exact Htitle |]. intros Hn Hrn. rewrite Htitle.
  apply quoted_span_entity; auto.
Qed.

Lemma one_quoted_span_witness :
  let p := titledNoteProvider in
  let oe := map_to_list (Entities (config p)) in
  let text := "note " ++ quote ++ "buy milk" ++ quote ++ " for Bob" in
  oe ≡ₚ map_to_list (Entities (config p))
  /\ quote_free "note " = true /\ quote_free "buy milk" = true
  /\ "buy milk" <> EmptyString
  /\ is_Some (Entities (config p) !! "title")
  /\ no_first_group (at_key (EntityRegexes (compiled p)) "title") text = true
  /\ extractEntities p oe oe oe text !! "title" = Some "buy milk"
  /\ extractEntities p oe oe oe text !! "name" = Some "buy milk".
Proof.
  cbv zeta.
  assert (Ht : is_Some (Entities (config titledNoteProvider) !! "title"))
    by (vm_compute; eauto).
  assert (Hn : is_Some (Entities (config titledNoteProvider) !! "name"))
    by (vm_compute; eauto).
  assert (Hrt : no_first_group (at_key (EntityRegexes (compiled titledNoteProvider)) "title")
                  ("note " ++ quote ++ "buy milk" ++ quote ++ " for Bob") = true)
    by (vm_compute; reflexivity).
  assert (Hrn : no_first_group (at_key (EntityRegexes (compiled titledNoteProvider)) "name")
                  ("note " ++ quote ++ "buy milk" ++ quote ++ " for Bob") = true)
    by (vm_compute; reflexivity).
  assert (Hne : "buy milk" <> EmptyString) by discriminate.
  destruct (one_quoted_span_is_both_name_and_title titledNoteProvider
              (map_to_list (Entities (config titledNoteProvider)))
              (map_to_list (Entities (config titledNoteProvider)))
              (map_to_list (Entities (config titledNoteProvider)))
              "note " "buy milk" " for Bob"
              (reflexivity _) (reflexivity _) (reflexivity _)
              eq_refl eq_refl Hne Ht Hrt) as [Htitle Hname].
  split; [reflexivity |]. split; [reflexivity |]. split; [reflexivity |].
  split; [exact Hne |]. split; [exact Ht |]. split; [exact Hrt |].
  split; [exact Htitle |]. rewrite (Hname Hn Hrn). exact Htitle.
Defined.

(** ** The word-anchored extractors *)

Lemma nameLoop_anchor words :
  nameLoop words = anchorLoop ["named"; "name"; "contact"; "person"] looksLikeName words.
Proof.
  induction words as [| word rest IH]; [reflexivity |].
  cbn [nameLoop anchorLoop]. rewrite IH. unfold looksLikeName.
  destruct (one_of (ToLower word) _); [| reflexivity].
  destruct rest as [| next rest2]; [reflexivity |].
  destruct (_ && _ && _); [| reflexivity].
  destruct rest2 as [| nextNext rest3]; [reflexivity |].
  destruct (String.eqb (ToLower nextNext) "with"); [reflexivity |].
  destruct (one_of (ToLower nextNext) _); reflexivity.
Qed.

Lemma emailLoop_anchor words :
  emailLoop words = anchorLoop ["email"; "e-mail"; "mail"] looksLikeEmail words.
Proof.
  induction words as [| word rest IH]; [reflexivity |].
  cbn [emailLoop anchorLoop]. rewrite IH. reflexivity.
Qed.

Lemma phoneLoop_anchor words :
  phoneLoop words = anchorLoop ["phone"; "mobile"; "cell"] looksLikePhone words.
Proof.
  induction words as [| word rest IH]; [reflexivity |].
  cbn [phoneLoop anchorLoop]. rewrite IH. reflexivity.
Qed.

Lemma timeLoop_anchor words :
  timeLoop words = anchorLoop ["at"] looksLikeTime words.
Proof.
  induction words as [| word rest IH]; [reflexivity |].
  cbn [timeLoop anchorLoop]. rewrite IH. unfold one_of. cbn [existsb].
  rewrite orb_false_r. reflexivity.
Qed.

Lemma locationLoop_anchor words :
  locationLoop words = anchorLoop ["in"; "at"] looksLikeName words.
Proof.
  induction words as [| word rest IH]; [reflexivity |].
  cbn [locationLoop anchorLoop]. rewrite IH. reflexivity.
Qed.

Lemma anchorLoop_first anchors accept words v :
  accept EmptyString = false ->
  (anchorLoop anchors accept words = v /\ v <> EmptyString)
  <-> first_anchored anchors accept words v.
Proof.
  intros Hempty. revert v. induction words as [| word rest IH]; intros v.
  - cbn [anchorLoop]. split.
    + intros [<- Hv]. contradiction.
    + intros (before & anchor & next & after & Hw & _). now destruct before.
  - assert (Hskip : (one_of (ToLower word) anchors = true ->
                     forall next rest2, rest = next :: rest2 ->
                                        accept (trimmed next) = false) ->
                    (anchorLoop anchors accept rest = v /\ v <> EmptyString)
                    <-> first_anchored anchors accept (word :: rest) v).
    { intros Hcase. rewrite IH. split.
      - intros (before & anchor & next & after & Hw & Ha & Hv & Hacc & Hfirst).
        exists (word :: before), anchor, next, after.
        split; [now rewrite Hw |]. repeat (split; [assumption |]).
        intros b a n r Heq Hanchor. destruct b as [| b0 b].
        + cbn in Heq. injection Heq as Hword Hrest. subst a.
          destruct before as [| b1 before]; cbn in Hw, Hrest.
          * injection Hrest as Hn _. subst n.
            exact (Hcase Hanchor anchor (next :: after) Hw).
          * injection Hrest as Hn _. subst n.
            exact (Hcase Hanchor b1 _ Hw).
        + cbn in Heq. injection Heq as _ Heq. exact (Hfirst b a n r Heq Hanchor).
      - intros (before & anchor & next & after & Hw & Ha & Hv & Hacc & Hfirst).
        destruct before as [| b0 before].
        + cbn in Hw. injection Hw as Hword Hrest. subst word. exfalso.
          rewrite Hv in Hacc.
          rewrite (Hcase Ha next after Hrest) in Hacc. discriminate Hacc.
        + cbn in Hw. injection Hw as Hword Hrest. subst b0.
          exists before, anchor, next, after. split; [exact Hrest |].
          repeat (split; [assumption |]).
          intros b a n r Heq Hanchor.
          apply (Hfirst (word :: b) a n r); [| exact Hanchor].
          cbn. now rewrite Heq. }
    cbn [anchorLoop]. destruct (one_of (ToLower word) anchors) eqn:Hone;
      [| apply Hskip; discriminate].
    destruct rest as [| next rest2]; [apply Hskip; discriminate |].
    destruct (accept (trimmed next)) eqn:Hacc;
      [| apply Hskip; intros _ n r2 Heq; injection Heq as Hn _; subst n; exact Hacc].
    split.
    + intros [<- Hv]. exists [], word, next, rest2. split; [reflexivity |].
      repeat (split; [first [assumption | reflexivity] |]).
      intros b a n r Heq. destruct b as [| ? [| ? ?]]; discriminate Heq.
    + intros (before & anchor & next' & after & Hw & Ha & Hv & Hacc' & Hfirst).
      destruct before as [| b0 before].
      * cbn in Hw. injection Hw as _ Hn _. subst next'. split; [now rewrite Hv |].
        intros ->. congruence.
      * exfalso. cbn in Hw. injection Hw as Hword Hrest. subst b0.
        assert (Hrej : accept (trimmed next) = false).
        { destruct before as [| b1 before]; cbn in Hrest.
          - injection Hrest as Hn _. subst anchor.
            apply (Hfirst [] word next []); [reflexivity | exact Hone].
          - injection Hrest as Hn _. subst b1.
            apply (Hfirst [] word next (before ++ [anchor])%list); [reflexivity | exact Hone]. }
        congruence.
Qed.

(** X18. The cases email, phone, time and location of extractEntityByKeywords,
    and the case name when the text has no quoted span, return a non-empty
    value exactly when it is the trimmed word after an anchor word, it passes
    the check of the case, and no earlier anchor word is followed by a word
    that passes. *)
Theorem keyword_value_is_first_accepted_word_after_an_anchor :
  forall (p : EnhancedLocalProvider) (text : string) (entity : EntityPattern.t)
         (v : string),
    let words := Fields text in
    let found name := extractEntityByKeywords p text name entity = v /\ v <> EmptyString in
    (found "email" <-> first_anchored ["email"; "e-mail"; "mail"] looksLikeEmail words v)
    /\ (found "phone" <-> first_anchored ["phone"; "mobile"; "cell"] looksLikePhone words v)
    /\ (found "time" <-> first_anchored ["at"] looksLikeTime words v)
    /\ (found "location" <-> first_anchored ["in"; "at"] looksLikeName words v)
    /\ (quotedSpan text = None /\ found "name"
        <-> quotedSpan text = None
            /\ first_anchored ["named"; "name"; "contact"; "person"] looksLikeName words v).
Proof.
  intros p text entity v. cbv zeta.
  unfold extractEntityByKeywords. cbv zeta. cbn [String.eqb Ascii.eqb Bool.eqb andb].
  rewrite emailLoop_anchor, phoneLoop_anchor, timeLoop_anchor, locationLoop_anchor.
  repeat (split; [apply anchorLoop_first; reflexivity |]).
  split.
  - intros [Hq H]. split; [exact Hq |]. rewrite Hq, nameLoop_anchor in H.
    apply anchorLoop_first in H; [exact H | reflexivity].
  - intros [Hq H]. split; [exact Hq |]. rewrite Hq, nameLoop_anchor.
    apply anchorLoop_first; [reflexivity | exact H].
Qed.

(** ** The date case *)

Lemma dateLoop_spec words :
  (dateLoop words = EmptyString /\ forall w, In w words -> isDateWord w = false)
  \/ exists before w after,
       words = (before ++ w :: after)%list
       /\ dateLoop words = ToLower (trimmed w)
       /\ isDateWord w = true
       /\ forall w', In w' before -> isDateWord w' = false.
Proof.
  induction words as [| word rest IH]; [left; split; [reflexivity | intros w []] |].
  cbn [dateLoop]. fold (isDateWord word). destruct (isDateWord word) eqn:Hd.
  - right. exists [], word, rest. repeat split; try assumption. intros w' [].
  - destruct IH as [[He Hall] | (before & w & after & Hw & Hv & Hdw & Hfirst)].
    + left. split; [exact He |]. intros w [<- | Hin]; [exact Hd | exact (Hall w Hin)].
    + right. exists (word :: before), w, after. split; [now rewrite Hw |].
      repeat (split; [assumption |]).
      intros w' [<- | Hin]; [exact Hd | exact (Hfirst w' Hin)].
Qed.

(** X19. The case date of extractEntityByKeywords returns today, tomorrow or
    yesterday, from the first word of the text that is one of them once trimmed
    and lower-cased, and the empty string when there is none. *)
Theorem date_value_is_a_day_word :
  forall (p : EnhancedLocalProvider) (text : string) (entity : EntityPattern.t),
    let v := extractEntityByKeywords p text "date" entity in
    (v = EmptyString /\ forall w, In w (Fields text) -> isDateWord w = false)
    \/ (In v ["today"; "tomorrow"; "yesterday"]
        /\ exists before w after,
             Fields text = (before ++ w :: after)%list
             /\ v = ToLower (trimmed w)
             /\ forall w', In w' before -> isDateWord w' = false).
Proof.
  intros p text entity. cbv zeta.
  change (extractEntityByKeywords p text "date" entity) with (dateLoop (Fields text)).
  destruct (dateLoop_spec (Fields text))
    as [H | (before & w & after & Hw & Hv & Hdw & Hfirst)]; [left; exact H |].
  right. split.
  - rewrite Hv. unfold isDateWord, one_of in Hdw. cbn [existsb] in Hdw.
    rewrite !orb_true_iff in Hdw. cbn [In].
    destruct Hdw as [H | [H | [H | H]]]; try discriminate H;
      apply String.eqb_eq in H; rewrite H; tauto.
  - exists before, w, after. repeat split; assumption.
Qed.

(** ** The title case *)

Lemma collectTitle_acc words acc :
  collectTitle words acc = (acc ++ collectTitle words [])%list.
Proof.
  revert acc. induction words as [| next rest IH]; intros acc; cbn [collectTitle].
  - now rewrite app_nil_r.
  - destruct (String.length (trimmed next) =? 0)%nat; [apply IH |].
    destruct (_ || _); [now rewrite app_nil_r |].
    rewrite (IH (acc ++ [trimmed next])%list), (IH ([] ++ [trimmed next])%list).
    now rewrite <- app_assoc.
Qed.

Lemma collectTitle_words words :
  Forall (fun w => w <> EmptyString /\ titleEnd w = false
                   /\ exists raw, In raw words /\ w = trimmed raw)
    (collectTitle words []).
Proof.
  induction words as [| next rest IH]; cbn [collectTitle]; [constructor |].
  assert (Hrest : Forall (fun w => w <> EmptyString /\ titleEnd w = false
                              /\ exists raw, In raw (next :: rest) /\ w = trimmed raw)
                    (collectTitle rest [])).
  { revert IH. apply List.Forall_impl. intros w (H1 & H2 & raw & Hin & Hraw).
    repeat split; try assumption. exists raw. split; [right; exact Hin | exact Hraw]. }
  destruct (String.length (trimmed next) =? 0)%nat eqn:Hlen; [exact Hrest |].
  fold (titleEnd (trimmed next)). destruct (titleEnd (trimmed next)) eqn:Hend; [constructor |].
  rewrite collectTitle_acc. cbn [app]. constructor; [| exact Hrest].
  split; [| split; [exact Hend | exists next; split; [left; reflexivity | reflexivity]]].
  intros He. rewrite He in Hlen. discriminate Hlen.
Qed.

Lemma titleLoop_spec words :
  titleLoop words = EmptyString
  \/ exists titleWords,
       titleWords <> []
       /\ titleLoop words = Join titleWords " "
       /\ Forall (fun w => w <> EmptyString /\ titleEnd w = false
                           /\ exists raw, In raw words /\ w = trimmed raw) titleWords.
Proof.
  induction words as [| word rest IH]; [left; reflexivity |].
  assert (Hrest : titleLoop rest = EmptyString
                  \/ exists titleWords,
                       titleWords <> []
                       /\ titleLoop rest = Join titleWords " "
                       /\ Forall (fun w => w <> EmptyString /\ titleEnd w = false
                                    /\ exists raw, In raw (word :: rest) /\ w = trimmed raw)
                            titleWords).
  { destruct IH as [H | (tws & Hne & Hv & Hall)]; [left; exact H | right].
    exists tws. repeat (split; [assumption |]). revert Hall. apply List.Forall_impl.
    intros w (H1 & H2 & raw & Hin & Hraw).
    repeat split; try assumption. exists raw. split; [right; exact Hin | exact Hraw]. }
  cbn [titleLoop]. destruct (one_of (ToLower word) _); [| exact Hrest].
  destruct (collectTitle rest []) as [| t ts] eqn:Hc; [exact Hrest |].
  cbn [List.length Nat.ltb Nat.leb]. right. exists (t :: ts).
  split; [discriminate |]. split; [reflexivity |].
  rewrite <- Hc. pose proof (collectTitle_words rest) as Hall. revert Hall.
  apply List.Forall_impl. intros w (H1 & H2 & raw & Hin & Hraw).
  repeat split; try assumption. exists raw. split; [right; exact Hin | exact Hraw].
Qed.

Lemma Join_nonempty w ws : w <> EmptyString -> Join (w :: ws) " " <> EmptyString.
Proof.
  intros Hw. destruct ws as [| w2 ws]; [exact Hw |].
  change (Join (w :: w2 :: ws) " ") with (w ++ " " ++ Join (w2 :: ws) " ").
  destruct w; [contradiction |]. rewrite append_cons. discriminate.
Qed.

(** X20. Without a quoted span the case title of extractEntityByKeywords returns
    the empty string or the join of a non-empty list of trimmed words of the
    text, none of them empty, a stop word or a boundary word; it returns the
    empty string exactly when no anchor word is followed by a word to collect. *)
Theorem title_value_is_words_up_to_a_stop_word :
  forall (p : EnhancedLocalProvider) (text : string) (entity : EntityPattern.t),
    quotedSpan text = None ->
    let v := extractEntityByKeywords p text "title" entity in
    (v = EmptyString
     \/ exists titleWords,
          titleWords <> [] /\ v = Join titleWords " "
          /\ Forall (fun w => w <> EmptyString /\ titleEnd w = false
                              /\ exists raw, In raw (Fields text) /\ w = trimmed raw)
               titleWords)
    /\ (v = EmptyString
        <-> forall before word after,
              Fields text = (before ++ word :: after)%list ->
              one_of (ToLower word) ["called"; "titled"; "named"; "for"] = true ->
              collectTitle after [] = []).
Proof.
  intros p text entity Hq. cbv zeta.
  assert (Hv : extractEntityByKeywords p text "title" entity = titleLoop (Fields text)).
  { unfold extractEntityByKeywords. cbv zeta. cbn [String.eqb Ascii.eqb Bool.eqb andb].
    now rewrite Hq. }
  rewrite Hv. split; [apply titleLoop_spec |].
  generalize (Fields text) as words. induction words as [| word rest IH].
  - split; [| reflexivity]. intros _ before w after Heq. now destruct before.
  - cbn [titleLoop]. destruct (one_of (ToLower word) _) eqn:Hone.
    + destruct (collectTitle rest []) as [| t ts] eqn:Hc.
      * cbn [List.length Nat.ltb Nat.leb]. rewrite IH. split.
        -- intros H before w after Heq Hw. destruct before as [| b0 before]; cbn in Heq.
           ++ injection Heq as _ <-. exact Hc.
           ++ injection Heq as _ Heq. exact (H before w after Heq Hw).
        -- intros H before w after Heq Hw. apply (H (word :: before) w after); [| exact Hw].
           cbn. now rewrite Heq.
      * cbn [List.length Nat.ltb Nat.leb]. split.
        -- intros He. exfalso. revert He. apply Join_nonempty.
           pose proof (collectTitle_words rest) as Hall. rewrite Hc in Hall.
           inversion Hall as [| ? ? (Hne & _) _]. exact Hne.
        -- intros H. specialize (H [] word rest eq_refl Hone). congruence.
    + rewrite IH. split.
      * intros H before w after Heq Hw. destruct before as [| b0 before]; cbn in Heq.
        -- injection Heq as <- _. congruence.
        -- injection Heq as _ Heq. exact (H before w after Heq Hw).
      * intros H before w after Heq Hw. apply (H (word :: before) w after); [| exact Hw].
        cbn. now rewrite Heq.
Qed.

Lemma title_value_witness :
  let p := defaultProvider in
  let text := "add a note called buy milk, tomorrow at 5pm" in
  let entity := entityOf p "title" in
  quotedSpan text = None
  /\ extractEntityByKeywords p text "title" entity = "buy milk"
  /\ (extractEntityByKeywords p text "title" entity = EmptyString
      \/ exists titleWords,
           titleWords <> []
           /\ extractEntityByKeywords p text "title" entity = Join titleWords " "
           /\ Forall (fun w => w <> EmptyString /\ titleEnd w = false
                               /\ exists raw, In raw (Fields text) /\ w = trimmed raw)
                titleWords).
Proof.
  cbv zeta.
  assert (Hq : quotedSpan "add a note called buy milk, tomorrow at 5pm" = None)
    by (vm_compute; reflexivity).
  split; [exact Hq |]. split; [vm_compute; reflexivity |].
  exact (proj1 (title_value_is_words_up_to_a_stop_word defaultProvider
                  "add a note called buy milk, tomorrow at 5pm"
                  (entityOf defaultProvider "title") Hq)).
Defined.

(** ** Text that went through the intent service *)

Lemma all_bytes_TrimLeft (P : ascii -> bool) s cutset :
  all_bytes P s = true -> all_bytes P (TrimLeft s cutset) = true.
Proof.
  induction s as [| c s IH]; [reflexivity |]. cbn [TrimLeft].
  destruct (byte_in c cutset); [| exact (fun H => H)].
  cbn [all_bytes]. rewrite andb_true_iff. intros [_ Hs]. exact (IH Hs).
Qed.

Lemma all_bytes_TrimRight (P : ascii -> bool) s cutset :
  all_bytes P s = true -> all_bytes P (TrimRight s cutset) = true.
Proof.
  induction s as [| c s IH]; [reflexivity |]. cbn [TrimRight all_bytes].
  rewrite andb_true_iff. intros [Hc Hs]. specialize (IH Hs).
  destruct (TrimRight s cutset) as [| d t].
  - destruct (byte_in c cutset); [reflexivity |]. cbn. now rewrite Hc.
  - cbn [all_bytes] in IH |- *. now rewrite Hc, IH.
Qed.

Lemma all_bytes_trimmed (P : ascii -> bool) w :
  all_bytes P w = true -> all_bytes P (trimmed w) = true.
Proof.
  intros H. unfold trimmed, Trim. apply all_bytes_TrimRight, all_bytes_TrimLeft. exact H.
Qed.

Lemma ascii_lower_not_upper c :
  is_ascii c = true -> negb (IsUpperRuneOfByte (ToLowerByte c)) = true.
Proof. by_bytes c. Qed.

Lemma looksLikeName_lower w :
  all_bytes (fun c => negb (IsUpperRuneOfByte c)) w = true ->
  looksLikeName (trimmed w) = false.
Proof.
  intros H. apply all_bytes_trimmed in H. unfold looksLikeName.
  destruct (trimmed w) as [| c t]; [reflexivity |].
  cbn [all_bytes] in H. apply andb_true_iff in H. destruct H as [Hc _].
  apply negb_true_iff in Hc. cbn [first_is_upper]. rewrite Hc.
  now rewrite andb_false_r.
Qed.

Lemma anchorLoop_never anchors accept words :
  Forall (fun w => accept (trimmed w) = false) words ->
  anchorLoop anchors accept words = EmptyString.
Proof.
  induction 1 as [| word rest Hw Hrest IH]; [reflexivity |].
  cbn [anchorLoop]. destruct (one_of (ToLower word) anchors); [| exact IH].
  destruct rest as [| next rest2]; [reflexivity |].
  inversion Hrest as [| ? ? Hnext _]; subst. now rewrite Hnext.
Qed.

Lemma service_words_lower text :
  all_bytes is_ascii text = true ->
  Forall (fun w => looksLikeName (trimmed w) = false) (Fields (NormalizeText text)).
Proof.
  intros Hascii. rewrite Fields_NormalizeText.
  assert (H : all_bytes (fun c => negb (IsUpperRuneOfByte c)) (ToLower text) = true).
  { apply (all_bytes_Map is_ascii); [| exact Hascii]. exact ascii_lower_not_upper. }
  apply Fields_all_bytes in H. revert H. apply List.Forall_impl.
  exact looksLikeName_lower.
Qed.

(** X21. On an ASCII text that went through models.NormalizeText the cases
    name and location of extractEntityByKeywords never accept a word: a
    location comes from the expressions only, a name from them or from a
    quoted span. *)
Theorem service_text_defeats_the_capital_letter_heuristics :
  forall (p : EnhancedLocalProvider) o1 o2 o3 (text : string) (entity : EntityPattern.t),
    all_bytes is_ascii text = true ->
    o1 ≡ₚ map_to_list (Entities (config p)) ->
    o2 ≡ₚ map_to_list (Entities (config p)) ->
    o3 ≡ₚ map_to_list (Entities (config p)) ->
    let normalizedText := NormalizeText text in
    extractEntityByKeywords p normalizedText "location" entity = EmptyString
    /\ extractEntityByKeywords p normalizedText "name" entity
       = default EmptyString (quotedSpan normalizedText)
    /\ extractEntities p o1 o2 o3 normalizedText !! "location"
       = Entities (config p) !! "location"
         ≫= (fun _ => regexValue (at_key (EntityRegexes (compiled p)) "location")
                        normalizedText).
Proof.
  intros p o1 o2 o3 text entity Hascii H1 H2 H3. cbv zeta.
  pose proof (service_words_lower text Hascii) as Hwords.
  assert (Hloc : forall e, extractEntityByKeywords p (NormalizeText text) "location" e
                           = EmptyString).
  { intros e.
    change (extractEntityByKeywords p (NormalizeText text) "location" e)
      with (locationLoop (Fields (NormalizeText text))).
    rewrite locationLoop_anchor. apply anchorLoop_never. exact Hwords. }
  split; [apply Hloc |]. split.
  - unfold extractEntityByKeywords. cbv zeta. cbn [String.eqb Ascii.eqb Bool.eqb andb].
    destruct (quotedSpan (NormalizeText text)); [reflexivity |].
    rewrite nameLoop_anchor. apply anchorLoop_never. exact Hwords.
  - rewrite (extractEntities_lookup p o1 o2 o3 _ "location" H1 H2 H3).
    destruct (Entities (config p) !! "location") as [e |]; [| reflexivity].
    cbn [mbind option_bind]. rewrite entityValue_fresh. cbv zeta. rewrite Hloc.
    cbn [String.eqb].
    destruct (regexValue _ _) as [v |]; [| reflexivity].
    destruct (String.eqb_spec v EmptyString) as [-> | Hne]; reflexivity.
Qed.

Lemma service_text_witness :
  let p := defaultProvider in
  let oe := map_to_list (Entities (config p)) in
  let text := "Meet contact Bob in Paris" in
  let entity := entityOf p "location" in
  all_bytes is_ascii text = true
  /\ oe ≡ₚ map_to_list (Entities (config p))
  /\ extractEntityByKeywords p text "location" entity = "Paris"
  /\ extractEntityByKeywords p text "name" entity = "Bob"
  /\ extractEntityByKeywords p (NormalizeText text) "location" entity = EmptyString
  /\ extractEntityByKeywords p (NormalizeText text) "name" entity
     = default EmptyString (quotedSpan (NormalizeText text)).
Proof.
  cbv zeta.
  assert (Ha : all_bytes is_ascii "Meet contact Bob in Paris" = true)
    by (vm_compute; reflexivity).
  split; [exact Ha |]. split; [reflexivity |].
  split; [vm_compute; reflexivity |]. split; [vm_compute; reflexivity |].
  destruct (service_text_defeats_the_capital_letter_heuristics defaultProvider _ _ _
              "Meet contact Bob in Paris" (entityOf defaultProvider "location") Ha
              (reflexivity _) (reflexivity _) (reflexivity _)) as (H1 & H2 & _).
  split; [exact H1 | exact H2].
Defined.

(** ** A recognised intent *)

Lemma loop_origin_above p text order init :
  fold_left (classifyStep p text) order init = init
  \/ exists e, In e order
       /\ fold_left (classifyStep p text) order init = (fst e, boostedScore p text e)
       /\ (snd init <? boostedScore p text e)%float = true.
Proof.
  revert init. induction order as [| e order IH]; intros init; cbn [fold_left]; [auto |].
  destruct (classifyStep_cases p text init e) as [[Hs _] | [Hs Hlt]]; rewrite Hs.
  - destruct (IH init) as [Hkeep | (e' & Hin & Heq & Hgt)]; [left; exact Hkeep |].
    right. exists e'. split; [right; exact Hin |]. split; assumption.
  - right. destruct (IH (fst e, boostedScore p text e)) as [Hkeep | (e' & Hin & Heq & Hgt)].
    + exists e. split; [left; reflexivity |]. split; assumption.
    + exists e'. split; [right; exact Hin |]. split; [exact Heq |].
      cbn [snd] in Hgt. exact (ltb_trans _ _ _ Hlt Hgt).
Qed.

Lemma Min_positive (b : float) :
  (0 <? b)%float = true -> (0 <? Min b 1)%float = true.
Proof.
  intros Hb. unfold Min.
  assert (Hninf : (b =? neg_infinity)%float = false).
  { revert Hb. rewrite FloatAxioms.ltb_spec, FloatAxioms.eqb_spec.
    change (Prim2SF 0) with (S754_zero false).
    change (Prim2SF neg_infinity) with (S754_infinity true).
    destruct (Prim2SF b) as [s|s| |s m e]; try destruct s; simpl; try discriminate; reflexivity. }
  assert (Hnan : is_nan b = false).
  { unfold is_nan. apply ltb_not_nan in Hb. now rewrite Hb. }
  assert (Hz : (b =? 0)%float = false).
  { revert Hb. rewrite FloatAxioms.ltb_spec, FloatAxioms.eqb_spec.
    change (Prim2SF 0) with (S754_zero false).
    destruct (Prim2SF b) as [s|s| |s m e]; try destruct s; simpl; try discriminate; reflexivity. }
  rewrite Hninf, Hnan, Hz. cbn [orb andb].
  destruct (b <? 1)%float; [exact Hb | reflexivity].
Qed.

(** X22. When classifyIntent returns an intent other than UNKNOWN, the
    confidence is above 0, the intent is an entry of the traversal whose
    boosted score is above 0, not below its threshold, and not below the
    boosted score of any entry. *)
Theorem recognised_intent_has_positive_confidence :
  forall (p : EnhancedLocalProvider) (order : list (string * IntentPattern.t))
         (text : string),
    let r := classifyIntent p order text in
    Intent_ r <> "UNKNOWN" ->
    (0 <? Confidence_ r)%float = true
    /\ exists e,
         In e order
         /\ Intent_ r = fst e
         /\ Confidence_ r = Min (boostedScore p text e) 1
         /\ (0 <? boostedScore p text e)%float = true
         /\ (boostedScore p text e <? thresholdOf p (fst e))%float = false
         /\ forall e', In e' order ->
              (boostedScore p text e <? boostedScore p text e')%float = false.
Proof.
  intros p order text. cbv zeta. intros Hr.
  destruct (classifyIntent_cases p order text) as [[_ Hc] | [Hth Hc]];
    rewrite Hc in Hr |- *; cbn [Intent_ Confidence_] in *; [contradiction |].
  destruct (loop_origin_above p text order ("UNKNOWN", 0%float))
    as [Hkeep | (e & Hin & Heq & Hgt)].
  - exfalso. apply Hr. unfold bestOf. now rewrite Hkeep.
  - pose proof (loop_max p text order ("UNKNOWN", 0%float) eq_refl) as [_ Hmax].
    unfold bestOf in *. rewrite Heq in *. cbn [fst snd] in *.
    split; [apply Min_positive; exact Hgt |].
    exists e. repeat (split; [first [assumption | reflexivity] |]). exact Hmax.
Qed.

Lemma recognised_intent_witness :
  let p := greetProvider in
  let order := map_to_list (Intents (config p)) in
  let r := classifyIntent p order "hello hi" in
  Intent_ r <> "UNKNOWN"
  /\ Intent_ r = "GREET"
  /\ (0 <? Confidence_ r)%float = true
  /\ exists e,
       In e order
       /\ Intent_ r = fst e
       /\ Confidence_ r = Min (boostedScore p "hello hi" e) 1
       /\ (0 <? boostedScore p "hello hi" e)%float = true
       /\ (boostedScore p "hello hi" e <? thresholdOf p (fst e))%float = false
       /\ forall e', In e' order ->
            (boostedScore p "hello hi" e <? boostedScore p "hello hi" e')%float = false.
Proof.
  cbv zeta.
  assert (Hr : Intent_ (classifyIntent greetProvider
                          (map_to_list (Intents (config greetProvider))) "hello hi")
               = "GREET") by (vm_compute; reflexivity).
  assert (Hne : Intent_ (classifyIntent greetProvider
                           (map_to_list (Intents (config greetProvider))) "hello hi")
                <> "UNKNOWN") by (rewrite Hr; discriminate).
  split; [exact Hne |]. split; [exact Hr |].
  exact (recognised_intent_has_positive_confidence greetProvider
           (map_to_list (Intents (config greetProvider))) "hello hi" Hne).
Defined.

(** ** The built-in configuration never answers UNKNOWN *)

Lemma keywordIncrement_match p textLower keyword :
  keywordIncrement p textLower keyword = incrementOf (keywordMatch p textLower keyword).
Proof.
  unfold keywordIncrement, keywordMatch.
  destruct (Contains textLower (ToLower keyword)); [reflexivity |].
  destruct (existsb _ _); reflexivity.
Qed.

Lemma filter_length_le {A : Type} (f : A -> bool) l :
  (List.length (List.filter f l) <= List.length l)%nat.
Proof.
  induction l as [| x l IH]; [reflexivity |]. cbn [List.filter].
  destruct (f x); cbn [List.length]; lia.
Qed.

Lemma boostedScore_of_matches p text name intent k1 k2 k3 k4 :
  at_key (IntentRegexes (compiled p)) name = [] ->
  at_key (KeywordMap (compiled p)) name = [k1; k2; k3; k4] ->
  List.length (getIntentWords intent) = 12%nat ->
  IntentPattern.Priority intent = 10%Z ->
  exists phrase m1 m2 m3 m4 overlap long,
    (overlap <= 12)%nat
    /\ boostedScore p text (name, intent)
       = scoreOfMatches phrase [m1; m2; m3; m4] overlap long.
Proof.
  intros Hre Hkw Hwords Hprio.
  exists (existsb (fun phrase => Contains (ToLower text) (ToLower phrase))
            (at_key (PhraseMap (compiled p)) name)),
    (keywordMatch p (ToLower text) k1), (keywordMatch p (ToLower text) k2),
    (keywordMatch p (ToLower text) k3), (keywordMatch p (ToLower text) k4),
    (List.length
       (List.filter (fun word => existsb (String.eqb word) (tokenize text))
          (getIntentWords intent))),
    (20 <? String.length text)%nat.
  split.
  { rewrite <- Hwords. apply filter_length_le. }
  unfold boostedScore, calculateIntentScore, signalScore, keywordSignal,
    calculateWordOverlap, scoreOfMatches. cbn [fst snd].
  rewrite Hre, Hkw, Hwords, Hprio, keywordLoop_spec. cbn [existsb fst List.length Nat.ltb Nat.leb Nat.eqb].
  assert (Hinc : omap (keywordIncrement p (ToLower text)) [k1; k2; k3; k4]
                 = omap incrementOf
                     [keywordMatch p (ToLower text) k1; keywordMatch p (ToLower text) k2;
                      keywordMatch p (ToLower text) k3; keywordMatch p (ToLower text) k4]).
  { cbn [omap list_omap]. now rewrite !keywordIncrement_match. }
  rewrite Hinc. reflexivity.
Qed.

Lemma scoreOk_in_all_cases :
  forallb (fun phrase =>
  forallb (fun m1 => forallb (fun m2 => forallb (fun m3 => forallb (fun m4 =>
  forallb (fun overlap =>
  forallb (fun long => scoreOk phrase m1 m2 m3 m4 overlap long)
    [true; false]) (seq 0 13)) eachMatch) eachMatch) eachMatch) eachMatch) [true; false]
  = true.
Proof. vm_compute. reflexivity. Qed.

Lemma scoreOfMatches_at_least_one phrase m1 m2 m3 m4 overlap long :
  (overlap <= 12)%nat ->
  (scoreOfMatches phrase [m1; m2; m3; m4] overlap long <? 1)%float = false
  /\ (scoreOfMatches phrase [m1; m2; m3; m4] overlap long
      =? scoreOfMatches phrase [m1; m2; m3; m4] overlap long)%float = true.
Proof.
  intros Hk.
  assert (Hb : forall b : bool, In b [true; false]) by (intros []; cbn; tauto).
  assert (Hm : forall m : KeywordMatch, In m eachMatch) by (intros []; cbn; tauto).
  assert (Hin : In overlap (seq 0 13)) by (apply in_seq; lia).
  pose proof (forallb_In _ _ phrase scoreOk_in_all_cases (Hb phrase)) as H1.
  pose proof (forallb_In _ _ m1 H1 (Hm m1)) as H2.
  pose proof (forallb_In _ _ m2 H2 (Hm m2)) as H3.
  pose proof (forallb_In _ _ m3 H3 (Hm m3)) as H4.
  pose proof (forallb_In _ _ m4 H4 (Hm m4)) as H5.
  pose proof (forallb_In _ _ overlap H5 Hin) as H6.
  pose proof (forallb_In _ _ long H6 (Hb long)) as H7.
  unfold scoreOk in H7. apply andb_true_iff in H7. destruct H7 as [Ha Hn].
  apply negb_true_iff in Ha. split; assumption.
Qed.

Lemma Min_at_least_one (b : float) :
  (b <? 1)%float = false -> (b =? b)%float = true -> Min b 1 = 1%float.
Proof.
  intros Hlt Hnan. unfold Min.
  assert (Hninf : (b =? neg_infinity)%float = false).
  { revert Hlt Hnan. rewrite FloatAxioms.ltb_spec, !FloatAxioms.eqb_spec.
    change (Prim2SF 1) with (S754_finite false 4503599627370496 (-52)).
    change (Prim2SF neg_infinity) with (S754_infinity true).
    destruct (Prim2SF b) as [s|s| |s m e]; try destruct s; simpl; try discriminate; reflexivity. }
  assert (Hn : is_nan b = false) by (unfold is_nan; now rewrite Hnan).
  assert (Hz : ((b =? 0) && (b =? 1))%float = false).
  { destruct (b =? 0)%float eqn:H0; [| reflexivity]. cbn [andb].
    revert H0 Hlt. rewrite FloatAxioms.ltb_spec, !FloatAxioms.eqb_spec.
    change (Prim2SF 1) with (S754_finite false 4503599627370496 (-52)).
    change (Prim2SF 0) with (S754_zero false).
    destruct (Prim2SF b) as [s|s| |s m e]; try destruct s; simpl; try discriminate. }
  rewrite Hninf, Hn, Hz, Hlt. reflexivity.
Qed.

Lemma always_recognised p order text name intent k1 k2 k3 k4 :
  In (name, intent) order ->
  at_key (IntentRegexes (compiled p)) name = [] ->
  at_key (KeywordMap (compiled p)) name = [k1; k2; k3; k4] ->
  List.length (getIntentWords intent) = 12%nat ->
  IntentPattern.Priority intent = 10%Z ->
  (forall e, In e order -> (thresholdOf p (fst e) <? 1)%float = true) ->
  In (Intent_ (classifyIntent p order text)) (order.*1)
  /\ Confidence_ (classifyIntent p order text) = 1%float.
Proof.
  intros Hin Hre Hkw Hwords Hprio Hth.
  destruct (boostedScore_of_matches p text name intent k1 k2 k3 k4 Hre Hkw Hwords Hprio)
    as (phrase & m1 & m2 & m3 & m4 & overlap & long & Hk & Hscore).
  destruct (scoreOfMatches_at_least_one phrase m1 m2 m3 m4 overlap long Hk) as [Hone Hnum].
  rewrite <- Hscore in Hone, Hnum. clear Hscore.
  set (top := boostedScore p text (name, intent)) in *.
  pose proof (loop_max p text order ("UNKNOWN", 0%float) eq_refl) as [_ Hmax].
  pose proof (loop_not_nan p text order ("UNKNOWN", 0%float) eq_refl) as Hbn.
  fold (bestOf p text order) in Hmax, Hbn.
  assert (Hbest : (snd (bestOf p text order) <? 1)%float = false).
  { destruct (snd (bestOf p text order) <? 1)%float eqn:Hb; [| reflexivity].
    pose proof (ltb_cotrans _ top _ Hb Hnum (Hmax _ Hin)) as Hc.
    congruence. }
  assert (Horigin : exists e, In e order
                      /\ bestOf p text order = (fst e, boostedScore p text e)).
  { destruct (loop_origin_above p text order ("UNKNOWN", 0%float))
      as [Hkeep | (e & He & Heq & _)]; [| exists e; split; assumption].
    exfalso. fold (bestOf p text order) in Hkeep. rewrite Hkeep in Hbest.
    cbn [snd] in Hbest. vm_compute in Hbest. discriminate Hbest. }
  destruct Horigin as (e & He & Heq).
  destruct (classifyIntent_cases p order text) as [[Hbelow _] | [_ Hc]].
  - exfalso. cbv zeta in Hbelow. rewrite Heq in Hbelow, Hbest. cbn [fst snd] in Hbelow, Hbest.
    pose proof (ltb_trans _ _ _ Hbelow (Hth e He)) as Hc. congruence.
  - rewrite Hc. cbn [Intent_ Confidence_]. split.
    + rewrite Heq. cbn [fst]. apply list_elem_of_In, list_elem_of_fmap.
      exists e. split; [reflexivity | apply list_elem_of_In; exact He].
    + apply Min_at_least_one; [exact Hbest | exact Hbn].
Qed.

(** X23. With the built-in configuration classifyIntent answers CREATE_CONTACT
    or FIND_CONTACT with confidence 1 for every text and every order of the
    traversal: the priority boost of CREATE_CONTACT alone reaches 1. *)
Theorem built_in_configuration_never_answers_UNKNOWN :
  forall (order : list (string * IntentPattern.t)) (text : string),
    order ≡ₚ map_to_list (Intents (config defaultProvider)) ->
    let r := classifyIntent defaultProvider order text in
    (Intent_ r = "CREATE_CONTACT" \/ Intent_ r = "FIND_CONTACT")
    /\ Confidence_ r = 1%float.
Proof.
  intros order text Hp. cbv zeta.
  assert (Hlist : map_to_list (Intents (config defaultProvider))
                  = [("CREATE_CONTACT", intentOf defaultProvider "CREATE_CONTACT");
                     ("FIND_CONTACT", intentOf defaultProvider "FIND_CONTACT")]
                    \/ map_to_list (Intents (config defaultProvider))
                       = [("FIND_CONTACT", intentOf defaultProvider "FIND_CONTACT");
                          ("CREATE_CONTACT", intentOf defaultProvider "CREATE_CONTACT")]).
  { vm_compute. tauto. }
  assert (Hall : forall e, In e order ->
                   e = ("CREATE_CONTACT", intentOf defaultProvider "CREATE_CONTACT")
                   \/ e = ("FIND_CONTACT", intentOf defaultProvider "FIND_CONTACT")).
  { intros e He. apply list_elem_of_In in He. rewrite Hp in He.
    apply list_elem_of_In in He.
    destruct Hlist as [Hl | Hl]; rewrite Hl in He; cbn [In] in He;
      destruct He as [<- | [<- | []]]; tauto. }
  assert (Hcreate : In ("CREATE_CONTACT", intentOf defaultProvider "CREATE_CONTACT") order).
  { apply list_elem_of_In. rewrite Hp. apply list_elem_of_In.
    destruct Hlist as [Hl | Hl]; rewrite Hl; cbn [In]; tauto. }
  destruct (always_recognised defaultProvider order text
              "CREATE_CONTACT" (intentOf defaultProvider "CREATE_CONTACT")
              "create" "add" "new" "save" Hcreate) as [Hname Hconf].
  - vm_compute. reflexivity.
  - vm_compute. reflexivity.
  - vm_compute. reflexivity.
  - vm_compute. reflexivity.
  - intros e He. destruct (Hall e He) as [-> | ->]; vm_compute; reflexivity.
  - split; [| exact Hconf].
    apply list_elem_of_In, list_elem_of_fmap in Hname. destruct Hname as (e & -> & He).
    apply list_elem_of_In in He. destruct (Hall e He) as [-> | ->]; cbn [fst]; tauto.
Qed.

Lemma built_in_configuration_witness :
  let order := map_to_list (Intents (config defaultProvider)) in
  let r := classifyIntent defaultProvider order (normalizeText "what is the weather?") in
  order ≡ₚ map_to_list (Intents (config defaultProvider))
  /\ (Intent_ r = "CREATE_CONTACT" \/ Intent_ r = "FIND_CONTACT")
  /\ Confidence_ r = 1%float.
Proof.
  cbv zeta. split; [reflexivity |].
  exact (built_in_configuration_never_answers_UNKNOWN
           (map_to_list (Intents (config defaultProvider)))
           (normalizeText "what is the weather?") (reflexivity _)).
Defined.

(** ** A result without an intent *)

(** X24. A result of ExtractIntent whose task is UNKNOWN has no missing field
    and no follow-up question, is not complete, and holds the entities and the
    confidence. *)
Theorem unknown_result_is_bare_and_not_complete :
  forall (p : EnhancedLocalProvider) oi o1 o2 o3 (text : string),
    let r := ExtractIntent p oi o1 o2 o3 text in
    Task r = "UNKNOWN" ->
    Missing r = [] /\ FollowUp r = [] /\ IsComplete r = false
    /\ Vars r = <["confidence" := VFloat (Confidence_ (classifyIntent p oi (normalizeText text)))]>
                  (VString <$> extractEntities p o1 o2 o3 text).
Proof.
  intros p oi o1 o2 o3 text. cbv zeta. rewrite ExtractIntent_Task, ExtractIntent_Vars.
  intros Hu. unfold ExtractIntent. cbv zeta. rewrite Hu. cbn [String.eqb negb].
  repeat split.
Qed.

Lemma unknown_result_witness :
  let p := greetProvider in
  let r := ExtractIntent p (map_to_list (Intents (config p))) [] [] [] "zzz" in
  Task r = "UNKNOWN"
  /\ Missing r = [] /\ FollowUp r = [] /\ IsComplete r = false.
Proof.
  cbv zeta.
  assert (H : Task (ExtractIntent greetProvider
                      (map_to_list (Intents (config greetProvider))) [] [] [] "zzz")
              = "UNKNOWN") by (vm_compute; reflexivity).
  split; [exact H |].
  destruct (unknown_result_is_bare_and_not_complete greetProvider
              (map_to_list (Intents (config greetProvider))) [] [] [] "zzz" H)
    as (H1 & H2 & H3 & _).
  repeat split; assumption.
Defined.

(** ** The display name of an intent *)

Lemma upper_is_not_lower c :
  IsUpper c = true ->
  (Ascii.eqb c "r" || Ascii.eqb c "e" || Ascii.eqb c "i" || Ascii.eqb c "a") = false.
Proof. by_bytes c. Qed.

Lemma camelWords_upper i name :
  all_bytes IsUpper name = true ->
  camelWords (S i) name
  = match name with
    | EmptyString => EmptyString
    | _ => String " " (spelledOut name)
    end.
Proof.
  revert i. induction name as [| c rest IH]; intros i; [reflexivity |].
  cbn [all_bytes]. rewrite andb_true_iff. intros [Hc Hrest].
  cbn [camelWords]. rewrite Hc, (IH (S i) Hrest). cbn [Nat.ltb Nat.leb andb].
  change (" " ++ ?s) with (String " " s). f_equal.
  destruct rest as [| d rest]; reflexivity.
Qed.

Lemma upper_second_byte_not_in_table a b rest :
  IsUpper b = true ->
  forallb (fun known => negb (String.eqb (String a (String b rest)) known))
    ["CreateEvent"; "CreateTask"; "CreateContact"; "CreateNote"; "Weather"; "Time";
     "Calculator"] = true.
Proof.
  intros Hb. pose proof (upper_is_not_lower b Hb) as Hlow.
  rewrite !orb_false_iff in Hlow. destruct Hlow as (((Hr & He) & Hi) & Hl).
  cbn [forallb String.eqb]. rewrite Hr, He, Hi, Hl.
  repeat match goal with
  | |- context [Ascii.eqb a ?c] => destruct (Ascii.eqb a c)
  end; reflexivity.
Qed.

Lemma upper_single_byte c :
  IsUpper c = true ->
  getIntentDisplayName (String c EmptyString) = spelledOut (String c EmptyString).
Proof. by_bytes c. Qed.

(** X25. getIntentDisplayName spells an intent name made of upper-case letters
    letter by letter: lower-cased, one blank between two letters. *)
Theorem all_caps_intent_name_is_spelled_out :
  forall intentName : string,
    all_bytes IsUpper intentName = true ->
    getIntentDisplayName intentName = spelledOut intentName.
Proof.
  intros [| a [| b rest]].
  - reflexivity.
  - intros H. cbn [all_bytes] in H. rewrite andb_true_r in H.
    exact (upper_single_byte a H).
  - intros H. cbn [all_bytes] in H. apply andb_true_iff in H. destruct H as [Ha H].
    pose proof H as Hb. apply andb_true_iff in Hb. destruct Hb as [Hb _].
    pose proof (upper_second_byte_not_in_table a b rest Hb) as Ht.
    cbn [forallb] in Ht. rewrite !andb_true_iff, !negb_true_iff in Ht.
    destruct Ht as (H1 & H2 & H3 & H4 & H5 & H6 & H7 & _).
    unfold getIntentDisplayName. rewrite H1, H2, H3, H4, H5, H6, H7.
    change (all_bytes IsUpper (String b rest) = true) in H.
    change (camelWords 0 (String a (String b rest)))
      with (String (ToLowerByte a) (camelWords 1 (String b rest))).
    rewrite (camelWords_upper 0 _ H). reflexivity.
Qed.

Lemma all_caps_witness :
  all_bytes IsUpper "WEATHER" = true
  /\ getIntentDisplayName "WEATHER" = "w e a t h e r".
Proof.
  split; [reflexivity |].
  exact (all_caps_intent_name_is_spelled_out "WEATHER" eq_refl).
Defined.

(** ** The reverse index of the synonyms is not consulted *)

Lemma keywordLoop_withSynonymMap p m textLower keywords st :
  keywordLoop (withSynonymMap p m) textLower keywords st
  = keywordLoop p textLower keywords st.
Proof.
  revert st. induction keywords as [| keyword rest IH]; intros st; [reflexivity |].
  cbn [keywordLoop]. rewrite IH. reflexivity.
Qed.

Lemma boostedScore_withSynonymMap p m text entry :
  boostedScore (withSynonymMap p m) text entry = boostedScore p text entry.
Proof.
  unfold boostedScore, calculateIntentScore, signalScore, keywordSignal.
  rewrite keywordLoop_withSynonymMap. reflexivity.
Qed.

Lemma classifyIntent_withSynonymMap p m order text :
  classifyIntent (withSynonymMap p m) order text = classifyIntent p order text.
Proof.
  unfold classifyIntent.
  assert (Hbest : bestOf (withSynonymMap p m) text order = bestOf p text order).
  { unfold bestOf. apply fold_left_step_ext. intros best entry.
    unfold classifyStep. now rewrite boostedScore_withSynonymMap. }
  rewrite Hbest. reflexivity.
Qed.

Lemma extractEntities_withSynonymMap p m o1 o2 o3 text :
  extractEntities (withSynonymMap p m) o1 o2 o3 text = extractEntities p o1 o2 o3 text.
Proof.
  unfold extractEntities. cbv zeta.
  rewrite (fold_left_step_ext
             (fun ents entry =>
                if String.eqb (fst entry) "name"
                then extractOne (withSynonymMap p m) text ents entry else ents)
             (fun ents entry =>
                if String.eqb (fst entry) "name" then extractOne p text ents entry else ents)
             o1 ∅) by (intros ents [n e]; reflexivity).
  rewrite (fold_left_step_ext
             (fun ents entry =>
                if String.eqb (fst entry) "title"
                then extractOne (withSynonymMap p m) text ents entry else ents)
             (fun ents entry =>
                if String.eqb (fst entry) "title" then extractOne p text ents entry else ents)
             o2 _) by (intros ents [n e]; reflexivity).
  apply fold_left_step_ext. intros ents [n e]. reflexivity.
Qed.

(** X26. ExtractIntent does not read the reverse index of the synonyms: a
    provider with another index returns the same result. *)
Theorem SynonymMap_is_never_read :
  forall (p : EnhancedLocalProvider) (m : gmap string string) oi o1 o2 o3 (text : string),
    ExtractIntent (withSynonymMap p m) oi o1 o2 o3 text = ExtractIntent p oi o1 o2 o3 text.
Proof.
  intros p m oi o1 o2 o3 text. unfold ExtractIntent. cbv zeta.
  rewrite classifyIntent_withSynonymMap, extractEntities_withSynonymMap. reflexivity.
Qed.
